(** * The merge engine of web_sheet_excel ([src/lib/excel-utils.ts])

    A shallow embedding of the functions of [src/lib/excel-utils.ts] and
    the properties they satisfy.

    Conventions of the embedding.
    - A JavaScript number that the code uses as a row number, a column
      number or a counter is an integer of [Z], the value of the double.
      Rows are counted one by one and stay far below 2^53, where doubles
      are exact; the column codec can leave that range, and its
      operations round as the operations on doubles do ([toDouble]).
    - A JavaScript string is the list of its UTF-16 code units.
    - A worksheet is the array of its rows and a row the array of its
      cells, as the spreadsheet library keeps them ([_rows], [_cells]):
      row [n] sits at index [n - 1], and a hole of the array is an empty
      row or an empty cell.
    - The loops of the code that mutate local variables are written as
      folds over an explicit state.
    - An input file is the workbook that the library reads from it; reading
      and writing files belong to the library. *)

From Stdlib Require Import String Ascii QArith ZArith Bool Lia List.
Import ListNotations.

Local Open Scope Z_scope.

(** ** Strings *)

Definition jsstring := list Z.

(** Code points of a UTF-8 byte sequence, as UTF-16 code units. *)
Fixpoint utf8_units (bs : list Z) : jsstring :=
  match bs with
  | [] => []
  | b1 :: r1 =>
      if b1 <? 128 then b1 :: utf8_units r1
      else match r1 with
           | [] => [b1]
           | b2 :: r2 =>
               if b1 <? 224
               then ((b1 mod 32) * 64 + b2 mod 64) :: utf8_units r2
               else match r2 with
                    | [] => [b1; b2]
                    | b3 :: r3 =>
                        if b1 <? 240
                        then ((b1 mod 16) * 4096 + (b2 mod 64) * 64 + b3 mod 64)
                               :: utf8_units r3
                        else match r3 with
                             | [] => [b1; b2; b3]
                             | b4 :: r4 =>
                                 let cp := (b1 mod 8) * 262144 + (b2 mod 64) * 4096
                                           + (b3 mod 64) * 64 + b4 mod 64 in
                                 (55296 + (cp - 65536) / 1024)
                                   :: (56320 + (cp - 65536) mod 1024)
                                   :: utf8_units r4
                             end
                    end
           end
  end.

(** A string literal of this file, read as a JavaScript string. *)
Definition js (s : string) : jsstring :=
  utf8_units (map (fun a => Z.of_N (N_of_ascii a)) (list_ascii_of_string s)).

Definition jsstring_eqb (a b : jsstring) : bool :=
  if list_eq_dec Z.eq_dec a b then true else false.

(** [WhiteSpace] and [LineTerminator] of the language: what [trim] removes
    and what [Number] skips around a numeric literal. *)
Definition isWhiteSpace (c : Z) : bool :=
  ((9 <=? c) && (c <=? 13)) || (c =? 32) || (c =? 160) || (c =? 5760)
  || ((8192 <=? c) && (c <=? 8202)) || (c =? 8232) || (c =? 8233)
  || (c =? 8239) || (c =? 8287) || (c =? 12288) || (c =? 65279).

Fixpoint trimStart (s : jsstring) : jsstring :=
  match s with
  | c :: r => if isWhiteSpace c then trimStart r else s
  | [] => []
  end.

Definition trim (s : jsstring) : jsstring :=
  rev (trimStart (rev (trimStart s))).

(** Case mapping of one code unit.  The mapping is written out for the
    Basic Latin and Latin-1 letters, for the letters of the Vietnamese
    alphabet, the alphabets of the keywords of this module, and for the
    characters of other blocks whose lower case has a letter of these
    alphabets: the Kelvin sign U+212A (k), the Angstrom sign U+212B
    (a with ring) and the capital I with a dot U+0130, whose lower case
    is an i followed by the combining dot U+0307.  A code unit of another
    script is left as it is.  No character outside Basic Latin has an
    upper case made of the letters T, O, A, L alone, so the comparison
    with ['TOTAL'] does not depend on the rest of the mapping. *)
Definition isVietnamesePair (c : Z) : bool :=
  (c =? 258) || (c =? 272) || (c =? 296) || (c =? 360) || (c =? 416).

Definition lowerUnit (c : Z) : Z :=
  if (65 <=? c) && (c <=? 90) then c + 32
  else if (192 <=? c) && (c <=? 222) && negb (c =? 215) then c + 32
  else if isVietnamesePair c then c + 1
  else if c =? 431 then 432
  else if (7840 <=? c) && (c <=? 7929) && Z.even c then c + 1
  else if c =? 8490 then 107
  else if c =? 8491 then 229
  else c.

Definition upperUnit (c : Z) : Z :=
  if (97 <=? c) && (c <=? 122) then c - 32
  else if (224 <=? c) && (c <=? 254) && negb (c =? 247) then c - 32
  else if isVietnamesePair (c - 1) then c - 1
  else if c =? 432 then 431
  else if (7840 <=? c) && (c <=? 7929) && Z.odd c then c - 1
  else c.

Definition lowerUnits (c : Z) : jsstring :=
  if c =? 304 then [105; 775] else [lowerUnit c].

Definition toLowerCase (s : jsstring) : jsstring := flat_map lowerUnits s.
Definition toUpperCase (s : jsstring) : jsstring := map upperUnit s.

(** [s.includes(k)] *)
Fixpoint startsWith (k s : jsstring) : bool :=
  match k, s with
  | [], _ => true
  | _ :: _, [] => false
  | a :: k', b :: s' => (a =? b) && startsWith k' s'
  end.

Fixpoint includes (s k : jsstring) : bool :=
  startsWith k s
  || match s with
     | [] => false
     | _ :: s' => includes s' k
     end.

(** ** Column codec *)

(** *** Integers in doubles

    The numbers of the codec are doubles that hold integers.  A sum, a
    difference or a product of two of them is the exact integer rounded to
    the nearest double, to the even one of two nearest: integers up to
    2^53 are doubles, a larger one keeps 53 bits, and from 2^1024 - 2^970
    on the result is an infinity.  The model writes the infinity
    [2 ^ 1024], which no double is: it compares with the doubles as the
    infinity does, and its product by 26 and its sums are itself. *)
Definition two53 : Z := 9007199254740992.

Definition infinity : Z := 2 ^ 1024.

(** The quotient [q] of a division by [d] with remainder [r], rounded to
    the nearest integer, to the even one at a tie. *)
Definition roundToEven (q r d : Z) : Z :=
  if 2 * r <? d then q
  else if d <? 2 * r then q + 1
  else if Z.even q then q else q + 1.

Definition roundMagnitude (a : Z) : Z :=
  if a <=? two53 then a
  else
    let e := Z.log2 a - 52 in
    let v := roundToEven (a / 2 ^ e) (a mod 2 ^ e) (2 ^ e) * 2 ^ e in
    if infinity <=? v then infinity else v.

(** The double of an exact integer result. *)
Definition toDouble (z : Z) : Z :=
  if z <? 0 then - roundMagnitude (- z) else roundMagnitude z.

(** [columnLetterToNumber]: [result = result * 26 + letter.charCodeAt(i) - 64]
    for each code unit, from 0: a product, a sum and a difference of
    doubles. *)
Definition columnLetterToNumber (letter : jsstring) : Z :=
  fold_left (fun result c => toDouble (toDouble (toDouble (result * 26) + c) - 64))
            letter 0.

(** [String.fromCharCode] *)
Definition fromCharCode (n : Z) : Z := n mod 65536.

(** [Math.floor(num / 26)] for a double [num >= 0] that holds an integer:
    the quotient is rounded to the nearest double, which has 53 bits from
    its leading bit [2 ^ k] on, and then cut to an integer.  Below 26 the
    quotient and its double are below 1. *)
Definition floorQuotient26 (num : Z) : Z :=
  if num <? 26 then 0
  else
    let l := Z.log2 num in
    let k := if 26 * 2 ^ (l - 4) <=? num then l - 4 else l - 5 in
    let e := k - 52 in
    if e <? 0 then
      let scaled := num * 2 ^ (- e) in
      roundToEven (scaled / 26) (scaled mod 26) 26 / 2 ^ (- e)
    else
      let d := 26 * 2 ^ e in
      roundToEven (num / d) (num mod d) d * 2 ^ e.

(** The [while (num > 0)] loop of [columnNumberToLetter], for a double
    that holds an integer: [num--], the letter of [num % 26], which is
    exact, and [num = Math.floor(num / 26)].  Each turn leaves less than
    the half of [num], so one turn more than [num] has bits is enough.
    (On an infinity the loop of the code does not end; the model does not
    follow it there.) *)
Fixpoint columnNumberToLetter_loop (fuel : nat) (num : Z) (letter : jsstring)
  : jsstring :=
  match fuel with
  | O => letter
  | S fuel' =>
      if 0 <? num then
        let num1 := toDouble (num - 1) in
        let letter1 := fromCharCode (65 + Z.rem num1 26) :: letter in
        columnNumberToLetter_loop fuel' (floorQuotient26 num1) letter1
      else letter
  end.

Definition columnNumberToLetter (num : Z) : jsstring :=
  columnNumberToLetter_loop (S (Z.to_nat (Z.log2 num))) num [].

(** The number that a string of letters denotes in the notation of the
    columns, computed on the integers. *)
Definition lettersValue (letter : jsstring) : Z :=
  fold_left (fun result c => result * 26 + c - 64) letter 0.

(** ** Cells, rows and worksheets *)

(** The code never computes with the number or the date held by a cell: it
    asks for the type of the value and for its text.  A number and a date
    are carried by the text that [toString] gives them. *)
Record number := mkNumber { numberToString : jsstring }.
Record Date := mkDate { dateToString : jsstring }.

(** A style object ([font], [fill], [alignment], [border]): a bag of
    properties.  The spread [{ ...style }] copies it property by property. *)
Definition StyleObj := list (jsstring * jsstring).

(** The cached result of a formula:
    [number | string | boolean | Date | CellErrorValue]. *)
Inductive Scalar :=
| SNumber (n : number)
| SString (s : jsstring)
| SBoolean (b : bool)
| SDate (d : Date)
| SError (error : jsstring).

Record RichText := mkRichText { rt_text : jsstring; rt_font : option StyleObj }.

(** [CellValue], the union type the library declares for [cell.value].
    [VNull] stands for both [null] and [undefined]; a missing [result] is
    [None]. *)
Inductive CellValue :=
| VNull
| VNumber (n : number)
| VString (s : jsstring)
| VBoolean (b : bool)
| VDate (d : Date)
| VError (error : jsstring)
| VRichText (richText : list RichText)
| VHyperlink (text hyperlink : jsstring)
| VFormula (formula : jsstring) (result : option Scalar)
| VSharedFormula (sharedFormula : jsstring) (result : option Scalar).

Definition scalarValue (r : Scalar) : CellValue :=
  match r with
  | SNumber n => VNumber n
  | SString s => VString s
  | SBoolean b => VBoolean b
  | SDate d => VDate d
  | SError e => VError e
  end.

(** [ExcelJS.ValueType] *)
Inductive ValueType :=
| TNull | TMerge | TNumber | TString | TDate | THyperlink | TFormula
| TSharedString | TRichText | TBoolean | TError.

Definition ValueType_eqb (a b : ValueType) : bool :=
  match a, b with
  | TNull, TNull | TMerge, TMerge | TNumber, TNumber | TString, TString
  | TDate, TDate | THyperlink, THyperlink | TFormula, TFormula
  | TSharedString, TSharedString | TRichText, TRichText
  | TBoolean, TBoolean | TError, TError => true
  | _, _ => false
  end.

(** A cell.  A cell that belongs to a merged range and is not its master
    has [merged = true]; its [value] is then the value of the master, which
    is what the library returns for [cell.value]. *)
Record Cell := mkCell {
  merged : bool;
  value : CellValue;
  font : option StyleObj;
  fill : option StyleObj;
  alignment : option StyleObj;
  border : option StyleObj;
  numFmt : option jsstring
}.

Definition emptyCell : Cell := mkCell false VNull None None None None None.

(** A cell that holds a value and no style. *)
Definition plain (v : CellValue) : Cell := mkCell false v None None None None None.

Definition Row := list Cell.

Record Worksheet := mkWorksheet {
  name : jsstring;
  rows : list Row
}.

(** [cell.type], as the library derives it from the value. *)
Definition typeOfValue (v : CellValue) : ValueType :=
  match v with
  | VNull => TNull
  | VNumber _ => TNumber
  | VString _ => TString
  | VBoolean _ => TBoolean
  | VDate _ => TDate
  | VError _ => TError
  | VRichText _ => TRichText
  | VHyperlink _ _ => THyperlink
  | VFormula _ _ | VSharedFormula _ _ => TFormula
  end.

Definition cellType (c : Cell) : ValueType :=
  if merged c then TMerge else typeOfValue (value c).

(** [typeof v === 'object'] for a value that is not [null]. *)
Definition typeofObject (v : CellValue) : bool :=
  match v with
  | VNull | VNumber _ | VString _ | VBoolean _ => false
  | _ => true
  end.

(** Property reads on a value; [None] is [undefined]. *)
Definition prop_result (v : CellValue) : option Scalar :=
  match v with
  | VFormula _ r | VSharedFormula _ r => r
  | _ => None
  end.

Definition prop_text (v : CellValue) : option jsstring :=
  match v with
  | VHyperlink t _ => Some t
  | _ => None
  end.

Definition prop_richText (v : CellValue) : option (list RichText) :=
  match v with
  | VRichText runs => Some runs
  | _ => None
  end.

Definition prop_formula (v : CellValue) : option jsstring :=
  match v with
  | VFormula f _ => Some f
  | _ => None
  end.

Definition prop_sharedFormula (v : CellValue) : option jsstring :=
  match v with
  | VSharedFormula f _ => Some f
  | _ => None
  end.

(** [cell.result]: the result of the cell's own formula value. *)
Definition cell_result (c : Cell) : option Scalar :=
  if merged c then None else prop_result (value c).

(** [x ?? null] on a result. *)
Definition orNull (r : option Scalar) : CellValue :=
  match r with
  | Some s => scalarValue s
  | None => VNull
  end.

(** [richText.map(rt => rt.text).join('')] *)
Definition joinRuns (runs : list RichText) : jsstring :=
  List.concat (map rt_text runs).

(** [v.toString()] for a value that is not [null]. *)
Definition valueToString (v : CellValue) : jsstring :=
  match v with
  | VNull => []
  | VNumber n => numberToString n
  | VString s => s
  | VBoolean true => js "true"
  | VBoolean false => js "false"
  | VDate d => dateToString d
  | _ => js "[object Object]"
  end.

(** [for (let i = a; i <= b; i++)]: the values [i] takes. *)
Definition zrange (a b : Z) : list Z :=
  map (fun k => a + Z.of_nat k) (seq 0 (Z.to_nat (b - a + 1))).

(** [row.getCell(col)].  The library accepts columns 1 to 16384 and raises
    outside; the column letters of a configuration (one or two capital
    letters) stay inside.  A cell that the row does not hold yet is
    created empty. *)
Definition getCell (row : Row) (col : Z) : Cell :=
  if col <? 1 then emptyCell else nth (Z.to_nat (col - 1)) row emptyCell.

(** Storing a cell at a column: the array of cells grows when needed. *)
Fixpoint setNth {A : Type} (d : A) (n : nat) (x : A) (l : list A) : list A :=
  match n, l with
  | O, [] => [x]
  | O, _ :: r => x :: r
  | S n', [] => d :: setNth d n' x []
  | S n', a :: r => a :: setNth d n' x r
  end.

Definition setCell (row : Row) (col : Z) (c : Cell) : Row :=
  if col <? 1 then row else setNth emptyCell (Z.to_nat (col - 1)) c row.

(** [worksheet.getRow(n)] *)
Definition getRow (rs : list Row) (n : Z) : Row :=
  if n <? 1 then [] else nth (Z.to_nat (n - 1)) rs [].

(** [worksheet.lastRow?.number || 0] *)
Definition lastRowNumber (ws : Worksheet) : Z := Z.of_nat (length (rows ws)).

(** [row.hasValues]; [eachRow] and [eachCell] visit, in order, the rows
    that have values and the cells whose type is not [Null]. *)
Definition isNullType (c : Cell) : bool := ValueType_eqb (cellType c) TNull.

Definition hasValues (row : Row) : bool := existsb (fun c => negb (isNullType c)) row.

Fixpoint eachRow {S : Type} (f : Row -> Z -> S -> S) (rs : list Row)
  (rowNumber : Z) (st : S) : S :=
  match rs with
  | [] => st
  | row :: rest =>
      eachRow f rest (rowNumber + 1)
        (if hasValues row then f row rowNumber st else st)
  end.

Definition eachCell {S : Type} (f : Cell -> S -> S) (row : Row) (st : S) : S :=
  fold_left (fun st c => if isNullType c then st else f c st) row st.

(** Truthiness of a [number | null] variable. *)
Definition truthy (n : option Z) : bool :=
  match n with
  | Some k => negb (k =? 0)
  | None => false
  end.

(** ** Row classification *)

(** [cell.value?.toString().trim()]; [None] is [undefined]. *)
Definition cellText (cell : Cell) : option jsstring :=
  match value cell with
  | VNull => None
  | v => Some (trim (valueToString v))
  end.

(** The test of [findTotalRow] on one cell:
    [cell.value?.toString().trim().toUpperCase() === 'TOTAL']. *)
Definition isTotalCell (cell : Cell) : bool :=
  match cellText cell with
  | Some t => jsstring_eqb (toUpperCase t) (js "TOTAL")
  | None => false
  end.

(** The callback of [worksheet.eachRow] in [findTotalRow]. *)
Definition findTotalRow_step (row : Row) (rowNumber : Z) (totalRow : option Z)
  : option Z :=
  if truthy totalRow then totalRow
  else
    let foundTotal :=
      eachCell (fun cell foundTotal => if isTotalCell cell then true else foundTotal)
               row false in
    if foundTotal then Some rowNumber else totalRow.

Definition findTotalRow (worksheet : Worksheet) : option Z :=
  eachRow findTotalRow_step (rows worksheet) 1 None.

Definition signatureKeywords : list jsstring :=
  [ js "người lập phiếu"; js "người nhận"; js "signature of sender";
    js "chữ ký người gửi"; js "signature"; js "chữ ký" ].

(** The [for (const keyword of signatureKeywords)] loop, which returns from
    the cell callback at the first keyword it accepts. *)
Fixpoint scanKeywords (keywords : list jsstring) (cellValue : jsstring)
  (rowNumber : Z) (signatureRow : option Z) : option Z :=
  match keywords with
  | [] => signatureRow
  | keyword :: rest =>
      if includes cellValue keyword && negb (truthy signatureRow)
      then Some rowNumber
      else scanKeywords rest cellValue rowNumber signatureRow
  end.

(** The callback of [row.eachCell] in [findSignatureRow]. *)
Definition findSignatureRow_cell (rowNumber : Z) (cell : Cell)
  (signatureRow : option Z) : option Z :=
  match option_map toLowerCase (cellText cell) with
  | None | Some [] => signatureRow
  | Some cellValue => scanKeywords signatureKeywords cellValue rowNumber signatureRow
  end.

Definition findSignatureRow_step (row : Row) (rowNumber : Z)
  (signatureRow : option Z) : option Z :=
  if truthy signatureRow then signatureRow
  else eachCell (findSignatureRow_cell rowNumber) row signatureRow.

Definition findSignatureRow (worksheet : Worksheet) : option Z :=
  eachRow findSignatureRow_step (rows worksheet) 1 None.

(** *** [Number(s)] is not [NaN]

    [Number] on a string skips white space at both ends; the empty string
    gives 0; what is left must be a numeric literal of the language. *)
Definition isDigit (c : Z) : bool := (48 <=? c) && (c <=? 57).
Definition isHexDigit (c : Z) : bool :=
  isDigit c || ((65 <=? c) && (c <=? 70)) || ((97 <=? c) && (c <=? 102)).
Definition isOctalDigit (c : Z) : bool := (48 <=? c) && (c <=? 55).
Definition isBinaryDigit (c : Z) : bool := (c =? 48) || (c =? 49).

Fixpoint dropWhile (p : Z -> bool) (s : jsstring) : jsstring :=
  match s with
  | c :: r => if p c then dropWhile p r else s
  | [] => []
  end.

Definition startsWithDigit (s : jsstring) : bool :=
  match s with
  | c :: _ => isDigit c
  | [] => false
  end.

Definition isNil (s : jsstring) : bool :=
  match s with
  | [] => true
  | _ => false
  end.

(** [ExponentPart], optional, then the end of the string. *)
Definition exponentThenEnd (s : jsstring) : bool :=
  match s with
  | [] => true
  | c :: r =>
      if (c =? 101) || (c =? 69) then
        let r' := match r with
                  | sgn :: r1 => if (sgn =? 43) || (sgn =? 45) then r1 else r
                  | [] => r
                  end in
        startsWithDigit r' && isNil (dropWhile isDigit r')
      else false
  end.

(** [StrUnsignedDecimalLiteral] *)
Definition unsignedDecimal (s : jsstring) : bool :=
  if jsstring_eqb s (js "Infinity") then true
  else
    let r1 := dropWhile isDigit s in
    match r1 with
    | 46 :: r2 =>
        (startsWithDigit s || startsWithDigit r2)
        && exponentThenEnd (dropWhile isDigit r2)
    | _ => startsWithDigit s && exponentThenEnd r1
    end.

(** [0x], [0o] and [0b] literals; they take no sign. *)
Definition nonDecimalInteger (s : jsstring) : bool :=
  match s with
  | 48 :: p :: d :: r =>
      if (p =? 120) || (p =? 88) then isHexDigit d && isNil (dropWhile isHexDigit r)
      else if (p =? 111) || (p =? 79) then isOctalDigit d && isNil (dropWhile isOctalDigit r)
      else if (p =? 98) || (p =? 66) then isBinaryDigit d && isNil (dropWhile isBinaryDigit r)
      else false
  | _ => false
  end.

(** [!isNaN(Number(s))] *)
Definition parsesAsNumber (s : jsstring) : bool :=
  match trim s with
  | [] => true
  | (c :: r) as t =>
      nonDecimalInteger t
      || unsignedDecimal (if (c =? 43) || (c =? 45) then r else t)
  end.

(** [s.replace(/,/g, '')] *)
Definition removeCommas (s : jsstring) : jsstring :=
  filter (fun c => negb (c =? 44)) s.

(** *** [isSubtotalRow] *)

Record Counts := mkCounts {
  emptyCellCount : Z;
  numericCellCount : Z;
  textCellCount : Z
}.

(** The body of the column loop of [isSubtotalRow]. *)
Definition isSubtotalRow_step (row : Row) (n : Counts) (colIndex : Z) : Counts :=
  let cell := getCell row colIndex in
  let cellValue := value cell in
  match cellValue with
  | VNull | VString [] =>
      mkCounts (emptyCellCount n + 1) (numericCellCount n) (textCellCount n)
  | VNumber _ =>
      mkCounts (emptyCellCount n) (numericCellCount n + 1) (textCellCount n)
  | _ =>
      let strValue := trim (valueToString cellValue) in
      if isNil strValue then
        mkCounts (emptyCellCount n + 1) (numericCellCount n) (textCellCount n)
      else if parsesAsNumber (removeCommas strValue) then
        mkCounts (emptyCellCount n) (numericCellCount n + 1) (textCellCount n)
      else
        mkCounts (emptyCellCount n) (numericCellCount n) (textCellCount n + 1)
  end.

(** [emptyCellCount / totalCells >= 0.7] on doubles.  For a positive
    divisor below 2^49 the rounded quotient is at least the double 0.7
    exactly when the exact quotient is at least 7/10; a zero divisor gives
    an infinity or [NaN]. *)
Definition ratioAtLeast07 (emptyCount totalCells : Z) : bool :=
  if 0 <? totalCells then 7 * totalCells <=? 10 * emptyCount
  else if totalCells =? 0 then 0 <? emptyCount
  else 10 * emptyCount <=? 7 * totalCells.

Definition subtotalCounts (row : Row) (startCol endCol : Z) : Counts :=
  fold_left (isSubtotalRow_step row) (zrange startCol endCol) (mkCounts 0 0 0).

Definition isSubtotalRow (row : Row) (startCol endCol : Z) : bool :=
  let totalCells := endCol - startCol + 1 in
  let n := subtotalCounts row startCol endCol in
  ratioAtLeast07 (emptyCellCount n) totalCells
  && (1 <=? numericCellCount n) && (numericCellCount n <=? 3)
  && (textCellCount n =? 0).

(** ** Cell value extraction and row copy *)

(** [extractSafeCellValue] *)
Definition extractSafeCellValue (cell : Cell) : CellValue :=
  match value cell with
  | VNull => VNull
  | v =>
      if ValueType_eqb (cellType cell) TFormula then orNull (cell_result cell)
      else if ValueType_eqb (cellType cell) TRichText then
        match prop_richText v with
        | Some runs => VString (joinRuns runs)
        | None => VNull
        end
      else if typeofObject v then
        match prop_result v with
        | Some r => scalarValue r
        | None =>
            match prop_text v with
            | Some t => VString t
            | None =>
                match prop_richText v with
                | Some runs => VString (joinRuns runs)
                | None =>
                    match prop_formula v, prop_sharedFormula v with
                    | None, None => VNull
                    | _, _ => orNull (prop_result v)
                    end
                end
            end
        end
      else v
  end.

(** The truth value of [cell.numFmt], a string. *)
Definition truthyString (s : option jsstring) : bool :=
  match s with
  | Some (_ :: _) => true
  | _ => false
  end.

(** What one turn of the column loop of [copyRowWithFormatting] makes of
    the target cell.  The assignment [targetCell.value = cellValue] gives
    the cell a value of its own; the target rows of this module are new
    rows of the output sheet, which hold no cell of a merged range. *)
Definition copyCell (sourceCell targetCell : Cell) : Cell :=
  let cellValue := extractSafeCellValue sourceCell in
  let t1 := match cellValue with
            | VNull => targetCell
            | v => mkCell false v (font targetCell) (fill targetCell)
                     (alignment targetCell) (border targetCell) (numFmt targetCell)
            end in
  mkCell (merged t1) (value t1)
    (match font sourceCell with Some f => Some f | None => font t1 end)
    (match fill sourceCell with Some f => Some f | None => fill t1 end)
    (match alignment sourceCell with Some a => Some a | None => alignment t1 end)
    (match border sourceCell with Some b => Some b | None => border t1 end)
    (if truthyString (numFmt sourceCell) then numFmt sourceCell else numFmt t1).

Definition copyRow_step (sourceRow : Row) (targetRow : Row) (colIndex : Z) : Row :=
  let sourceCell := getCell sourceRow colIndex in
  let targetCell := getCell targetRow colIndex in
  setCell targetRow colIndex (copyCell sourceCell targetCell).

(** [copyRowWithFormatting]: the target row after the call. *)
Definition copyRowWithFormatting (sourceRow targetRow : Row) (startCol endCol : Z)
  : Row :=
  fold_left (copyRow_step sourceRow) (zrange startCol endCol) targetRow.

(** ** The merge *)

Record MergeConfig := mkConfig {
  includeTotal : bool;
  startRow : Z;
  startColumn : jsstring;
  endColumn : jsstring;
  includeSignature : bool
}.

(** A workbook read from a file: its worksheets, in order. *)
Definition Workbook := list Worksheet.

(** The place of a source sheet in the input: index of the file, index of
    the sheet in the file. *)
Definition SheetId := (nat * nat)%type.

Definition SheetId_eqb (a b : SheetId) : bool :=
  Nat.eqb (fst a) (fst b) && Nat.eqb (snd a) (snd b).

(** A row object of a source sheet, as [sourceSheet.getRow(n)] returns it:
    it knows its sheet and its number. *)
Record SourceRow := mkSourceRow {
  src_sheet : SheetId;
  src_number : Z;
  src_cells : Row
}.

Definition sourceRow (sid : SheetId) (sheet : Worksheet) (rowNum : Z) : SourceRow :=
  mkSourceRow sid rowNum (getRow (rows sheet) rowNum).

(** What the merge does, recorded as it happens.  The record is not a
    variable of the code: it names every row that the data loop visits,
    every source row copied to the output, in the order of the output
    rows, and every source row kept for the signature. *)
Inductive RowKind := Header | Total | Data | Signature.

Inductive Event :=
| Scanned (sheet : SheetId) (rowNum : Z)
| Copied (kind : RowKind) (src : SourceRow)
| Captured (src : SourceRow).

(** The variables of [mergeExcelFiles]: the rows of the new sheet
    ["Consolidated"], [targetRowNum], [isFirstSheet], [signatureRowsToAdd],
    and the record of events.  ([firstSourceSheet] is assigned and never
    read.)  [worksheet] holds the rows as the copies of rows leave them.
    The widths of the columns are no part of it; the call of
    [copyColumnWidths] counts for the exception it can raise (see
    [mergeExcelFiles]).  The merged ranges that [copyMergedCells] adds to
    the header of the output are described with [copyMergedCells] below:
    the cells of such a range, in the rows [1 .. startRow - 1] of the
    output, show the value and the style of its first cell, and the
    statements about these rows say when there is none
    ([headerUnmerged]). *)
Record MergeState := mkState {
  worksheet : list Row;
  targetRowNum : Z;
  isFirstSheet : bool;
  signatureRowsToAdd : list SourceRow;
  trace : list Event
}.

Definition startColNum (config : MergeConfig) : Z :=
  columnLetterToNumber (startColumn config).
Definition endColNum (config : MergeConfig) : Z :=
  columnLetterToNumber (endColumn config).

(** Storing a row of the output sheet at its number. *)
Definition setRow (rs : list Row) (n : Z) (row : Row) : list Row :=
  if n <? 1 then rs else setNth [] (Z.to_nat (n - 1)) row rs.

(** The four statements that copy one row to the output:
    [targetRow = worksheet.getRow(targetRowNum)],
    [copyRowWithFormatting(sourceRow, targetRow, startColNum, endColNum)],
    [targetRow.commit()], [targetRowNum++]. *)
Definition copyToTarget (config : MergeConfig) (kind : RowKind)
  (src : SourceRow) (st : MergeState) : MergeState :=
  let targetRow := getRow (worksheet st) (targetRowNum st) in
  let targetRow' :=
    copyRowWithFormatting (src_cells src) targetRow
      (startColNum config) (endColNum config) in
  mkState (setRow (worksheet st) (targetRowNum st) targetRow')
          (targetRowNum st + 1)
          (isFirstSheet st)
          (signatureRowsToAdd st)
          (trace st ++ [Copied kind src]).

(** The header loop: rows [1 .. startRowNum - 1] of the first sheet. *)
Definition copyHeaderRows (config : MergeConfig) (sid : SheetId)
  (sheet : Worksheet) (st : MergeState) : MergeState :=
  fold_left (fun st rowNum => copyToTarget config Header (sourceRow sid sheet rowNum) st)
            (zrange 1 (startRow config - 1)) st.

(** The branch that the body of the data loop takes for a row, in the
    order of its tests. *)
Inductive RowAction := ActTotal | ActSignature | ActSubtotal | ActData.

Definition isTotalRowNum (totalRowNum : option Z) (rowNum : Z) : bool :=
  match totalRowNum with
  | Some t => negb (t =? 0) && (rowNum =? t)
  | None => false
  end.

Definition inSignature (signatureRowNum : option Z) (rowNum : Z) : bool :=
  match signatureRowNum with
  | Some s => negb (s =? 0) && (s <=? rowNum)
  | None => false
  end.

Definition rowAction (config : MergeConfig) (sheet : Worksheet)
  (totalRowNum signatureRowNum : option Z) (rowNum : Z) : RowAction :=
  if isTotalRowNum totalRowNum rowNum then ActTotal
  else if inSignature signatureRowNum rowNum then ActSignature
  else if negb (includeTotal config)
          && isSubtotalRow (getRow (rows sheet) rowNum)
               (startColNum config) (endColNum config)
  then ActSubtotal
  else ActData.

(** The inner loop that saves the signature rows,
    [signatureRowNum .. lastRow]. *)
Definition captureSignature (sid : SheetId) (sheet : Worksheet)
  (signatureRowNum : option Z) (lastRow : Z) (st : MergeState) : MergeState :=
  let sigRows := zrange (match signatureRowNum with Some s => s | None => 0 end)
                        lastRow in
  mkState (worksheet st) (targetRowNum st) (isFirstSheet st)
          (signatureRowsToAdd st ++ map (sourceRow sid sheet) sigRows)
          (trace st ++ map Captured (map (sourceRow sid sheet) sigRows)).

Definition scanned (sid : SheetId) (rowNum : Z) (st : MergeState) : MergeState :=
  mkState (worksheet st) (targetRowNum st) (isFirstSheet st)
          (signatureRowsToAdd st) (trace st ++ [Scanned sid rowNum]).

(** The data loop [for (rowNum = startRowNum; rowNum <= lastRow; rowNum++)],
    over the row numbers still to visit; [break] drops them. *)
Fixpoint walkRows (config : MergeConfig) (sid : SheetId) (sheet : Worksheet)
  (totalRowNum signatureRowNum : option Z) (lastRow : Z)
  (rowNums : list Z) (st : MergeState) : MergeState :=
  match rowNums with
  | [] => st
  | rowNum :: rest =>
      let st := scanned sid rowNum st in
      let continue := walkRows config sid sheet totalRowNum signatureRowNum lastRow rest in
      match rowAction config sheet totalRowNum signatureRowNum rowNum with
      | ActTotal =>
          if includeTotal config
          then continue (copyToTarget config Total (sourceRow sid sheet rowNum) st)
          else continue st
      | ActSignature =>
          if includeSignature config
             && (Z.of_nat (length (signatureRowsToAdd st)) =? 0)
          then captureSignature sid sheet signatureRowNum lastRow st
          else st
      | ActSubtotal => continue st
      | ActData =>
          continue (copyToTarget config Data (sourceRow sid sheet rowNum) st)
      end
  end.

(** The callback of [sourceWorkbook.worksheets.forEach].  [lastRow] is read
    after the header loop; that loop may create rows in a source sheet
    shorter than the header, and the data loop is empty then, as it is
    with the length read before. *)
Definition processSheet (config : MergeConfig) (sid : SheetId)
  (sourceSheet : Worksheet) (st : MergeState) : MergeState :=
  let totalRowNum := findTotalRow sourceSheet in
  let signatureRowNum := findSignatureRow sourceSheet in
  let st1 := if isFirstSheet st then copyHeaderRows config sid sourceSheet st else st in
  let lastRow := lastRowNumber sourceSheet in
  let st2 := walkRows config sid sourceSheet totalRowNum signatureRowNum lastRow
               (zrange (startRow config) lastRow) st1 in
  mkState (worksheet st2) (targetRowNum st2) false
          (signatureRowsToAdd st2) (trace st2).

Fixpoint processSheets (config : MergeConfig) (fileIndex sheetIndex : nat)
  (sheets : list Worksheet) (st : MergeState) : MergeState :=
  match sheets with
  | [] => st
  | sourceSheet :: rest =>
      processSheets config fileIndex (S sheetIndex) rest
        (processSheet config (fileIndex, sheetIndex) sourceSheet st)
  end.

(** [for (const file of files)] *)
Fixpoint processFiles (config : MergeConfig) (fileIndex : nat)
  (files : list Workbook) (st : MergeState) : MergeState :=
  match files with
  | [] => st
  | sourceWorkbook :: rest =>
      processFiles config (S fileIndex) rest
        (processSheets config fileIndex 0 sourceWorkbook st)
  end.

(** The signature section, added at the end. *)
Definition appendSignature (config : MergeConfig) (st : MergeState) : MergeState :=
  if 0 <? Z.of_nat (length (signatureRowsToAdd st))
  then fold_left (fun st sigRow => copyToTarget config Signature sigRow st)
                 (signatureRowsToAdd st) st
  else st.

Definition initialState : MergeState := mkState [] 1 true [] [].

(** [baseWorkbook.addWorksheet('Consolidated')] raises when the workbook
    read from the first file has a sheet of that name already; the library
    compares the names without regard to case. *)
Definition hasConsolidated (workbook : Workbook) : bool :=
  existsb (fun sheet => jsstring_eqb (toLowerCase (name sheet)) (js "consolidated"))
          workbook.

Definition hasSheet (workbook : Workbook) : bool :=
  match workbook with
  | [] => false
  | _ :: _ => true
  end.

(** A window [startColNum <= endColNum] that is not made of columns of a
    sheet.  [copyColumnWidths(templateSheet, ...)] raises at its first
    turn when the window starts below column 1, and when the first
    workbook has no sheet ([templateSheet] is [undefined]).  With an end
    column above 16384 [getCell] raises in the first row that is copied or
    tested for a subtotal; the model gives no state for such a window
    (a merge that reads and writes no cell at all would return). *)
Definition windowRaises (config : MergeConfig) (baseWorkbook : Workbook) : bool :=
  (startColNum config <=? endColNum config)
  && ((startColNum config <? 1) || negb (hasSheet baseWorkbook)
      || (16384 <? endColNum config)).

(** The header loop [for (rowNum = 1; rowNum < startRowNum; rowNum++)] of
    the first sheet does not end when [startRowNum] is above 2^53, where
    [rowNum++] leaves [rowNum] as it is. *)
Definition headerLoopHangs (config : MergeConfig) (files : list Workbook) : bool :=
  (two53 <? startRow config) && existsb hasSheet files.

(** The data loop starts at [startRowNum] in every sheet.  A row with a
    number below 0 has no cell: the library refuses the address of a cell
    of such a row, and the first row that the loop visits, which is
    neither the total row nor in the signature section, is tested for a
    subtotal or copied over the columns of the window. *)
Definition dataLoopRaises (config : MergeConfig) (files : list Workbook) : bool :=
  (startRow config <? 0) && (startColNum config <=? endColNum config)
  && existsb hasSheet files.

(** [mergeExcelFiles]: the state when the output workbook is written;
    [None] when the call raises or does not end.  [files[0]] of an empty
    list is [undefined] and the call raises; then come the new sheet
    (line 308), the widths of the columns (line 315) and the loops. *)
Definition mergeExcelFiles (files : list Workbook) (config : MergeConfig)
  : option MergeState :=
  match files with
  | [] => None
  | baseWorkbook :: _ =>
      if hasConsolidated baseWorkbook then None
      else if windowRaises config baseWorkbook then None
      else if headerLoopHangs config files then None
      else if dataLoopRaises config files then None
      else Some (appendSignature config (processFiles config 0 files initialState))
  end.

(** ** Notions used in the statements *)

(** A row contains a cell whose trimmed text, compared without case, is
    ["TOTAL"]. *)
Definition rowHasTotal (row : Row) : bool := existsb isTotalCell row.


(** The three classes of the subtotal heuristic, as the specification words
    them: a cell of the window is empty, numeric (a number, or a text that
    reads as a number once its commas are removed) or textual. *)
Inductive CellClass := EmptyClass | NumericClass | TextClass.

Definition CellClass_eqb (a b : CellClass) : bool :=
  match a, b with
  | EmptyClass, EmptyClass | NumericClass, NumericClass | TextClass, TextClass => true
  | _, _ => false
  end.

Definition cellClass (c : Cell) : CellClass :=
  match value c with
  | VNull => EmptyClass
  | VNumber _ => NumericClass
  | v =>
      let text := trim (valueToString v) in
      if isNil text then EmptyClass
      else if parsesAsNumber (removeCommas text) then NumericClass
      else TextClass
  end.

(** The cells of a row in the window [[startCol, endCol]]. *)
Definition windowCells (row : Row) (startCol endCol : Z) : list Cell :=
  map (getCell row) (zrange startCol endCol).

Definition countClass (k : CellClass) (cells : list Cell) : Z :=
  Z.of_nat (length (filter (fun c => CellClass_eqb (cellClass c) k) cells)).

(** The subtotal rule of the specification, with the ratio taken in the
    rationals. *)
Definition subtotalRule (row : Row) (startCol endCol : Z) : Prop :=
  let cells := windowCells row startCol endCol in
  (7 # 10 <= inject_Z (countClass EmptyClass cells) / inject_Z (endCol - startCol + 1))%Q
  /\ 1 <= countClass NumericClass cells <= 3
  /\ countClass TextClass cells = 0.

(** A cell whose trimmed, lower-cased text contains a signature keyword,
    and a row that contains such a cell. *)
Definition isSignatureCell (c : Cell) : bool :=
  match cellText c with
  | Some t =>
      let cellValue := toLowerCase t in
      negb (isNil cellValue) && existsb (includes cellValue) signatureKeywords
  | None => false
  end.

Definition rowHasSignature (row : Row) : bool := existsb isSignatureCell row.

(** Two sheets that hold the same cells in columns A and B and differ in
    columns D and E only. *)
Definition sheetInsideWindow : Worksheet :=
  mkWorksheet (js "Sheet1")
    [ [plain (VString (js "Item")); plain (VString (js "Qty"))];
      [plain (VString (js "bolt")); plain (VNumber (mkNumber (js "4")))];
      [plain (VString (js "nut")); plain (VNumber (mkNumber (js "6")))] ].

Definition sheetOutsideWindow : Worksheet :=
  mkWorksheet (js "Sheet1")
    [ [plain (VString (js "Item")); plain (VString (js "Qty"))];
      [plain (VString (js "bolt")); plain (VNumber (mkNumber (js "4")));
       emptyCell; plain (VString (js "TOTAL"))];
      [plain (VString (js "nut")); plain (VNumber (mkNumber (js "6")));
       emptyCell; emptyCell; plain (VString (js "Signature"))] ].

(** Every cell of the output sheet outside the configured window is empty. *)
Definition outsideEmpty (config : MergeConfig) (st : MergeState) : Prop :=
  forall r c,
    c < startColNum config \/ endColNum config < c ->
    getCell (getRow (worksheet st) r) c = emptyCell.

(** The values that are objects with a formula, rich text or a hyperlink:
    what [extractSafeCellValue] resolves to a scalar. *)
Definition isUnresolved (v : CellValue) : bool :=
  match v with
  | VRichText _ | VHyperlink _ _ | VFormula _ _ | VSharedFormula _ _ => true
  | _ => false
  end.

(** ** The record of a merge, described from the sheets *)

(** The sheets of the input in the order of the two loops, each with its
    place. *)
Fixpoint indexSheets (fileIndex sheetIndex : nat) (sheets : list Worksheet)
  : list (SheetId * Worksheet) :=
  match sheets with
  | [] => []
  | sheet :: rest =>
      ((fileIndex, sheetIndex), sheet) :: indexSheets fileIndex (S sheetIndex) rest
  end.

Fixpoint indexFiles (fileIndex : nat) (files : list Workbook)
  : list (SheetId * Worksheet) :=
  match files with
  | [] => []
  | wb :: rest => indexSheets fileIndex 0 wb ++ indexFiles (S fileIndex) rest
  end.

(** The two loops as one loop over the indexed sheets. *)
Definition processAll (config : MergeConfig) (sheets : list (SheetId * Worksheet))
  (st : MergeState) : MergeState :=
  fold_left (fun st p => processSheet config (fst p) (snd p) st) sheets st.

(** The branch of the data loop for a row of a sheet, with the total row
    and the signature row that the merge detects in that sheet. *)
Definition sheetRowAction (config : MergeConfig) (sheet : Worksheet) (rowNum : Z)
  : RowAction :=
  rowAction config sheet (findTotalRow sheet) (findSignatureRow sheet) rowNum.

Definition isSignatureAction (a : RowAction) : bool :=
  match a with
  | ActSignature => true
  | _ => false
  end.

(** The rows a loop visits when it stops at the first row that passes [p]:
    the rows before it, and that row. *)
Fixpoint takeThrough {A : Type} (p : A -> bool) (l : list A) : list A :=
  match l with
  | [] => []
  | x :: rest => if p x then [x] else x :: takeThrough p rest
  end.

(** The data loop of a sheet meets the signature section: one of the rows
    [startRow .. lastRow] has a number not less than that of the signature
    row and is not the total row. *)
Definition reachesSignature (config : MergeConfig) (sheet : Worksheet) : bool :=
  existsb (fun r => isSignatureAction (sheetRowAction config sheet r))
          (zrange (startRow config) (lastRowNumber sheet)).

(** The rows of a sheet from its signature row to its last row. *)
Definition signatureBlock (sid : SheetId) (sheet : Worksheet) : list SourceRow :=
  map (sourceRow sid sheet)
      (zrange (match findSignatureRow sheet with Some s => s | None => 0 end)
              (lastRowNumber sheet)).

(** The signature block of the first sheet, in the order of the input,
    whose data loop meets its signature section. *)
Definition firstSignatureBlock (config : MergeConfig)
  (sheets : list (SheetId * Worksheet)) : list SourceRow :=
  match find (fun p => reachesSignature config (snd p)) sheets with
  | Some (sid, sheet) => signatureBlock sid sheet
  | None => []
  end.

(** The events of the data loop over [rowNums], when [sigEmpty] tells
    whether [signatureRowsToAdd] is empty at its start. *)
Fixpoint walkEvents (config : MergeConfig) (sid : SheetId) (sheet : Worksheet)
  (totalRowNum signatureRowNum : option Z) (lastRow : Z)
  (rowNums : list Z) (sigEmpty : bool) : list Event :=
  match rowNums with
  | [] => []
  | rowNum :: rest =>
      let continue :=
        walkEvents config sid sheet totalRowNum signatureRowNum lastRow rest sigEmpty in
      Scanned sid rowNum ::
      match rowAction config sheet totalRowNum signatureRowNum rowNum with
      | ActTotal =>
          if includeTotal config
          then Copied Total (sourceRow sid sheet rowNum) :: continue
          else continue
      | ActSignature =>
          if includeSignature config && sigEmpty
          then map Captured
                   (map (sourceRow sid sheet)
                        (zrange (match signatureRowNum with Some s => s | None => 0 end)
                                lastRow))
          else []
      | ActSubtotal => continue
      | ActData => Copied Data (sourceRow sid sheet rowNum) :: continue
      end
  end.

Definition headerEvents (config : MergeConfig) (sid : SheetId) (sheet : Worksheet)
  : list Event :=
  map (fun r => Copied Header (sourceRow sid sheet r)) (zrange 1 (startRow config - 1)).

(** The events of one sheet. *)
Definition sheetEvents (config : MergeConfig) (sid : SheetId) (sheet : Worksheet)
  (first sigEmpty : bool) : list Event :=
  (if first then headerEvents config sid sheet else [])
  ++ walkEvents config sid sheet (findTotalRow sheet) (findSignatureRow sheet)
       (lastRowNumber sheet) (zrange (startRow config) (lastRowNumber sheet)) sigEmpty.

(** A sheet fills [signatureRowsToAdd] when signatures are asked for, the
    list is still empty and the data loop meets the signature section. *)
Definition captures (config : MergeConfig) (sheet : Worksheet) (sigEmpty : bool) : bool :=
  includeSignature config && sigEmpty && reachesSignature config sheet.

Fixpoint allEvents (config : MergeConfig) (sheets : list (SheetId * Worksheet))
  (first sigEmpty : bool) : list Event :=
  match sheets with
  | [] => []
  | (sid, sheet) :: rest =>
      sheetEvents config sid sheet first sigEmpty
      ++ allEvents config rest false (sigEmpty && negb (captures config sheet sigEmpty))
  end.

(** Readings of a record of events. *)
Definition scannedRows (sid : SheetId) (events : list Event) : list Z :=
  flat_map (fun e => match e with
                     | Scanned s r => if SheetId_eqb s sid then [r] else []
                     | _ => []
                     end) events.

Definition copiedSources (events : list Event) : list SourceRow :=
  flat_map (fun e => match e with
                     | Copied _ src => [src]
                     | _ => []
                     end) events.

Definition copiedFrom (sid : SheetId) (events : list Event) : list (RowKind * Z) :=
  flat_map (fun e => match e with
                     | Copied k src =>
                         if SheetId_eqb (src_sheet src) sid then [(k, src_number src)] else []
                     | _ => []
                     end) events.

Definition capturedRows (events : list Event) : list SourceRow :=
  flat_map (fun e => match e with
                     | Captured src => [src]
                     | _ => []
                     end) events.

Definition isSignatureCopy (e : Event) : bool :=
  match e with
  | Copied Signature _ => true
  | _ => false
  end.

(** The output row that the copy of a source row gives. *)
Definition render (config : MergeConfig) (src : SourceRow) : Row :=
  copyRowWithFormatting (src_cells src) [] (startColNum config) (endColNum config).

(** The record of a whole merge. *)
Definition mergeTrace (files : list Workbook) (config : MergeConfig) : list Event :=
  match mergeExcelFiles files config with
  | Some st => trace st
  | None => []
  end.

(** The cursor and the rows of the output sheet follow the record: row
    [k] of the output is the copy of the [k]-th source row copied. *)
Definition outputFollowsTrace (config : MergeConfig) (st : MergeState) : Prop :=
  worksheet st = map (render config) (copiedSources (trace st))
  /\ targetRowNum st = 1 + Z.of_nat (length (worksheet st)).

(** [signatureRowsToAdd.length === 0] *)
Definition noSignatureYet (st : MergeState) : bool :=
  Z.of_nat (length (signatureRowsToAdd st)) =? 0.

(** The source sheet an event speaks of, and the events of one sheet. *)
Definition eventSheet (e : Event) : SheetId :=
  match e with
  | Scanned s _ => s
  | Copied _ src => src_sheet src
  | Captured src => src_sheet src
  end.

Definition eventsOf (sid : SheetId) (events : list Event) : list Event :=
  filter (fun e => SheetId_eqb (eventSheet e) sid) events.

(** The data loop stops at this row of the sheet. *)
Definition stopsAt (config : MergeConfig) (sheet : Worksheet) (rowNum : Z) : bool :=
  isSignatureAction (sheetRowAction config sheet rowNum).

(** ** Sample sheets *)

Definition textCell (s : string) : Cell := plain (VString (js s)).
Definition numCell (s : string) : Cell := plain (VNumber (mkNumber (js s))).

(** A delivery note: a header row, two data rows, the total row and a
    signature section of two rows. *)
Definition deliverySheet : Worksheet :=
  mkWorksheet (js "Sheet1")
    [ [textCell "Item"; textCell "Qty"];
      [textCell "bolt"; numCell "4"];
      [textCell "nut"; numCell "6"];
      [textCell "TOTAL"; numCell "10"];
      [textCell "Người lập phiếu"; textCell "Người nhận"];
      [textCell "An"; textCell "Binh"] ].

(** The configuration that the page offers by default. *)
Definition defaultConfig : MergeConfig :=
  mkConfig true 2 (js "A") (js "Z") true.

(** A sheet whose title, above the table, contains the word "signature". *)
Definition titledSheet : Worksheet :=
  mkWorksheet (js "Sheet1")
    [ [textCell "Signature list"];
      [textCell "bolt"; numCell "4"];
      [textCell "nut"; numCell "6"] ].

(** The copies of a record, in order: kind, source sheet and row number. *)
Definition copiedLog (events : list Event) : list (RowKind * SheetId * Z) :=
  flat_map (fun e => match e with
                     | Copied k src => [(k, src_sheet src, src_number src)]
                     | _ => []
                     end) events.

(** The second file of a later merge: the result of an earlier merge,
    which holds the source sheet and the sheet "Consolidated" made from
    it. *)
Definition consolidatedSheet : Worksheet :=
  mkWorksheet (js "Consolidated")
    [ [textCell "Item"; textCell "Qty"];
      [textCell "bolt"; numCell "4"];
      [textCell "nut"; numCell "6"];
      [textCell "TOTAL"; numCell "10"] ].

Definition earlierResult : Workbook := [deliverySheet; consolidatedSheet].

(** A sheet with the word "signature" in its title and the total row as
    the first row of its table. *)
Definition totalFirstSheet : Worksheet :=
  mkWorksheet (js "Sheet1")
    [ [textCell "Delivery note - signature required"];
      [textCell "TOTAL"; numCell "10"];
      [textCell "bolt"; numCell "4"];
      [textCell "nut"; numCell "6"] ].

(** ** Further notions *)

(** A capital letter of the Basic Latin alphabet. *)
Definition isCapital (c : Z) : bool := (65 <=? c) && (c <=? 90).

Definition isHeaderCopy (e : Event) : bool :=
  match e with
  | Copied Header _ => true
  | _ => false
  end.

From Stdlib Require Import Sorted.

(** The source of each copy of a record: sheet and row number. *)
Definition copyKeys (events : list Event) : list (SheetId * Z) :=
  flat_map (fun e => match e with
                     | Copied _ src => [(src_sheet src, src_number src)]
                     | _ => []
                     end) events.

(** The order of the input: by file, then by sheet, then by row number. *)
Definition sidLt (a b : SheetId) : Prop :=
  (fst a < fst b)%nat \/ (fst a = fst b /\ (snd a < snd b)%nat).

Definition keyLt (a b : SheetId * Z) : Prop :=
  sidLt (fst a) (fst b) \/ (fst a = fst b /\ snd a < snd b).

(** The four keywords that the other two of [signatureKeywords] contain. *)
Definition shortSignatureKeywords : list jsstring :=
  [ js "người lập phiếu"; js "người nhận"; js "signature"; js "chữ ký" ].

(** A sheet with a bold title and a formula with a number format. *)
Definition boldFont : StyleObj := [(js "bold", js "true")].

Definition styledSheet : Worksheet :=
  mkWorksheet (js "Sheet1")
    [ [ mkCell false (VString (js "Item")) (Some boldFont) None None None None;
        mkCell false (VFormula (js "SUM(B2:B3)") (Some (SNumber (mkNumber (js "10")))))
          None None None None (Some (js "0.00")) ];
      [ textCell "bolt"; numCell "4" ];
      [ textCell "nut"; numCell "6" ] ].

(** The first sheet of the input, [firstSourceSheet]. *)
Definition firstSourceSheet (files : list Workbook) : option Worksheet :=
  option_map snd (hd_error (indexFiles 0 files)).

(** After the header rows are copied, [copyMergedCells] merges in the
    output the ranges of the first sheet that lie within the rows
    [1 .. startRow - 1] and the columns of the window; the cells of such a
    range then show the value and the style of its first cell.  It finds
    no range of several cells when no cell of these rows and columns is
    part of a merged range. *)
Definition headerUnmerged (config : MergeConfig) (sheet : Worksheet) : bool :=
  forallb (fun r =>
             forallb (fun c => negb (merged (getCell (getRow (rows sheet) r) c)))
                     (zrange (startColNum config) (endColNum config)))
          (zrange 1 (startRow config - 1)).

(** The row of the output at a number is as the copy of a row left it: it
    lies past the header rows, or the header holds no merged range. *)
Definition rowAsCopied (config : MergeConfig) (files : list Workbook) (outRow : Z)
  : Prop :=
  startRow config <= outRow
  \/ match firstSourceSheet files with
     | Some sheet => headerUnmerged config sheet = true
     | None => True
     end.

(** ** The clean rebuild

    The [catch] branch at the end of [mergeExcelFiles] builds a new
    workbook from the sheets of the first file and from the output sheet:
    for each row of a sheet that has values it adds a row to the new
    sheet, and copies each cell of the row that is not empty to the same
    column of the new row. *)

(** [row.eachCell((cell, colNum) => ...)]: the cells whose type is not
    [Null], in order, each with its column number. *)
Fixpoint eachCellAt {S : Type} (f : Cell -> Z -> S -> S) (row : Row)
  (colNum : Z) (st : S) : S :=
  match row with
  | [] => st
  | cell :: rest =>
      eachCellAt f rest (colNum + 1) (if isNullType cell then st else f cell colNum st)
  end.

(** The callback of [row.eachCell]: [newCell = newRow.getCell(colNum)],
    then the safe value when it is not [null] and the formatting, in the
    statements of the column loop of [copyRowWithFormatting]. *)
Definition cleanCell (cell : Cell) (colNum : Z) (newRow : Row) : Row :=
  setCell newRow colNum (copyCell cell (getCell newRow colNum)).

(** The new row once the cells of [row] are copied into it. *)
Definition cleanRow (row : Row) : Row := eachCellAt cleanCell row 1 [].

(** The callback of [eachRow]: [newSheet.addRow([])] adds a row after the
    last row of the new sheet. *)
Definition cleanSheet_step (row : Row) (rowNumber : Z) (newSheet : list Row)
  : list Row :=
  newSheet ++ [cleanRow row].

Definition cleanSheet (sheetRows : list Row) : list Row :=
  eachRow cleanSheet_step sheetRows 1 [].

(** The workbook of the rebuild: the sheets of the first file under their
    names, then the sheet ["Consolidated"]. *)
Definition cleanWorkbook (firstWb : Workbook) (consolidated : list Row) : Workbook :=
  map (fun sheet => mkWorksheet (name sheet) (cleanSheet (rows sheet))) firstWb
  ++ [mkWorksheet (js "Consolidated") (cleanSheet consolidated)].

(** [null], a number, a string or a boolean. *)
Definition isPrimitive (v : CellValue) : bool :=
  match v with
  | VNull | VNumber _ | VString _ | VBoolean _ => true
  | _ => false
  end.

Definition primitiveOrNull (v : CellValue) : CellValue :=
  if isPrimitive v then v else VNull.

(** A row whose second cell is a formula that gives a date. *)
Definition datedRow : Row :=
  [ textCell "due";
    plain (VFormula (js "TODAY()") (Some (SDate (mkDate (js "Tue Nov 03 2026"))))) ].

(** ** Column widths *)

(** The columns of a sheet, [_columns], each by its width; a column that
    [getColumn] creates has no width. *)
Definition Columns := list (option number).

(** [sheet.getColumn(c).width], for a column number from 1 on. *)
Definition columnWidth (columns : Columns) (c : Z) : option number :=
  nth (Z.to_nat (c - 1)) columns None.

(** [sheet.getColumn(c).width = w] *)
Definition setColumnWidth (columns : Columns) (c : Z) (w : number) : Columns :=
  setNth None (Z.to_nat (c - 1)) (Some w) columns.

(** The truth value of a number: every number but 0 and [NaN]. *)
Definition truthyNumber (n : number) : bool :=
  negb (jsstring_eqb (numberToString n) (js "0")
        || jsstring_eqb (numberToString n) (js "NaN")).

(** One turn of the loop of [copyColumnWidths].  For a number below 1
    [getColumn] returns no column and the read [sourceCol.width] raises:
    [None]. *)
Definition copyColumnWidths_step (sourceColumns : Columns)
  (targetColumns : option Columns) (colIndex : Z) : option Columns :=
  match targetColumns with
  | None => None
  | Some target =>
      if colIndex <? 1 then None
      else
        match columnWidth sourceColumns colIndex with
        | Some width =>
            if truthyNumber width
            then Some (setColumnWidth target colIndex width)
            else Some target
        | None => Some target
        end
  end.

(** [copyColumnWidths]: the columns of the target sheet after the call. *)
Definition copyColumnWidths (sourceColumns targetColumns : Columns)
  (startCol endCol : Z) : option Columns :=
  fold_left (copyColumnWidths_step sourceColumns) (zrange startCol endCol)
            (Some targetColumns).

(** The width a target column has after the copy from a source column. *)
Definition copiedWidth (source target : option number) : option number :=
  match source with
  | Some width => if truthyNumber width then Some width else target
  | None => target
  end.

(** ** Merged ranges *)

(** The dimensions of a merged range of a sheet. *)
Record Dimensions := mkDimensions {
  dim_top : Z;
  dim_left : Z;
  dim_bottom : Z;
  dim_right : Z
}.

(** The longest prefix of a string whose code units pass [p], and the
    rest of the string. *)
Fixpoint span (p : Z -> bool) (s : jsstring) : jsstring * jsstring :=
  match s with
  | c :: r => if p c then let (a, b) := span p r in (c :: a, b) else ([], s)
  | [] => ([], [])
  end.

(** A match of [/([A-Z]+)(\d+):([A-Z]+)(\d+)/] that starts at the first
    code unit: the four groups.  Each quantifier takes the longest run; a
    shorter run is followed by a code unit of the same class, where the
    rest of the pattern cannot match. *)
Definition matchHere (s : jsstring)
  : option (jsstring * jsstring * jsstring * jsstring) :=
  let (g1, r1) := span isCapital s in
  let (g2, r2) := span isDigit r1 in
  match g1, g2, r2 with
  | _ :: _, _ :: _, 58 :: r3 =>
      let (g3, r4) := span isCapital r3 in
      let (g4, _) := span isDigit r4 in
      match g3, g4 with
      | _ :: _, _ :: _ => Some (g1, g2, g3, g4)
      | _, _ => None
      end
  | _, _, _ => None
  end.

(** [merge.match(...)]: the match at the first position that has one. *)
Fixpoint matchMerge (merge : jsstring)
  : option (jsstring * jsstring * jsstring * jsstring) :=
  match matchHere merge with
  | Some groups => Some groups
  | None =>
      match merge with
      | [] => None
      | _ :: rest => matchMerge rest
      end
  end.

(** [parseInt] on a string of decimal digits (exact below 2^53). *)
Definition parseInt (digits : jsstring) : Z :=
  fold_left (fun n c => n * 10 + (c - 48)) digits 0.





(** *** The merged ranges as the library writes them *)

(** The decimal digits of a number that is not negative. *)
Fixpoint decimal_loop (fuel : nat) (n : Z) (text : jsstring) : jsstring :=
  match fuel with
  | O => text
  | S fuel' =>
      let text' := (48 + n mod 10) :: text in
      if n <? 10 then text' else decimal_loop fuel' (n / 10) text'
  end.

Definition decimal (n : Z) : jsstring := decimal_loop (S (Z.to_nat n)) n [].

(** A range in [model.merges]: ["A1:B2"], the address of the first cell
    and the address of the last cell.  On the columns of a sheet the
    library writes the letters that [columnNumberToLetter] writes. *)
Definition rangeText (d : Dimensions) : jsstring :=
  columnNumberToLetter (dim_left d) ++ decimal (dim_top d) ++ [58]
  ++ columnNumberToLetter (dim_right d) ++ decimal (dim_bottom d).

(** A range of a sheet: its corners are in order and on the sheet. *)
Definition validRange (d : Dimensions) : bool :=
  (1 <=? dim_top d) && (dim_top d <=? dim_bottom d)
  && (1 <=? dim_left d) && (dim_left d <=? dim_right d)
  && (dim_right d <=? 16384).


(** The range read from a text of [model.merges] by the first statements
    of the loop of [copyMergedCells]. *)
Definition readMerge (merge : jsstring) : option Dimensions :=
  match matchMerge merge with
  | Some (startColLetter, startRowDigits, endColLetter, endRowDigits) =>
      Some (mkDimensions (parseInt startRowDigits)
              (columnLetterToNumber startColLetter)
              (parseInt endRowDigits)
              (columnLetterToNumber endColLetter))
  | None => None
  end.



(** A string is empty or starts with a code unit that does not pass [p]. *)
Definition headFails (p : Z -> bool) (s : jsstring) : bool :=
  match s with
  | [] => true
  | c :: _ => negb (p c)
  end.

(** ** The route [POST /api/merge-excel]
    ([src/app/api/merge-excel/route.ts]) *)

(** [s.endsWith(k)] *)
Definition endsWith (s k : jsstring) : bool := startsWith (rev k) (rev s).

(** The name given to the download, [fileName], from the name of the first
    file and the date of the day.  No character outside Basic Latin has a
    lower case that contains one of [. x l s], so the test of the
    extension does not depend on the rest of the case mapping. *)
Definition fileName (firstFileName timestamp : jsstring) : jsstring :=
  let originalName :=
    if isNil firstFileName then timestamp ++ js ".xlsx" else firstFileName in
  if endsWith (toLowerCase originalName) (js ".xlsx")
  then js "merged_" ++ originalName
  else js "merged_" ++ originalName ++ js ".xlsx".

(** A string that can be the value of a header: code units up to 255,
    without NUL, line feed and carriage return.  [new NextResponse] raises
    when the [Content-Disposition] made of the file name is not one. *)
Definition isHeaderValue (s : jsstring) : bool :=
  forallb (fun c => (c <=? 255) && negb ((c =? 0) || (c =? 10) || (c =? 13))) s.

(** An entry of the form data: a file or a string. *)
Inductive FormDataEntryValue (File : Type) :=
| EntryFile (file : File)
| EntryString (text : jsstring).

Arguments EntryFile {File} file.
Arguments EntryString {File} text.

(** The responses of the route: a JSON error with its status, or the
    workbook as an attachment with its file name. *)
Inductive Response (Body : Type) :=
| JsonError (status : Z) (error : jsstring)
| Attachment (body : Body) (name : jsstring).

Arguments JsonError {Body} status error.
Arguments Attachment {Body} body name.

Section Route.

(** The files of the request, the value that [JSON.parse] returns and the
    buffer that [mergeExcelFiles] returns are left open; [None] is an
    exception of [JSON.parse] or a rejection of [mergeExcelFiles]. *)
Variables File Config Body : Type.
Variable file_name : File -> jsstring.
Variable JSON_parse : jsstring -> option Config.
Variable initialConfig : Config.
Variable mergeFiles : list File -> Config -> option Body.

(** [formData.getAll('files')] filtered by [entry instanceof File]. *)
Definition fileEntries (entries : list (FormDataEntryValue File)) : list File :=
  flat_map (fun entry => match entry with
                         | EntryFile file => [file]
                         | EntryString _ => []
                         end) entries.

(** [if (configData) config = JSON.parse(configData as string)]; a file
    given as [config] reads as the string ["[object File]"]. *)
Definition parseConfig (configData : option (FormDataEntryValue File))
  : option Config :=
  match configData with
  | None | Some (EntryString []) => Some initialConfig
  | Some (EntryString text) => JSON_parse text
  | Some (EntryFile _) => JSON_parse (js "[object File]")
  end.

(** [POST]: the response, from the form data of the request ([None] when
    [request.formData()] is rejected) and the date of the day.  Every
    exception, that of the headers of the response included, is caught and
    answered with the status 500. *)
Definition POST
  (formData : option (list (FormDataEntryValue File)
                      * option (FormDataEntryValue File)))
  (timestamp : jsstring) : Response Body :=
  match formData with
  | None => JsonError 500 (js "Failed to merge files")
  | Some (entries, configData) =>
      let files := fileEntries entries in
      match parseConfig configData with
      | None => JsonError 500 (js "Failed to merge files")
      | Some config =>
          match files with
          | [] => JsonError 400 (js "No files provided")
          | firstFile :: _ =>
              match mergeFiles files config with
              | None => JsonError 500 (js "Failed to merge files")
              | Some buffer =>
                  let name := fileName (file_name firstFile) timestamp in
                  if isHeaderValue name
                  then Attachment buffer name
                  else JsonError 500 (js "Failed to merge files")
              end
          end
      end
  end.

End Route.

(** The rows of the output sheet of a whole merge. *)
Definition mergeOutput (files : list Workbook) (config : MergeConfig) : list Row :=
  match mergeExcelFiles files config with
  | Some st => worksheet st
  | None => []
  end.
(** * Properties *)

Lemma jsstring_eqb_eq (a b : jsstring) : jsstring_eqb a b = true <-> a = b.
Proof.
  unfold jsstring_eqb. destruct (list_eq_dec Z.eq_dec a b); split; congruence.
Qed.

(** ** Column codec *)

Section ColumnCodec.

Lemma two53_pow : two53 = 2 ^ 53.
Proof. reflexivity. Qed.

(** Doubles hold the integers up to 2^53 exactly. *)
Lemma toDouble_exact (z : Z) : - two53 <= z <= two53 -> toDouble z = z.
Proof.
  intros Hz. unfold toDouble, roundMagnitude.
  destruct (z <? 0) eqn:Hneg.
  - replace (- z <=? two53) with true by (symmetry; apply Z.leb_le; lia). lia.
  - now replace (z <=? two53) with true by (symmetry; apply Z.leb_le; lia).
Qed.

Lemma roundToEven_cases (q r d : Z) :
  roundToEven q r d = q \/ (roundToEven q r d = q + 1 /\ d <= 2 * r).
Proof.
  unfold roundToEven. destruct (2 * r <? d) eqn:Hlow; [now left|].
  apply Z.ltb_ge in Hlow.
  destruct (d <? 2 * r); [now right|].
  destruct (Z.even q); [now left | now right].
Qed.

Lemma toDouble_nonneg (z : Z) : 0 <= z -> 0 <= toDouble z.
Proof.
  intros Hz. unfold toDouble, roundMagnitude.
  replace (z <? 0) with false by (symmetry; apply Z.ltb_ge; lia).
  destruct (z <=? two53); [assumption|].
  destruct (infinity <=? _); [unfold infinity; apply Z.pow_nonneg; lia|].
  apply Z.mul_nonneg_nonneg; [|apply Z.pow_nonneg; lia].
  assert (Hq : 0 <= z / 2 ^ (Z.log2 z - 52))
    by (apply Z_div_nonneg_nonneg; [assumption | apply Z.pow_nonneg; lia]).
  destruct (roundToEven_cases (z / 2 ^ (Z.log2 z - 52))
              (z mod 2 ^ (Z.log2 z - 52)) (2 ^ (Z.log2 z - 52))) as [-> | [-> _]];
    lia.
Qed.

Lemma lettersValue_snoc (letter : jsstring) (c : Z) :
  lettersValue (letter ++ [c]) = lettersValue letter * 26 + c - 64.
Proof.
  unfold lettersValue. rewrite fold_left_app. reflexivity.
Qed.

Lemma columnLetterToNumber_snoc (letter : jsstring) (c : Z) :
  columnLetterToNumber (letter ++ [c])
  = toDouble (toDouble (toDouble (columnLetterToNumber letter * 26) + c) - 64).
Proof.
  unfold columnLetterToNumber. rewrite fold_left_app. reflexivity.
Qed.

Lemma capital_code (c : Z) : isCapital c = true -> 65 <= c <= 90.
Proof.
  unfold isCapital. rewrite andb_true_iff, !Z.leb_le. tauto.
Qed.

Lemma forallb_snoc {A : Type} (f : A -> bool) (l : list A) (x : A) :
  forallb f (l ++ [x]) = true -> forallb f l = true /\ f x = true.
Proof.
  rewrite forallb_app. cbn [forallb]. rewrite andb_true_r.
  now intros H%andb_true_iff.
Qed.

Lemma lettersValue_nonneg (letter : jsstring) :
  forallb isCapital letter = true -> 0 <= lettersValue letter.
Proof.
  induction letter as [|c letter IH] using rev_ind; intros H.
  - reflexivity.
  - apply forallb_snoc in H. destruct H as [Hl Hc].
    apply capital_code in Hc. specialize (IH Hl).
    rewrite lettersValue_snoc. lia.
Qed.

(** On capital letters the doubles of [columnLetterToNumber] are exact as
    long as the sum [result * 26 + charCode] of the last turn does not
    pass 2^53. *)
Lemma columnLetterToNumber_exact (letter : jsstring) :
  forallb isCapital letter = true ->
  lettersValue letter + 64 <= two53 ->
  columnLetterToNumber letter = lettersValue letter.
Proof.
  induction letter as [|c letter IH] using rev_ind; intros H Hbound.
  - reflexivity.
  - apply forallb_snoc in H. destruct H as [Hl Hc].
    apply capital_code in Hc.
    pose proof (lettersValue_nonneg letter Hl) as Hpos.
    rewrite lettersValue_snoc in Hbound.
    rewrite columnLetterToNumber_snoc, lettersValue_snoc.
    rewrite IH by (try assumption; unfold two53 in *; lia).
    set (v := lettersValue letter) in *.
    rewrite (toDouble_exact (v * 26)) by (unfold two53 in *; lia).
    rewrite (toDouble_exact (v * 26 + c)) by (unfold two53 in *; lia).
    apply toDouble_exact. unfold two53 in *. lia.
Qed.

(** The quotient of a product by a power of two of at least 16, rounded
    to an integer and cut back, is the quotient cut to an integer: a
    fraction of 26 is too far below 1 to be rounded up to it. *)
Lemma roundToEven_scaled (x s : Z) :
  0 <= x -> 16 <= s ->
  roundToEven (x * s / 26) ((x * s) mod 26) 26 / s = x / 26.
Proof.
  intros Hx Hs.
  pose proof (Z.div_mod (x * s) 26 ltac:(lia)) as Hqs.
  pose proof (Z.mod_pos_bound (x * s) 26 ltac:(lia)) as Hrs.
  pose proof (Z.div_mod x 26 ltac:(lia)) as Hq.
  pose proof (Z.mod_pos_bound x 26 ltac:(lia)) as Hr.
  set (q := x * s / 26) in *. set (r := (x * s) mod 26) in *.
  set (t := x / 26) in *. set (rho := x mod 26) in *.
  assert (Hprod : x * s = 26 * (t * s) + rho * s) by (rewrite Hq at 1; ring).
  assert (Hrho : 0 <= rho * s <= 25 * s) by nia.
  symmetry.
  destruct (roundToEven_cases q r 26) as [-> | [-> Hup]].
  - apply (Z.div_unique q s t (q - s * t)); [left; nia | ring].
  - apply (Z.div_unique (q + 1) s t (q + 1 - s * t)); [left; nia | ring].
Qed.

(** Below 2^53 the division by 26 and [Math.floor] give the quotient of
    the integers. *)
Lemma floorQuotient26_exact (x : Z) :
  0 <= x < two53 -> floorQuotient26 x = x / 26.
Proof.
  intros [Hx Hbound]. unfold floorQuotient26.
  destruct (x <? 26) eqn:Hsmall.
  - apply Z.ltb_lt in Hsmall. now rewrite Z.div_small by lia.
  - apply Z.ltb_ge in Hsmall. cbv zeta.
    assert (Hl : 4 <= Z.log2 x <= 52).
    { split.
      - apply Z.log2_le_pow2; [lia|]. change (2 ^ 4) with 16. lia.
      - assert (Z.log2 x < 53); [|lia].
        apply Z.log2_lt_pow2; [lia|]. now rewrite <- two53_pow. }
    set (k := if 26 * 2 ^ (Z.log2 x - 4) <=? x then Z.log2 x - 4 else Z.log2 x - 5).
    assert (Hk : k <= 48) by (unfold k; destruct (_ <=? x); lia).
    replace (k - 52 <? 0) with true by (symmetry; apply Z.ltb_lt; lia).
    apply roundToEven_scaled; [assumption|].
    change 16 with (2 ^ 4). apply Z.pow_le_mono_r; lia.
Qed.

(** The loop prepends to what it was given. *)
Lemma columnNumberToLetter_loop_acc (fuel : nat) :
  forall num letter,
    columnNumberToLetter_loop fuel num letter
    = columnNumberToLetter_loop fuel num [] ++ letter.
Proof.
  induction fuel as [|fuel IH]; intros num letter; cbn [columnNumberToLetter_loop].
  - reflexivity.
  - destruct (0 <? num).
    + cbv zeta. rewrite IH. rewrite (IH _ [_]). rewrite <- app_assoc. reflexivity.
    + reflexivity.
Qed.

Lemma letter_code (r : Z) :
  0 <= r < 26 -> fromCharCode (65 + r) = 65 + r.
Proof.
  intros Hr. unfold fromCharCode. apply Z.mod_small. lia.
Qed.

(** The turns that the definition of [columnNumberToLetter] allows are
    enough for the number. *)
Lemma enough_turns (num : Z) :
  num < 2 ^ Z.of_nat (S (Z.to_nat (Z.log2 num))).
Proof.
  destruct (Z.le_gt_cases num 0) as [Hlow | Hpos].
  - assert (0 < 2 ^ Z.of_nat (S (Z.to_nat (Z.log2 num))))
      by (apply Z.pow_pos_nonneg; lia).
    lia.
  - pose proof (Z.log2_nonneg num) as Hlog.
    replace (Z.of_nat (S (Z.to_nat (Z.log2 num)))) with (Z.succ (Z.log2 num)) by lia.
    now apply Z.log2_spec.
Qed.

Lemma columnNumberToLetter_loop_value (fuel : nat) :
  forall num,
    0 <= num <= two53 -> num < 2 ^ Z.of_nat fuel ->
    lettersValue (columnNumberToLetter_loop fuel num []) = num.
Proof.
  induction fuel as [|fuel IH]; intros num Hnum Hfuel;
    cbn [columnNumberToLetter_loop].
  - change (2 ^ Z.of_nat 0) with 1 in Hfuel. assert (num = 0) by lia.
    subst. reflexivity.
  - destruct (0 <? num) eqn:Hpos.
    + apply Z.ltb_lt in Hpos. cbv zeta.
      rewrite toDouble_exact by (unfold two53 in *; lia).
      rewrite floorQuotient26_exact by lia.
      rewrite columnNumberToLetter_loop_acc, lettersValue_snoc.
      assert (Hq : 0 <= (num - 1) / 26) by (apply Z.div_pos; lia).
      assert (Hlt : (num - 1) / 26 <= num - 1)
        by (apply Z.div_le_upper_bound; lia).
      assert (Hturns : (num - 1) / 26 < 2 ^ Z.of_nat fuel).
      { apply Z.div_lt_upper_bound; [lia|].
        rewrite Nat2Z.inj_succ, Z.pow_succ_r in Hfuel by lia. lia. }
      rewrite IH by lia.
      rewrite Z.rem_mod_nonneg by lia.
      pose proof (Z.mod_pos_bound (num - 1) 26 ltac:(lia)) as Hr.
      rewrite letter_code by lia.
      pose proof (Z.div_mod (num - 1) 26 ltac:(lia)). lia.
    + apply Z.ltb_ge in Hpos. assert (num = 0) by lia. subst. reflexivity.
Qed.

Lemma columnNumberToLetter_loop_capital (fuel : nat) :
  forall num letter,
    forallb isCapital letter = true ->
    forallb isCapital (columnNumberToLetter_loop fuel num letter) = true.
Proof.
  induction fuel as [|fuel IH]; intros num letter H; cbn [columnNumberToLetter_loop].
  - exact H.
  - destruct (0 <? num) eqn:Hpos; [|exact H].
    apply Z.ltb_lt in Hpos. cbv zeta. apply IH. cbn [forallb]. rewrite H, andb_true_r.
    pose proof (toDouble_nonneg (num - 1) ltac:(lia)) as Hnum1.
    rewrite Z.rem_mod_nonneg by lia.
    pose proof (Z.mod_pos_bound (toDouble (num - 1)) 26 ltac:(lia)) as Hr.
    rewrite letter_code by lia.
    unfold isCapital. apply andb_true_iff. rewrite !Z.leb_le. lia.
Qed.

Lemma column_codec_round_trip_core (n : Z) :
  1 <= n <= two53 - 64 -> columnLetterToNumber (columnNumberToLetter n) = n.
Proof.
  intros Hn. unfold columnNumberToLetter.
  pose proof (columnNumberToLetter_loop_value (S (Z.to_nat (Z.log2 n))) n
                ltac:(unfold two53 in *; lia) (enough_turns n)) as Hvalue.
  rewrite columnLetterToNumber_exact; [exact Hvalue | | rewrite Hvalue; lia].
  now apply columnNumberToLetter_loop_capital.
Qed.

End ColumnCodec.

(** At [n = 2^53 - 63], a number that a double holds exactly, the sum
    [result * 26 + charCode] of the last turn of [columnLetterToNumber]
    is 2^53 + 1, which is no double: it is rounded to 2^53, and the
    letters of [n] are read back as [n - 1]. *)
Lemma column_codec_round_trip_fails_past_the_bound :
  toDouble 9007199254740929 = 9007199254740929
  /\ columnNumberToLetter 9007199254740929 = js "BKTXHSOGHKHU"
  /\ columnLetterToNumber (columnNumberToLetter 9007199254740929)
     = 9007199254740928
  /\ columnLetterToNumber (columnNumberToLetter 9007199254740929)
     <> 9007199254740929.
Proof.
  split; [vm_compute; reflexivity|].
  split; [vm_compute; reflexivity|].
  split; [vm_compute; reflexivity|].
  vm_compute. discriminate.
Qed.

(** C7, as the code has it.  Writing a column number [n] from 1 to
    2^53 - 64 in letters and reading the letters back gives [n]: this
    covers every [n] of [[1, 702]] and every column of a sheet.  ["A"],
    ["Z"], ["AA"] read as 1, 26, 27. *)
Theorem column_codec_round_trip (n : Z) :
  1 <= n <= 9007199254740928 ->
  columnLetterToNumber (columnNumberToLetter n) = n
  /\ columnLetterToNumber (js "A") = 1
  /\ columnLetterToNumber (js "Z") = 26
  /\ columnLetterToNumber (js "AA") = 27.
Proof.
  intros Hn. split.
  - apply column_codec_round_trip_core. unfold two53. lia.
  - repeat split; vm_compute; reflexivity.
Qed.

Lemma column_codec_round_trip_witness :
  columnLetterToNumber (columnNumberToLetter 702) = 702
  /\ columnLetterToNumber (js "A") = 1
  /\ columnLetterToNumber (js "Z") = 26
  /\ columnLetterToNumber (js "AA") = 27.
Proof.
  apply (column_codec_round_trip 702). lia.
Defined.

Example columnNumberToLetter_702 : columnNumberToLetter 702 = js "ZZ".
Proof. vm_compute. reflexivity. Qed.

Example columnNumberToLetter_28 : columnNumberToLetter 28 = js "AB".
Proof. vm_compute. reflexivity. Qed.

(** ** Scans that keep the first matching row *)

Section FirstMatch.

(** [step] is the callback given to [eachRow] and [has] the test it makes
    on a row: it records the number of a row that passes the test, once. *)
Variable step : Row -> Z -> option Z -> option Z.
Variable has : Row -> bool.

Hypothesis step_none :
  forall row k, 1 <= k ->
    (if hasValues row then step row k None else None)
    = if has row then Some k else None.

Hypothesis step_found :
  forall row k t, t <> 0 -> step row k (Some t) = Some t.

Lemma eachRow_found (rs : list Row) :
  forall k t, t <> 0 -> eachRow step rs k (Some t) = Some t.
Proof.
  induction rs as [|row rs IH]; intros k t Ht; simpl.
  - reflexivity.
  - rewrite step_found by assumption.
    destruct (hasValues row); now apply IH.
Qed.

(** The scan from row number [k], as the first index of a matching row. *)
Lemma eachRow_first (rs : list Row) :
  forall k, 1 <= k ->
    match eachRow step rs k None with
    | Some r =>
        exists i, r = k + Z.of_nat i
                  /\ has (nth i rs []) = true
                  /\ forall j, (j < i)%nat -> has (nth j rs []) = false
    | None => forall i, (i < length rs)%nat -> has (nth i rs []) = false
    end.
Proof.
  induction rs as [|row rs IH]; intros k Hk; simpl.
  - intros i Hi. lia.
  - rewrite step_none by assumption.
    destruct (has row) eqn:Hrow.
    + rewrite eachRow_found by lia.
      exists 0%nat. repeat split; [lia | assumption | intros j Hj; lia].
    + specialize (IH (k + 1) ltac:(lia)).
      destruct (eachRow step rs (k + 1) None) as [r|].
      * destruct IH as [i [Hr [Hi Hbefore]]].
        exists (S i). repeat split; [lia | assumption |].
        intros [|j] Hj; [assumption | apply Hbefore; lia].
      * intros [|i] Hi; [assumption | apply IH; lia].
Qed.

Hypothesis has_nil : has [] = false.

Lemma getRow_nth (rs : list Row) (i : nat) :
  getRow rs (1 + Z.of_nat i) = nth i rs [].
Proof.
  unfold getRow. destruct (1 + Z.of_nat i <? 1) eqn:H.
  - apply Z.ltb_lt in H. lia.
  - f_equal. lia.
Qed.

Lemma getRow_low (rs : list Row) (n : Z) : n < 1 -> getRow rs n = [].
Proof.
  intros H. unfold getRow. apply Z.ltb_lt in H. now rewrite H.
Qed.

Lemma getRow_high (rs : list Row) (n : Z) :
  Z.of_nat (length rs) < n -> getRow rs n = [].
Proof.
  intros H. unfold getRow. destruct (n <? 1); [reflexivity|].
  apply nth_overflow. lia.
Qed.

Lemma first_match_some (rs : list Row) (r : Z) :
  eachRow step rs 1 None = Some r ->
  1 <= r <= Z.of_nat (length rs)
  /\ has (getRow rs r) = true
  /\ forall r', r' < r -> has (getRow rs r') = false.
Proof.
  intros H.
  pose proof (eachRow_first rs 1 ltac:(lia)) as Hf.
  rewrite H in Hf. destruct Hf as [i [Hr [Hi Hbefore]]]. subst r.
  assert (Hlen : (i < length rs)%nat).
  { destruct (Nat.lt_ge_cases i (length rs)) as [Hlt|Hge]; [assumption|].
    rewrite (nth_overflow _ _ Hge), has_nil in Hi. discriminate. }
  repeat split.
  - lia.
  - lia.
  - now rewrite getRow_nth.
  - intros r' Hr'. destruct (Z.lt_ge_cases r' 1) as [Hlow|Hhigh].
    + now rewrite getRow_low.
    + replace r' with (1 + Z.of_nat (Z.to_nat (r' - 1))) by lia.
      rewrite getRow_nth. apply Hbefore. lia.
Qed.

Lemma first_match_none (rs : list Row) :
  eachRow step rs 1 None = None ->
  forall r, has (getRow rs r) = false.
Proof.
  intros H r.
  pose proof (eachRow_first rs 1 ltac:(lia)) as Hf.
  rewrite H in Hf. destruct (Z.lt_ge_cases r 1) as [Hlow|Hhigh].
  - now rewrite getRow_low.
  - destruct (Z.lt_ge_cases (Z.of_nat (length rs)) r) as [Hover|Hin].
    + now rewrite getRow_high.
    + replace r with (1 + Z.of_nat (Z.to_nat (r - 1))) by lia.
      rewrite getRow_nth. apply Hf. lia.
Qed.

(** The scan finds the smallest matching row number, or no row matches. *)
Lemma first_match_iff (rs : list Row) (r : Z) :
  eachRow step rs 1 None = Some r
  <-> (has (getRow rs r) = true
       /\ forall r', r' < r -> has (getRow rs r') = false).
Proof.
  split.
  - intros H. apply first_match_some in H. tauto.
  - intros [Hr Hbefore].
    destruct (eachRow step rs 1 None) as [t|] eqn:Ht.
    + apply first_match_some in Ht. destruct Ht as [_ [Ht Htbefore]].
      destruct (Z.lt_trichotomy t r) as [Hlt | [Heq | Hgt]].
      * rewrite (Hbefore t Hlt) in Ht. discriminate.
      * now subst.
      * rewrite (Htbefore r Hgt) in Hr. discriminate.
    + rewrite (first_match_none rs Ht r) in Hr. discriminate.
Qed.

Lemma first_match_none_iff (rs : list Row) :
  eachRow step rs 1 None = None
  <-> forall r, has (getRow rs r) = false.
Proof.
  split.
  - apply first_match_none.
  - intros Hnone. destruct (eachRow step rs 1 None) as [t|] eqn:Ht; [|reflexivity].
    apply first_match_some in Ht. destruct Ht as [_ [Ht _]].
    rewrite (Hnone t) in Ht. discriminate.
Qed.

End FirstMatch.

(** ** Total-row detection *)

Section TotalRow.

Lemma isTotalCell_not_null (c : Cell) :
  isTotalCell c = true -> isNullType c = false.
Proof.
  unfold isTotalCell, cellText, isNullType, cellType.
  destruct c as [m v f fi a b nf]; simpl.
  destruct v; try discriminate; destruct m; reflexivity.
Qed.

Lemma eachCell_total (row : Row) (found : bool) :
  eachCell (fun cell foundTotal => if isTotalCell cell then true else foundTotal)
           row found
  = found || rowHasTotal row.
Proof.
  unfold eachCell, rowHasTotal. revert found.
  induction row as [|c row IH]; intros found; simpl.
  - now rewrite orb_false_r.
  - rewrite IH. destruct (isTotalCell c) eqn:Hc.
    + rewrite (isTotalCell_not_null c Hc). now rewrite orb_true_r.
    + destruct (isNullType c); reflexivity.
Qed.

Lemma rowHasTotal_hasValues (row : Row) :
  rowHasTotal row = true -> hasValues row = true.
Proof.
  unfold rowHasTotal, hasValues. rewrite !existsb_exists.
  intros [c [Hin Hc]]. exists c. split; [assumption|].
  now rewrite (isTotalCell_not_null c Hc).
Qed.

Lemma findTotalRow_step_none (row : Row) (k : Z) :
  1 <= k ->
  (if hasValues row then findTotalRow_step row k None else None)
  = if rowHasTotal row then Some k else None.
Proof.
  intros _. unfold findTotalRow_step. simpl. rewrite eachCell_total. simpl.
  destruct (rowHasTotal row) eqn:Ht.
  - now rewrite (rowHasTotal_hasValues row Ht).
  - now destruct (hasValues row).
Qed.

Lemma findTotalRow_step_found (row : Row) (k t : Z) :
  t <> 0 -> findTotalRow_step row k (Some t) = Some t.
Proof.
  intros Ht. unfold findTotalRow_step. simpl.
  apply Z.eqb_neq in Ht. now rewrite Ht.
Qed.

Lemma findTotalRow_some (ws : Worksheet) (r : Z) :
  findTotalRow ws = Some r ->
  1 <= r <= lastRowNumber ws
  /\ rowHasTotal (getRow (rows ws) r) = true
  /\ forall r', r' < r -> rowHasTotal (getRow (rows ws) r') = false.
Proof.
  apply (first_match_some _ _ findTotalRow_step_none findTotalRow_step_found).
  reflexivity.
Qed.

End TotalRow.

(** C5. [findTotalRow] returns the smallest row number whose row contains a
    cell with text ["TOTAL"] (trimmed, compared without case), and nothing
    when there is no such row.  ["Total"] matches in any case and in any
    column; ["Total Amount"] does not. *)
Theorem findTotalRow_smallest_match (ws : Worksheet) :
  (forall r,
      findTotalRow ws = Some r
      <-> (rowHasTotal (getRow (rows ws) r) = true
           /\ forall r', r' < r -> rowHasTotal (getRow (rows ws) r') = false))
  /\ (findTotalRow ws = None
      <-> forall r, rowHasTotal (getRow (rows ws) r) = false)
  /\ (forall s, toUpperCase (trim s) = js "TOTAL" ->
                isTotalCell (plain (VString s)) = true)
  /\ findTotalRow
       (mkWorksheet (js "Sheet1")
          [ [plain (VString (js "Item")); plain (VString (js "Qty"))];
            [emptyCell; emptyCell; plain (VString (js " tOtAl "))] ]) = Some 2
  /\ findTotalRow
       (mkWorksheet (js "Sheet1")
          [ [plain (VString (js "Item")); plain (VString (js "Qty"))];
            [plain (VString (js "Total Amount")); emptyCell] ]) = None.
Proof.
  split; [|split; [|split; [|split]]].
  - intros r.
    apply (first_match_iff _ _ findTotalRow_step_none findTotalRow_step_found).
    reflexivity.
  - apply (first_match_none_iff _ _ findTotalRow_step_none findTotalRow_step_found).
    reflexivity.
  - intros s Hs. unfold isTotalCell, cellText. simpl.
    destruct s as [|c s].
    + discriminate.
    + cbn [valueToString]. rewrite Hs. reflexivity.
  - reflexivity.
  - reflexivity.
Qed.

(** ** The subtotal heuristic *)

Section Subtotal.

Lemma isSubtotalRow_step_class (row : Row) (n : Counts) (col : Z) :
  isSubtotalRow_step row n col
  = match cellClass (getCell row col) with
    | EmptyClass =>
        mkCounts (emptyCellCount n + 1) (numericCellCount n) (textCellCount n)
    | NumericClass =>
        mkCounts (emptyCellCount n) (numericCellCount n + 1) (textCellCount n)
    | TextClass =>
        mkCounts (emptyCellCount n) (numericCellCount n) (textCellCount n + 1)
    end.
Proof.
  unfold isSubtotalRow_step, cellClass.
  destruct (value (getCell row col)) as [ | | s | | | | | | | ];
    try reflexivity;
    try (destruct s; [reflexivity|]);
    cbv zeta;
    (destruct (isNil _); [reflexivity|]);
    destruct (parsesAsNumber _); reflexivity.
Qed.

Lemma countClass_cons (k : CellClass) (c : Cell) (cells : list Cell) :
  countClass k (c :: cells)
  = (if CellClass_eqb (cellClass c) k then 1 else 0) + countClass k cells.
Proof.
  unfold countClass. simpl.
  destruct (CellClass_eqb (cellClass c) k); simpl length; lia.
Qed.

(** The three counters of the loop are the sizes of the three classes. *)
Lemma subtotal_fold_counts (row : Row) (cols : list Z) :
  forall n,
    fold_left (isSubtotalRow_step row) cols n
    = mkCounts
        (emptyCellCount n + countClass EmptyClass (map (getCell row) cols))
        (numericCellCount n + countClass NumericClass (map (getCell row) cols))
        (textCellCount n + countClass TextClass (map (getCell row) cols)).
Proof.
  induction cols as [|col cols IH]; intros [e m t]; simpl.
  - unfold countClass. simpl. f_equal; lia.
  - rewrite IH, isSubtotalRow_step_class, !countClass_cons.
    destruct (cellClass (getCell row col));
      cbn [CellClass_eqb emptyCellCount numericCellCount textCellCount];
      f_equal; lia.
Qed.

Lemma subtotalCounts_classes (row : Row) (startCol endCol : Z) :
  subtotalCounts row startCol endCol
  = mkCounts (countClass EmptyClass (windowCells row startCol endCol))
             (countClass NumericClass (windowCells row startCol endCol))
             (countClass TextClass (windowCells row startCol endCol)).
Proof.
  unfold subtotalCounts. rewrite subtotal_fold_counts. reflexivity.
Qed.

Lemma zrange_empty (a b : Z) : b < a -> zrange a b = [].
Proof.
  intros H. unfold zrange. replace (Z.to_nat (b - a + 1)) with 0%nat by lia.
  reflexivity.
Qed.

Lemma countClass_nonneg (k : CellClass) (cells : list Cell) :
  0 <= countClass k cells.
Proof. unfold countClass. lia. Qed.

(** On a window that has cells, the comparison of the code is the
    comparison of the quotient with 7/10. *)
Lemma ratioAtLeast07_rational (emptyCount totalCells : Z) :
  0 < totalCells ->
  ratioAtLeast07 emptyCount totalCells = true
  <-> (7 # 10 <= inject_Z emptyCount / inject_Z totalCells)%Q.
Proof.
  intros Ht. unfold ratioAtLeast07.
  apply Z.ltb_lt in Ht as Hb. rewrite Hb. rewrite Z.leb_le.
  destruct totalCells as [|p|p]; try lia.
  unfold Qle, Qdiv, Qmult, Qinv, inject_Z. simpl Qnum. simpl Qden.
  lia.
Qed.

End Subtotal.

(** C6. [isSubtotalRow] answers [true] exactly when at least 70% of the
    cells of the window are empty, one to three are numeric and none is
    textual.  A row with 8 empty cells and 2 numeric ones out of 10 is a
    subtotal row; a row with 7 empty cells, 1 numeric and 2 textual is
    not. *)
Theorem isSubtotalRow_iff_rule (row : Row) (startCol endCol : Z) :
  (isSubtotalRow row startCol endCol = true <-> subtotalRule row startCol endCol)
  /\ isSubtotalRow
       [ emptyCell; emptyCell; emptyCell; emptyCell; emptyCell; emptyCell;
         emptyCell; emptyCell; plain (VNumber (mkNumber (js "3")));
         plain (VString (js "424,595")) ] 1 10 = true
  /\ isSubtotalRow
       [ plain (VString (js "Group A")); emptyCell; emptyCell; emptyCell;
         emptyCell; emptyCell; emptyCell; emptyCell;
         plain (VNumber (mkNumber (js "3"))); plain (VString (js "pcs")) ] 1 10
     = false.
Proof.
  split; [|split; reflexivity].
  unfold isSubtotalRow, subtotalRule. cbv zeta.
  rewrite subtotalCounts_classes. cbn [emptyCellCount numericCellCount textCellCount].
  set (cells := windowCells row startCol endCol).
  rewrite !andb_true_iff, !Z.leb_le, Z.eqb_eq.
  destruct (Z.lt_ge_cases 0 (endCol - startCol + 1)) as [Hpos|Hneg].
  - rewrite (ratioAtLeast07_rational _ _ Hpos). tauto.
  - assert (Hnil : cells = []).
    { unfold cells, windowCells. rewrite zrange_empty by lia. reflexivity. }
    rewrite Hnil. unfold countClass at 2 3 5 6. simpl.
    split; intros H; lia.
Qed.

(** ** Signature-row detection *)

Section SignatureRow.

Lemma scanKeywords_none (keywords : list jsstring) (t : jsstring) (k : Z) :
  scanKeywords keywords t k None
  = if existsb (includes t) keywords then Some k else None.
Proof.
  induction keywords as [|kw keywords IH]; simpl.
  - reflexivity.
  - destruct (includes t kw); simpl; [reflexivity | apply IH].
Qed.

Lemma scanKeywords_found (keywords : list jsstring) (t : jsstring) (k t0 : Z) :
  t0 <> 0 -> scanKeywords keywords t k (Some t0) = Some t0.
Proof.
  intros Ht0. apply Z.eqb_neq in Ht0.
  induction keywords as [|kw keywords IH]; simpl.
  - reflexivity.
  - rewrite Ht0. simpl. rewrite andb_false_r. exact IH.
Qed.

Lemma findSignatureRow_cell_none (k : Z) (c : Cell) :
  findSignatureRow_cell k c None = if isSignatureCell c then Some k else None.
Proof.
  unfold findSignatureRow_cell, isSignatureCell.
  destruct (cellText c) as [t|]; cbn [option_map]; [|reflexivity].
  cbv zeta. destruct (toLowerCase t) as [|u l]; [reflexivity|].
  cbn [isNil negb andb]. apply scanKeywords_none.
Qed.

Lemma findSignatureRow_cell_found (k t0 : Z) (c : Cell) :
  t0 <> 0 -> findSignatureRow_cell k c (Some t0) = Some t0.
Proof.
  intros Ht0. unfold findSignatureRow_cell.
  destruct (option_map toLowerCase (cellText c)) as [[|u l]|];
    try reflexivity.
  now apply scanKeywords_found.
Qed.

Lemma isSignatureCell_not_null (c : Cell) :
  isSignatureCell c = true -> isNullType c = false.
Proof.
  unfold isSignatureCell, cellText, isNullType, cellType.
  destruct c as [m v f fi a b nf]; simpl.
  destruct v; try discriminate; destruct m; reflexivity.
Qed.

Lemma eachCell_signature_found (k t0 : Z) (row : Row) :
  t0 <> 0 -> eachCell (findSignatureRow_cell k) row (Some t0) = Some t0.
Proof.
  intros Ht0. unfold eachCell.
  induction row as [|c row IH]; simpl; [reflexivity|].
  rewrite findSignatureRow_cell_found by assumption.
  destruct (isNullType c); exact IH.
Qed.

Lemma eachCell_signature_none (k : Z) (row : Row) :
  k <> 0 ->
  eachCell (findSignatureRow_cell k) row None
  = if rowHasSignature row then Some k else None.
Proof.
  intros Hk. unfold rowHasSignature.
  induction row as [|c row IH]; [reflexivity|].
  unfold eachCell in *. simpl.
  rewrite findSignatureRow_cell_none.
  destruct (isSignatureCell c) eqn:Hc; simpl.
  - rewrite (isSignatureCell_not_null c Hc).
    now apply (eachCell_signature_found k k row).
  - destruct (isNullType c); exact IH.
Qed.

Lemma rowHasSignature_hasValues (row : Row) :
  rowHasSignature row = true -> hasValues row = true.
Proof.
  unfold rowHasSignature, hasValues. rewrite !existsb_exists.
  intros [c [Hin Hc]]. exists c. split; [assumption|].
  now rewrite (isSignatureCell_not_null c Hc).
Qed.

Lemma findSignatureRow_step_none (row : Row) (k : Z) :
  1 <= k ->
  (if hasValues row then findSignatureRow_step row k None else None)
  = if rowHasSignature row then Some k else None.
Proof.
  intros Hk. unfold findSignatureRow_step. simpl.
  rewrite eachCell_signature_none by lia.
  destruct (rowHasSignature row) eqn:Hs.
  - now rewrite (rowHasSignature_hasValues row Hs).
  - now destruct (hasValues row).
Qed.

Lemma findSignatureRow_step_found (row : Row) (k t : Z) :
  t <> 0 -> findSignatureRow_step row k (Some t) = Some t.
Proof.
  intros Ht. unfold findSignatureRow_step. simpl.
  apply Z.eqb_neq in Ht. now rewrite Ht.
Qed.

Lemma findSignatureRow_some (ws : Worksheet) (r : Z) :
  findSignatureRow ws = Some r ->
  1 <= r <= lastRowNumber ws
  /\ rowHasSignature (getRow (rows ws) r) = true
  /\ forall r', r' < r -> rowHasSignature (getRow (rows ws) r') = false.
Proof.
  apply (first_match_some _ _ findSignatureRow_step_none findSignatureRow_step_found).
  reflexivity.
Qed.

Lemma findSignatureRow_iff (ws : Worksheet) (r : Z) :
  findSignatureRow ws = Some r
  <-> (rowHasSignature (getRow (rows ws) r) = true
       /\ forall r', r' < r -> rowHasSignature (getRow (rows ws) r') = false).
Proof.
  apply (first_match_iff _ _ findSignatureRow_step_none findSignatureRow_step_found).
  reflexivity.
Qed.

Lemma findTotalRow_iff (ws : Worksheet) (r : Z) :
  findTotalRow ws = Some r
  <-> (rowHasTotal (getRow (rows ws) r) = true
       /\ forall r', r' < r -> rowHasTotal (getRow (rows ws) r') = false).
Proof.
  apply (first_match_iff _ _ findTotalRow_step_none findTotalRow_step_found).
  reflexivity.
Qed.

End SignatureRow.

(** ** The column window and the three row tests *)

Section Window.

Lemma getCell_total_row (row : Row) (c : Z) :
  isTotalCell (getCell row c) = true -> rowHasTotal row = true.
Proof.
  unfold getCell, rowHasTotal. intros H.
  destruct (c <? 1); [discriminate|].
  apply existsb_exists. exists (nth (Z.to_nat (c - 1)) row emptyCell).
  split; [|assumption].
  destruct (Nat.lt_ge_cases (Z.to_nat (c - 1)) (length row)) as [Hlt|Hge].
  - now apply nth_In.
  - rewrite (nth_overflow _ _ Hge) in H. discriminate.
Qed.

Lemma getCell_signature_row (row : Row) (c : Z) :
  isSignatureCell (getCell row c) = true -> rowHasSignature row = true.
Proof.
  unfold getCell, rowHasSignature. intros H.
  destruct (c <? 1); [discriminate|].
  apply existsb_exists. exists (nth (Z.to_nat (c - 1)) row emptyCell).
  split; [|assumption].
  destruct (Nat.lt_ge_cases (Z.to_nat (c - 1)) (length row)) as [Hlt|Hge].
  - now apply nth_In.
  - rewrite (nth_overflow _ _ Hge) in H. discriminate.
Qed.

(** A matching row is found, or a row of smaller number is. *)
Lemma first_match_at_most (find : option Z) (has : Z -> bool) (r : Z) :
  (forall t, find = Some t <-> (has t = true /\ forall r', r' < t -> has r' = false)) ->
  (find = None -> forall r', has r' = false) ->
  has r = true ->
  exists t, find = Some t /\ t <= r.
Proof.
  intros Hsome Hnone Hr. destruct find as [t|].
  - exists t. split; [reflexivity|].
    destruct (proj1 (Hsome t) eq_refl) as [_ Hbefore].
    destruct (Z.le_gt_cases t r) as [Hle|Hgt]; [assumption|].
    rewrite (Hbefore r Hgt) in Hr. discriminate.
  - rewrite (Hnone eq_refl r) in Hr. discriminate.
Qed.

Lemma findTotalRow_none_rows (ws : Worksheet) :
  findTotalRow ws = None -> forall r, rowHasTotal (getRow (rows ws) r) = false.
Proof.
  apply (first_match_none _ _ findTotalRow_step_none findTotalRow_step_found).
  reflexivity.
Qed.

Lemma findSignatureRow_none_rows (ws : Worksheet) :
  findSignatureRow ws = None ->
  forall r, rowHasSignature (getRow (rows ws) r) = false.
Proof.
  apply (first_match_none _ _ findSignatureRow_step_none findSignatureRow_step_found).
  reflexivity.
Qed.

End Window.

(** The two probe sheets agree on every cell of the window A-B, and the
    total row and the signature row are found in one and not in the other:
    [findTotalRow] and [findSignatureRow] read cells outside the window. *)
Lemma detection_reads_outside_window :
  (forall r, windowCells (getRow (rows sheetInsideWindow) r) 1 2
             = windowCells (getRow (rows sheetOutsideWindow) r) 1 2)
  /\ findTotalRow sheetInsideWindow = None
  /\ findTotalRow sheetOutsideWindow = Some 2
  /\ findSignatureRow sheetInsideWindow = None
  /\ findSignatureRow sheetOutsideWindow = Some 3.
Proof.
  split; [|repeat split; reflexivity].
  intros r. unfold getRow. destruct (r <? 1); [reflexivity|].
  destruct (Z.to_nat (r - 1)) as [|[|[|n]]]; reflexivity.
Qed.

(** C3, as the code has it.  The subtotal test reads the cells of the window
    and no other: two rows with the same cells in the window get the same
    answer.  [findTotalRow] and [findSignatureRow] take no window: a
    matching cell in any column of a row makes them return that row or a
    row of smaller number. *)
Theorem subtotal_test_confined_to_window (row1 row2 : Row) (startCol endCol : Z) :
  windowCells row1 startCol endCol = windowCells row2 startCol endCol ->
  isSubtotalRow row1 startCol endCol = isSubtotalRow row2 startCol endCol
  /\ (forall ws r c,
         isTotalCell (getCell (getRow (rows ws) r) c) = true ->
         exists t, findTotalRow ws = Some t /\ t <= r)
  /\ (forall ws r c,
         isSignatureCell (getCell (getRow (rows ws) r) c) = true ->
         exists t, findSignatureRow ws = Some t /\ t <= r).
Proof.
  intros Hwin. split; [|split].
  - unfold isSubtotalRow. cbv zeta.
    rewrite !subtotalCounts_classes, Hwin. reflexivity.
  - intros ws r c Hc.
    apply (first_match_at_most _ (fun n => rowHasTotal (getRow (rows ws) n))).
    + apply findTotalRow_iff.
    + apply findTotalRow_none_rows.
    + now apply (getCell_total_row _ c).
  - intros ws r c Hc.
    apply (first_match_at_most _ (fun n => rowHasSignature (getRow (rows ws) n))).
    + apply findSignatureRow_iff.
    + apply findSignatureRow_none_rows.
    + now apply (getCell_signature_row _ c).
Qed.

Lemma subtotal_test_confined_to_window_witness :
  isSubtotalRow (getRow (rows sheetInsideWindow) 2) 1 2
  = isSubtotalRow (getRow (rows sheetOutsideWindow) 2) 1 2.
Proof.
  apply (subtotal_test_confined_to_window
           (getRow (rows sheetInsideWindow) 2)
           (getRow (rows sheetOutsideWindow) 2) 1 2).
  reflexivity.
Defined.

(** ** Row copy *)

Section RowCopy.

Lemma nth_setNth_same {A : Type} (d x : A) (n : nat) :
  forall l, nth n (setNth d n x l) d = x.
Proof.
  induction n as [|n IH]; intros [|a l]; simpl; auto.
Qed.

Lemma nth_setNth_other {A : Type} (d x : A) (n m : nat) :
  n <> m -> forall l, nth m (setNth d n x l) d = nth m l d.
Proof.
  revert m. induction n as [|n IH]; intros [|m] Hnm [|a l]; simpl;
    try reflexivity; try congruence.
  - now destruct m.
  - rewrite IH by congruence. now destruct m.
  - apply IH. congruence.
Qed.

Lemma getCell_setCell_same (row : Row) (c : Z) (x : Cell) :
  1 <= c -> getCell (setCell row c x) c = x.
Proof.
  intros Hc. unfold getCell, setCell.
  assert (H : (c <? 1) = false) by (apply Z.ltb_ge; lia).
  rewrite H. apply nth_setNth_same.
Qed.

Lemma getCell_setCell_other (row : Row) (c c' : Z) (x : Cell) :
  c <> c' -> getCell (setCell row c x) c' = getCell row c'.
Proof.
  intros Hc. unfold getCell, setCell.
  destruct (c <? 1) eqn:H1; [reflexivity|].
  destruct (c' <? 1) eqn:H2; [reflexivity|].
  apply Z.ltb_ge in H1, H2. apply nth_setNth_other. lia.
Qed.

Lemma in_zrange (a b c : Z) : In c (zrange a b) <-> a <= c <= b.
Proof.
  unfold zrange. rewrite in_map_iff. split.
  - intros [k [Hk Hin]]. apply in_seq in Hin. lia.
  - intros Hc. exists (Z.to_nat (c - a)). split; [lia|].
    apply in_seq. lia.
Qed.

Lemma NoDup_zrange (a b : Z) : NoDup (zrange a b).
Proof.
  unfold zrange. apply NoDup_map_inv with (f := fun z => Z.to_nat (z - a)).
  rewrite map_map. erewrite map_ext; [rewrite map_id; apply seq_NoDup|].
  intros k. simpl. lia.
Qed.

(** A column that the loop does not visit keeps its cell. *)
Lemma copyRow_fold_other (sourceRow : Row) (cols : list Z) (c : Z) :
  ~ In c cols ->
  forall targetRow,
    getCell (fold_left (copyRow_step sourceRow) cols targetRow) c
    = getCell targetRow c.
Proof.
  induction cols as [|c0 cols IH]; intros Hc targetRow; simpl.
  - reflexivity.
  - rewrite IH by (intros H; apply Hc; now right).
    unfold copyRow_step. apply getCell_setCell_other.
    intros ->. apply Hc. now left.
Qed.

(** A column that the loop visits once gets the copy of the source cell
    of the same column. *)
Lemma copyRow_fold_same (sourceRow : Row) (cols : list Z) (c : Z) :
  NoDup cols -> In c cols -> 1 <= c ->
  forall targetRow,
    getCell (fold_left (copyRow_step sourceRow) cols targetRow) c
    = copyCell (getCell sourceRow c) (getCell targetRow c).
Proof.
  induction cols as [|c0 cols IH]; intros Hnd Hin Hc targetRow; simpl.
  - contradiction.
  - inversion Hnd as [|? ? Hnotin Hnd']; subst.
    destruct Hin as [-> | Hin].
    + rewrite copyRow_fold_other by assumption.
      unfold copyRow_step. now apply getCell_setCell_same.
    + rewrite IH by assumption.
      unfold copyRow_step. rewrite getCell_setCell_other; [reflexivity|].
      intros ->. contradiction.
Qed.

Lemma copyRow_outside (sourceRow targetRow : Row) (startCol endCol c : Z) :
  c < startCol \/ endCol < c ->
  getCell (copyRowWithFormatting sourceRow targetRow startCol endCol) c
  = getCell targetRow c.
Proof.
  intros Hc. unfold copyRowWithFormatting. apply copyRow_fold_other.
  rewrite in_zrange. lia.
Qed.

Lemma copyRow_inside (sourceRow targetRow : Row) (startCol endCol c : Z) :
  startCol <= c <= endCol -> 1 <= c ->
  getCell (copyRowWithFormatting sourceRow targetRow startCol endCol) c
  = copyCell (getCell sourceRow c) (getCell targetRow c).
Proof.
  intros Hc H1. unfold copyRowWithFormatting. apply copyRow_fold_same.
  - apply NoDup_zrange.
  - now apply in_zrange.
  - assumption.
Qed.

(** The value of the target cell after the copy of one cell. *)
Lemma copyCell_value (sourceCell targetCell : Cell) :
  value (copyCell sourceCell targetCell)
  = match extractSafeCellValue sourceCell with
    | VNull => value targetCell
    | v => v
    end.
Proof.
  unfold copyCell. destruct (extractSafeCellValue sourceCell); reflexivity.
Qed.

Lemma getRow_setRow_same (rs : list Row) (n : Z) (row : Row) :
  1 <= n -> getRow (setRow rs n row) n = row.
Proof.
  intros Hn. unfold getRow, setRow.
  assert (H : (n <? 1) = false) by (apply Z.ltb_ge; lia).
  rewrite H. apply nth_setNth_same.
Qed.

Lemma getRow_setRow_other (rs : list Row) (n m : Z) (row : Row) :
  n <> m -> getRow (setRow rs n row) m = getRow rs m.
Proof.
  intros Hnm. unfold getRow, setRow.
  destruct (n <? 1) eqn:H1; [reflexivity|].
  destruct (m <? 1) eqn:H2; [reflexivity|].
  apply Z.ltb_ge in H1, H2. apply nth_setNth_other. lia.
Qed.

End RowCopy.

(** ** Invariants of the merge *)

(** When the merge returns, its state is the state after the loops and
    the signature section; nothing has raised. *)
Lemma mergeExcelFiles_some (files : list Workbook) (config : MergeConfig)
  (st : MergeState) :
  mergeExcelFiles files config = Some st ->
  files <> []
  /\ st = appendSignature config (processFiles config 0 files initialState).
Proof.
  unfold mergeExcelFiles. destruct files as [|wb files]; [discriminate|].
  destruct (hasConsolidated wb); [discriminate|].
  destruct (windowRaises config wb); [discriminate|].
  destruct (headerLoopHangs config (wb :: files)); [discriminate|].
  destruct (dataLoopRaises config (wb :: files)); [discriminate|].
  intros [= <-]. split; [discriminate | reflexivity].
Qed.

Section MergeInvariant.

Variable config : MergeConfig.

(** A property of the state that every step of the merge keeps. *)
Variable P : MergeState -> Prop.

Hypothesis P_copy :
  forall kind src st, P st -> P (copyToTarget config kind src st).
Hypothesis P_scanned :
  forall sid rowNum st, P st -> P (scanned sid rowNum st).
Hypothesis P_capture :
  forall sid sheet s lastRow st,
    P st -> P (captureSignature sid sheet s lastRow st).
Hypothesis P_flag :
  forall st, P st ->
             P (mkState (worksheet st) (targetRowNum st) false
                        (signatureRowsToAdd st) (trace st)).

Lemma P_copy_fold (kind : RowKind) (srcs : list SourceRow) :
  forall st, P st ->
             P (fold_left (fun st src => copyToTarget config kind src st) srcs st).
Proof.
  induction srcs as [|src srcs IH]; intros st Hst; simpl; auto.
Qed.

Lemma P_header (sid : SheetId) (sheet : Worksheet) (st : MergeState) :
  P st -> P (copyHeaderRows config sid sheet st).
Proof.
  unfold copyHeaderRows. generalize (zrange 1 (startRow config - 1)).
  intros l. revert st. induction l as [|n l IH]; intros st Hst; simpl; auto.
Qed.

Lemma P_walk (sid : SheetId) (sheet : Worksheet) (t s : option Z)
  (lastRow : Z) (rowNums : list Z) :
  forall st, P st -> P (walkRows config sid sheet t s lastRow rowNums st).
Proof.
  induction rowNums as [|n rowNums IH]; intros st Hst; simpl.
  - assumption.
  - destruct (rowAction config sheet t s n).
    + destruct (includeTotal config); auto.
    + destruct (_ && _); auto.
    + auto.
    + auto.
Qed.

Lemma P_sheet (sid : SheetId) (sheet : Worksheet) (st : MergeState) :
  P st -> P (processSheet config sid sheet st).
Proof.
  intros Hst. unfold processSheet. apply P_flag. apply P_walk.
  destruct (isFirstSheet st); [now apply P_header | assumption].
Qed.

Lemma P_sheets (fileIndex : nat) (sheets : list Worksheet) :
  forall sheetIndex st,
    P st -> P (processSheets config fileIndex sheetIndex sheets st).
Proof.
  induction sheets as [|sheet sheets IH]; intros sheetIndex st Hst; simpl.
  - assumption.
  - apply IH. now apply P_sheet.
Qed.

Lemma P_files (files : list Workbook) :
  forall fileIndex st, P st -> P (processFiles config fileIndex files st).
Proof.
  induction files as [|wb files IH]; intros fileIndex st Hst; simpl.
  - assumption.
  - apply IH. now apply P_sheets.
Qed.

Lemma P_signature (st : MergeState) : P st -> P (appendSignature config st).
Proof.
  intros Hst. unfold appendSignature.
  destruct (0 <? _); [|assumption].
  apply (P_copy_fold Signature (signatureRowsToAdd st) st Hst).
Qed.

Lemma P_merge (files : list Workbook) (st : MergeState) :
  P initialState -> mergeExcelFiles files config = Some st -> P st.
Proof.
  intros Hinit Hmerge.
  destruct (mergeExcelFiles_some files config st Hmerge) as [_ ->].
  apply P_signature. exact (P_files files 0%nat initialState Hinit).
Qed.

End MergeInvariant.

Section OutputWindow.

Variable config : MergeConfig.

Lemma outsideEmpty_initial : outsideEmpty config initialState.
Proof.
  intros r c _. simpl. unfold getRow, getCell.
  destruct (r <? 1); destruct (c <? 1); try reflexivity;
    destruct (Z.to_nat (r - 1)); destruct (Z.to_nat (c - 1)); reflexivity.
Qed.

Lemma outsideEmpty_copy (kind : RowKind) (src : SourceRow) (st : MergeState) :
  outsideEmpty config st -> outsideEmpty config (copyToTarget config kind src st).
Proof.
  intros Hst r c Hc. unfold copyToTarget. cbn [worksheet].
  destruct (Z.eq_dec (targetRowNum st) r) as [<- | Hne].
  - destruct (Z.lt_ge_cases (targetRowNum st) 1) as [Hlow | Hhigh].
    + unfold setRow. apply Z.ltb_lt in Hlow. rewrite Hlow. now apply Hst.
    + rewrite getRow_setRow_same by assumption.
      rewrite copyRow_outside by assumption. now apply Hst.
  - rewrite getRow_setRow_other by assumption. now apply Hst.
Qed.

Lemma outsideEmpty_merge (files : list Workbook) (st : MergeState) :
  mergeExcelFiles files config = Some st -> outsideEmpty config st.
Proof.
  apply (P_merge config (outsideEmpty config)).
  - apply outsideEmpty_copy.
  - intros sid rowNum st0 H. exact H.
  - intros sid sheet s lastRow st0 H. exact H.
  - intros st0 H. exact H.
  - apply outsideEmpty_initial.
Qed.

End OutputWindow.

(** C8. [copyRowWithFormatting] leaves every target cell outside
    [[startCol, endCol]] as it was; inside the window the target cell of a
    column receives the copy of the source cell of the same column, whose
    value is the extracted source value unless that is [null].  Hence the
    output sheet of a merge has no cell outside the configured window. *)
Theorem copyRow_keeps_columns :
  (forall sourceRow targetRow startCol endCol c,
      c < startCol \/ endCol < c ->
      getCell (copyRowWithFormatting sourceRow targetRow startCol endCol) c
      = getCell targetRow c)
  /\ (forall sourceRow targetRow startCol endCol c,
         startCol <= c <= endCol -> 1 <= c ->
         let copied := getCell (copyRowWithFormatting sourceRow targetRow startCol endCol) c in
         copied = copyCell (getCell sourceRow c) (getCell targetRow c)
         /\ value copied
            = match extractSafeCellValue (getCell sourceRow c) with
              | VNull => value (getCell targetRow c)
              | v => v
              end)
  /\ (forall files config st,
         mergeExcelFiles files config = Some st ->
         forall r c,
           c < startColNum config \/ endColNum config < c ->
           getCell (getRow (worksheet st) r) c = emptyCell).
Proof.
  split; [|split].
  - intros. now apply copyRow_outside.
  - intros sourceRow targetRow startCol endCol c Hc H1. cbv zeta.
    rewrite copyRow_inside by assumption. split; [reflexivity|].
    apply copyCell_value.
  - intros files config st Hmerge. exact (outsideEmpty_merge config files st Hmerge).
Qed.

Example copyRow_window_B_D :
  map value
    (copyRowWithFormatting
       [ plain (VString (js "a")); plain (VString (js "b")); emptyCell;
         plain (VString (js "d")); plain (VString (js "e")) ]
       [] (columnLetterToNumber (js "B")) (columnLetterToNumber (js "D")))
  = [ VNull; VString (js "b"); VNull; VString (js "d") ].
Proof. reflexivity. Qed.

(** ** Cell value extraction *)

(** An error value ([{ error: '#N/A' }]) is a structured value with no
    formula, rich text, text or result; the value extracted from its cell
    is [null], not a copy of it. *)
Lemma error_value_is_not_copied :
  extractSafeCellValue (plain (VError (js "#N/A"))) = VNull
  /\ extractSafeCellValue (plain (VError (js "#N/A"))) <> VError (js "#N/A").
Proof.
  split; [reflexivity | discriminate].
Qed.

(** C9, as the code has it.  [extractSafeCellValue] is defined on every
    cell: each property it reads is read on an object, and the run list is
    mapped only when it is there.  An empty cell gives [null]; an error
    value, which has none of the shapes the function resolves, gives
    [null] and is not copied; the value returned is never a formula, a
    rich text or a hyperlink object. *)
Theorem extractSafeCellValue_resolves (cell : Cell) :
  (exists v, extractSafeCellValue cell = v)
  /\ (value cell = VNull -> extractSafeCellValue cell = VNull)
  /\ (forall e, value cell = VError e -> extractSafeCellValue cell = VNull)
  /\ isUnresolved (extractSafeCellValue cell) = false.
Proof.
  destruct cell as [m v f fi a b nf].
  unfold extractSafeCellValue, cellType, cell_result. cbn [value merged].
  split; [eexists; reflexivity|].
  split; [intros ->; reflexivity|].
  split.
  - intros e ->. destruct m; reflexivity.
  - destruct v as [ | n | s | bo | d | e | runs | t h | fo [r|] | fo [r|] ];
      destruct m; try reflexivity; destruct r; reflexivity.
Qed.

Lemma extractSafeCellValue_resolves_witness :
  extractSafeCellValue emptyCell = VNull.
Proof.
  apply (proj1 (proj2 (extractSafeCellValue_resolves emptyCell))).
  reflexivity.
Defined.

Example extract_formula_result :
  extractSafeCellValue
    (plain (VFormula (js "SUM(B2:B9)") (Some (SNumber (mkNumber (js "42"))))))
  = VNumber (mkNumber (js "42")).
Proof. reflexivity. Qed.

Example extract_rich_text :
  extractSafeCellValue
    (plain (VRichText [mkRichText (js "Grand ") None; mkRichText (js "total") None]))
  = VString (js "Grand total").
Proof. reflexivity. Qed.

(** A date is an object: it takes the branch of the structured values and
    has none of the properties that branch looks for. *)
Example extract_date :
  extractSafeCellValue (plain (VDate (mkDate (js "Thu Jan 29 2026 07:00:00 GMT+0700"))))
  = VNull.
Proof. reflexivity. Qed.

Example extract_hyperlink :
  extractSafeCellValue (plain (VHyperlink (js "site") (js "https://example.org")))
  = VString (js "site").
Proof. reflexivity. Qed.

(** ** The record of the merge *)

Section MergeTrace.

Variable config : MergeConfig.

(** Copying a list of rows adds their copies to the record and touches
    neither the signature list nor the first-sheet flag. *)
Lemma copy_fold_effect (kind : RowKind) (srcs : list SourceRow) :
  forall st,
    let st' := fold_left (fun st src => copyToTarget config kind src st) srcs st in
    trace st' = trace st ++ map (Copied kind) srcs
    /\ signatureRowsToAdd st' = signatureRowsToAdd st
    /\ isFirstSheet st' = isFirstSheet st.
Proof.
  induction srcs as [|src srcs IH]; intros st; cbn [fold_left map].
  - now rewrite app_nil_r.
  - destruct (IH (copyToTarget config kind src st)) as [Ht [Hs Hf]].
    cbv zeta in *. rewrite Ht, Hs, Hf. cbn [copyToTarget trace signatureRowsToAdd isFirstSheet].
    rewrite <- app_assoc. auto.
Qed.

Lemma fold_left_mapped {A B C : Type} (f : A -> C -> A) (g : B -> C) (l : list B) :
  forall a, fold_left f (map g l) a = fold_left (fun a x => f a (g x)) l a.
Proof.
  induction l as [|x l IH]; intros a; simpl; [reflexivity | apply IH].
Qed.

Lemma header_effect (sid : SheetId) (sheet : Worksheet) (st : MergeState) :
  let st' := copyHeaderRows config sid sheet st in
  trace st' = trace st ++ headerEvents config sid sheet
  /\ signatureRowsToAdd st' = signatureRowsToAdd st
  /\ isFirstSheet st' = isFirstSheet st.
Proof.
  unfold copyHeaderRows, headerEvents.
  pose proof (copy_fold_effect Header
                (map (sourceRow sid sheet) (zrange 1 (startRow config - 1))) st) as H.
  cbv zeta in *. rewrite fold_left_mapped, map_map in H. exact H.
Qed.

Lemma walk_effect (sid : SheetId) (sheet : Worksheet) (t s : option Z)
  (lastRow : Z) (rowNums : list Z) :
  forall st,
    let st' := walkRows config sid sheet t s lastRow rowNums st in
    trace st'
    = trace st ++ walkEvents config sid sheet t s lastRow rowNums (noSignatureYet st)
    /\ signatureRowsToAdd st'
       = signatureRowsToAdd st
         ++ (if includeSignature config && noSignatureYet st
                && existsb (fun r => isSignatureAction (rowAction config sheet t s r)) rowNums
             then map (sourceRow sid sheet)
                      (zrange (match s with Some k => k | None => 0 end) lastRow)
             else [])
    /\ isFirstSheet st' = isFirstSheet st.
Proof.
  induction rowNums as [|n rowNums IH]; intros st; cbn [walkRows walkEvents existsb].
  - rewrite andb_false_r, !app_nil_r. auto.
  - cbv zeta.
    destruct (rowAction config sheet t s n) eqn:Hact; cbn [isSignatureAction orb].
    + (* the total row *)
      destruct (includeTotal config).
      * destruct (IH (copyToTarget config Total (sourceRow sid sheet n) (scanned sid n st)))
          as [Ht [Hs Hf]].
        cbv zeta in *. rewrite Ht, Hs, Hf.
        cbn [copyToTarget scanned trace signatureRowsToAdd isFirstSheet noSignatureYet].
        rewrite <- !app_assoc. auto.
      * destruct (IH (scanned sid n st)) as [Ht [Hs Hf]].
        cbv zeta in *. rewrite Ht, Hs, Hf.
        cbn [scanned trace signatureRowsToAdd isFirstSheet noSignatureYet].
        rewrite <- !app_assoc. auto.
    + (* the signature section: the loop stops *)
      rewrite andb_true_r.
      change (Z.of_nat (length (signatureRowsToAdd (scanned sid n st))) =? 0)
        with (noSignatureYet st).
      destruct (includeSignature config && noSignatureYet st).
      * cbn [captureSignature scanned trace signatureRowsToAdd isFirstSheet].
        rewrite <- !app_assoc. auto.
      * cbn [scanned trace signatureRowsToAdd isFirstSheet].
        rewrite !app_nil_r. auto.
    + (* a subtotal row that is skipped *)
      destruct (IH (scanned sid n st)) as [Ht [Hs Hf]].
      cbv zeta in *. rewrite Ht, Hs, Hf.
      cbn [scanned trace signatureRowsToAdd isFirstSheet noSignatureYet].
      rewrite <- !app_assoc. auto.
    + (* a data row *)
      destruct (IH (copyToTarget config Data (sourceRow sid sheet n) (scanned sid n st)))
        as [Ht [Hs Hf]].
      cbv zeta in *. rewrite Ht, Hs, Hf.
      cbn [copyToTarget scanned trace signatureRowsToAdd isFirstSheet noSignatureYet].
      rewrite <- !app_assoc. auto.
Qed.

Lemma processSheet_effect (sid : SheetId) (sheet : Worksheet) (st : MergeState) :
  let st' := processSheet config sid sheet st in
  trace st'
  = trace st ++ sheetEvents config sid sheet (isFirstSheet st) (noSignatureYet st)
  /\ signatureRowsToAdd st'
     = signatureRowsToAdd st
       ++ (if captures config sheet (noSignatureYet st)
           then signatureBlock sid sheet else [])
  /\ isFirstSheet st' = false.
Proof.
  unfold processSheet, sheetEvents, captures, reachesSignature, signatureBlock,
    sheetRowAction.
  cbv zeta. cbn [trace signatureRowsToAdd isFirstSheet].
  set (st1 := if isFirstSheet st then copyHeaderRows config sid sheet st else st).
  assert (H1 : trace st1
               = trace st ++ (if isFirstSheet st then headerEvents config sid sheet else [])
               /\ signatureRowsToAdd st1 = signatureRowsToAdd st).
  { unfold st1. destruct (isFirstSheet st).
    - destruct (header_effect sid sheet st) as [Ht [Hs _]]. auto.
    - now rewrite app_nil_r. }
  destruct H1 as [Ht1 Hs1].
  destruct (walk_effect sid sheet (findTotalRow sheet) (findSignatureRow sheet)
              (lastRowNumber sheet) (zrange (startRow config) (lastRowNumber sheet)) st1)
    as [Ht [Hs _]].
  cbv zeta in *. rewrite Ht, Hs.
  assert (Hn : noSignatureYet st1 = noSignatureYet st)
    by (unfold noSignatureYet; now rewrite Hs1).
  rewrite Hn, Ht1, Hs1, <- app_assoc. auto.
Qed.

Lemma rowAction_signature (sheet : Worksheet) (t s : option Z) (n : Z) :
  rowAction config sheet t s n = ActSignature ->
  isTotalRowNum t n = false /\ inSignature s n = true.
Proof.
  unfold rowAction. destruct (isTotalRowNum t n); [discriminate|].
  destruct (inSignature s n); [auto|].
  destruct (_ && _); discriminate.
Qed.

Lemma rowAction_total (sheet : Worksheet) (t s : option Z) (n : Z) :
  rowAction config sheet t s n = ActTotal <-> isTotalRowNum t n = true.
Proof.
  unfold rowAction. destruct (isTotalRowNum t n).
  - tauto.
  - destruct (inSignature s n); [split; discriminate|].
    destruct (_ && _); split; discriminate.
Qed.

(** A sheet whose loop meets the signature section has a signature row
    whose number is at most that of its last row: the block it keeps is
    not empty. *)
Lemma reachesSignature_block (sid : SheetId) (sheet : Worksheet) :
  reachesSignature config sheet = true -> signatureBlock sid sheet <> [].
Proof.
  unfold reachesSignature, signatureBlock. rewrite existsb_exists.
  intros [r [Hin Hact]]. apply in_zrange in Hin.
  unfold sheetRowAction in Hact.
  destruct (rowAction config sheet (findTotalRow sheet) (findSignatureRow sheet) r)
    eqn:Ha; try discriminate.
  apply rowAction_signature in Ha. destruct Ha as [_ Hs].
  unfold inSignature in Hs. destruct (findSignatureRow sheet) as [k|]; [|discriminate].
  apply andb_true_iff in Hs. destruct Hs as [_ Hk]. apply Z.leb_le in Hk.
  assert (Hin' : In (sourceRow sid sheet k)
                    (map (sourceRow sid sheet) (zrange k (lastRowNumber sheet)))).
  { apply in_map. apply in_zrange. lia. }
  intros Hnil. rewrite Hnil in Hin'. contradiction.
Qed.

Lemma noSignatureYet_nil (st : MergeState) :
  noSignatureYet st = true <-> signatureRowsToAdd st = [].
Proof.
  unfold noSignatureYet. rewrite Z.eqb_eq.
  destruct (signatureRowsToAdd st); simpl; split; intros H; try reflexivity;
    try discriminate; lia.
Qed.

(** After a sheet, the signature list is empty exactly when it was empty
    before and the sheet did not fill it. *)
Lemma processSheet_noSignatureYet (sid : SheetId) (sheet : Worksheet) (st : MergeState) :
  noSignatureYet (processSheet config sid sheet st)
  = noSignatureYet st && negb (captures config sheet (noSignatureYet st)).
Proof.
  destruct (processSheet_effect sid sheet st) as [_ [Hs _]]. cbv zeta in Hs.
  destruct (captures config sheet (noSignatureYet st)) eqn:Hc.
  - unfold captures in Hc. apply andb_true_iff in Hc. destruct Hc as [Hc Hr].
    apply andb_true_iff in Hc. destruct Hc as [_ Hn].
    rewrite Hn. simpl.
    apply noSignatureYet_nil in Hn. rewrite Hn in Hs. cbn [app] in Hs.
    pose proof (reachesSignature_block sid sheet Hr) as Hne.
    destruct (noSignatureYet (processSheet config sid sheet st)) eqn:Hn'; [|reflexivity].
    apply noSignatureYet_nil in Hn'. congruence.
  - rewrite app_nil_r in Hs. rewrite andb_true_r.
    unfold noSignatureYet. now rewrite Hs.
Qed.

Lemma processAll_effect (sheets : list (SheetId * Worksheet)) :
  forall st,
    let st' := processAll config sheets st in
    trace st'
    = trace st ++ allEvents config sheets (isFirstSheet st) (noSignatureYet st)
    /\ signatureRowsToAdd st'
       = signatureRowsToAdd st
         ++ (if includeSignature config && noSignatureYet st
             then firstSignatureBlock config sheets else []).
Proof.
  unfold processAll.
  induction sheets as [|[sid sheet] sheets IH]; intros st; cbn [fold_left allEvents fst snd].
  - unfold firstSignatureBlock. simpl. rewrite !app_nil_r.
    destruct (_ && _); now rewrite ?app_nil_r.
  - destruct (IH (processSheet config sid sheet st)) as [Ht Hs]. cbv zeta in *.
    destruct (processSheet_effect sid sheet st) as [Ht1 [Hs1 Hf1]]. cbv zeta in *.
    rewrite Ht, Hs, Ht1, Hs1, Hf1, processSheet_noSignatureYet, <- !app_assoc.
    split; [reflexivity|]. f_equal.
    unfold firstSignatureBlock at 2. cbn [find snd].
    unfold captures.
    destruct (includeSignature config); cbn [andb]; [|reflexivity].
    destruct (noSignatureYet st); cbn [andb]; [|reflexivity].
    destruct (reachesSignature config sheet); cbn [negb andb].
    + now rewrite app_nil_r.
    + reflexivity.
Qed.

Lemma processSheets_flat (fileIndex : nat) (sheets : list Worksheet) :
  forall sheetIndex st,
    processSheets config fileIndex sheetIndex sheets st
    = processAll config (indexSheets fileIndex sheetIndex sheets) st.
Proof.
  induction sheets as [|sheet sheets IH]; intros sheetIndex st; simpl.
  - reflexivity.
  - rewrite IH. reflexivity.
Qed.

Lemma processFiles_flat (files : list Workbook) :
  forall fileIndex st,
    processFiles config fileIndex files st
    = processAll config (indexFiles fileIndex files) st.
Proof.
  induction files as [|wb files IH]; intros fileIndex st; simpl.
  - reflexivity.
  - rewrite IH, processSheets_flat. unfold processAll.
    now rewrite fold_left_app.
Qed.

Lemma appendSignature_effect (st : MergeState) :
  trace (appendSignature config st)
  = trace st ++ map (Copied Signature) (signatureRowsToAdd st)
  /\ signatureRowsToAdd (appendSignature config st) = signatureRowsToAdd st.
Proof.
  unfold appendSignature.
  destruct (copy_fold_effect Signature (signatureRowsToAdd st) st) as [Ht [Hs _]].
  cbv zeta in *.
  destruct (0 <? Z.of_nat (length (signatureRowsToAdd st))) eqn:Hlen.
  - auto.
  - apply Z.ltb_ge in Hlen.
    assert (Hnil : signatureRowsToAdd st = [])
      by (destruct (signatureRowsToAdd st); [reflexivity | simpl in Hlen; lia]).
    rewrite Hnil. simpl. now rewrite app_nil_r.
Qed.

(** The record of a whole merge: the events of the sheets, one sheet after
    the other, then the copies of the signature rows that were kept. *)
Lemma merge_effect (files : list Workbook) (st : MergeState) :
  mergeExcelFiles files config = Some st ->
  let block := if includeSignature config
               then firstSignatureBlock config (indexFiles 0 files) else [] in
  trace st = allEvents config (indexFiles 0 files) true true
             ++ map (Copied Signature) block
  /\ signatureRowsToAdd st = block.
Proof.
  intros Hmerge.
  destruct (mergeExcelFiles_some files config st Hmerge) as [_ ->].
  cbv zeta. rewrite processFiles_flat.
  generalize (indexFiles 0 files). intros sheets.
  destruct (processAll_effect sheets initialState) as [Ht Hs].
  cbv zeta in *.
  change (noSignatureYet initialState) with true in Ht, Hs.
  change (trace initialState) with (@nil Event) in Ht.
  change (signatureRowsToAdd initialState) with (@nil SourceRow) in Hs.
  change (isFirstSheet initialState) with true in Ht.
  rewrite andb_true_r in Hs. cbn [app] in Ht, Hs.
  destruct (appendSignature_effect (processAll config sheets initialState)) as [Ht' Hs'].
  rewrite Ht', Hs', Ht, Hs. auto.
Qed.

End MergeTrace.

(** ** Readings of the record *)

Section EventReadings.

Variable config : MergeConfig.

Lemma SheetId_eqb_eq (a b : SheetId) : SheetId_eqb a b = true <-> a = b.
Proof.
  destruct a as [a1 a2], b as [b1 b2]. unfold SheetId_eqb. simpl.
  rewrite andb_true_iff, !Nat.eqb_eq. split.
  - intros [-> ->]. reflexivity.
  - intros [= -> ->]. auto.
Qed.

Lemma SheetId_eqb_refl (a : SheetId) : SheetId_eqb a a = true.
Proof. now apply SheetId_eqb_eq. Qed.

Lemma SheetId_eqb_neq (a b : SheetId) : a <> b -> SheetId_eqb a b = false.
Proof.
  intros H. destruct (SheetId_eqb a b) eqn:E; [|reflexivity].
  apply SheetId_eqb_eq in E. contradiction.
Qed.

Lemma scannedRows_app (sid : SheetId) (a b : list Event) :
  scannedRows sid (a ++ b) = scannedRows sid a ++ scannedRows sid b.
Proof. apply flat_map_app. Qed.

Lemma copiedFrom_app (sid : SheetId) (a b : list Event) :
  copiedFrom sid (a ++ b) = copiedFrom sid a ++ copiedFrom sid b.
Proof. apply flat_map_app. Qed.

Lemma copiedSources_app (a b : list Event) :
  copiedSources (a ++ b) = copiedSources a ++ copiedSources b.
Proof. apply flat_map_app. Qed.

Lemma capturedRows_app (a b : list Event) :
  capturedRows (a ++ b) = capturedRows a ++ capturedRows b.
Proof. apply flat_map_app. Qed.

Lemma eventsOf_app (sid : SheetId) (a b : list Event) :
  eventsOf sid (a ++ b) = eventsOf sid a ++ eventsOf sid b.
Proof. apply filter_app. Qed.

(** The rows scanned in a sheet and the rows copied from it are read on
    the events of that sheet. *)
Lemma scannedRows_eventsOf (sid : SheetId) (events : list Event) :
  scannedRows sid (eventsOf sid events) = scannedRows sid events.
Proof.
  unfold scannedRows, eventsOf.
  induction events as [|e events IH]; [reflexivity|].
  cbn [filter flat_map].
  destruct (SheetId_eqb (eventSheet e) sid) eqn:He; cbn [flat_map]; rewrite IH;
    [reflexivity|].
  destruct e as [s r | k src | src]; try reflexivity.
  cbn [eventSheet] in He. now rewrite He.
Qed.

Lemma copiedFrom_eventsOf (sid : SheetId) (events : list Event) :
  copiedFrom sid (eventsOf sid events) = copiedFrom sid events.
Proof.
  unfold copiedFrom, eventsOf.
  induction events as [|e events IH]; [reflexivity|].
  cbn [filter flat_map].
  destruct (SheetId_eqb (eventSheet e) sid) eqn:He; cbn [flat_map]; rewrite IH;
    [reflexivity|].
  destruct e as [s r | k src | src]; try reflexivity.
  cbn [eventSheet] in He. now rewrite He.
Qed.

(** Every event of a sheet names that sheet. *)
Lemma walkEvents_sheet (sid : SheetId) (sheet : Worksheet) (t s : option Z)
  (lastRow : Z) (rowNums : list Z) (sigEmpty : bool) :
  Forall (fun e => eventSheet e = sid)
         (walkEvents config sid sheet t s lastRow rowNums sigEmpty).
Proof.
  induction rowNums as [|n rowNums IH]; cbn [walkEvents]; [constructor|].
  constructor; [reflexivity|].
  destruct (rowAction config sheet t s n).
  - destruct (includeTotal config); [constructor; [reflexivity|]|]; exact IH.
  - destruct (_ && _); [|constructor].
    apply Forall_forall. intros e He.
    apply in_map_iff in He. destruct He as [src [<- Hsrc]].
    apply in_map_iff in Hsrc. destruct Hsrc as [r [<- _]]. reflexivity.
  - exact IH.
  - constructor; [reflexivity | exact IH].
Qed.

Lemma sheetEvents_sheet (sid : SheetId) (sheet : Worksheet) (first sigEmpty : bool) :
  Forall (fun e => eventSheet e = sid) (sheetEvents config sid sheet first sigEmpty).
Proof.
  unfold sheetEvents. apply Forall_app. split.
  - destruct first; [|constructor]. unfold headerEvents.
    apply Forall_forall. intros e He.
    apply in_map_iff in He. destruct He as [r [<- _]]. reflexivity.
  - apply walkEvents_sheet.
Qed.

Lemma eventsOf_all (sid : SheetId) (events : list Event) :
  Forall (fun e => eventSheet e = sid) events -> eventsOf sid events = events.
Proof.
  induction 1 as [|e events He _ IH]; [reflexivity|].
  unfold eventsOf in *. cbn [filter]. rewrite He, SheetId_eqb_refl. now rewrite IH.
Qed.

Lemma eventsOf_none (sid sid' : SheetId) (events : list Event) :
  sid' <> sid ->
  Forall (fun e => eventSheet e = sid') events -> eventsOf sid events = [].
Proof.
  intros Hne. induction 1 as [|e events He _ IH]; [reflexivity|].
  unfold eventsOf in *. cbn [filter]. rewrite He, (SheetId_eqb_neq _ _ Hne). exact IH.
Qed.

(** In the events of all sheets, the events of the sheet at [sid] are the
    events of its own turn. *)
Lemma eventsOf_allEvents_absent (sid : SheetId) (sheets : list (SheetId * Worksheet)) :
  ~ In sid (map fst sheets) ->
  forall first sigEmpty, eventsOf sid (allEvents config sheets first sigEmpty) = [].
Proof.
  induction sheets as [|[sid0 sheet0] sheets IH]; intros Hnot first sigEmpty;
    cbn [allEvents]; [reflexivity|].
  rewrite eventsOf_app, IH by (intros H; apply Hnot; now right).
  rewrite (eventsOf_none sid sid0); [reflexivity | | apply sheetEvents_sheet].
  intros ->. apply Hnot. now left.
Qed.

Lemma eventsOf_allEvents (sid : SheetId) (sheet : Worksheet)
  (sheets : list (SheetId * Worksheet)) :
  NoDup (map fst sheets) -> In (sid, sheet) sheets ->
  forall first sigEmpty,
  exists first' sigEmpty',
    eventsOf sid (allEvents config sheets first sigEmpty)
    = sheetEvents config sid sheet first' sigEmpty'.
Proof.
  induction sheets as [|[sid0 sheet0] sheets IH]; intros Hnd Hin first sigEmpty;
    [contradiction|].
  cbn [map fst] in Hnd. inversion Hnd as [|? ? Hnotin Hnd']; subst.
  cbn [allEvents]. rewrite eventsOf_app.
  destruct Hin as [Heq | Hin].
  - injection Heq as -> ->.
    rewrite eventsOf_allEvents_absent by assumption.
    rewrite eventsOf_all by apply sheetEvents_sheet.
    exists first, sigEmpty. now rewrite app_nil_r.
  - assert (Hne : sid0 <> sid).
    { intros ->. apply Hnotin. apply in_map_iff. now exists (sid, sheet). }
    rewrite (eventsOf_none sid sid0 _ Hne) by apply sheetEvents_sheet.
    apply (IH Hnd' Hin).
Qed.

(** The sheets of the input have distinct places. *)
Lemma indexSheets_place (i : nat) (sheets : list Worksheet) :
  forall j sid, In sid (map fst (indexSheets i j sheets)) ->
                fst sid = i /\ (j <= snd sid)%nat.
Proof.
  induction sheets as [|sheet sheets IH]; intros j sid Hin; [contradiction|].
  cbn [indexSheets map fst] in Hin. destruct Hin as [<- | Hin].
  - simpl. auto.
  - apply IH in Hin. destruct Hin. split; [assumption | lia].
Qed.

Lemma NoDup_indexSheets (i : nat) (sheets : list Worksheet) :
  forall j, NoDup (map fst (indexSheets i j sheets)).
Proof.
  induction sheets as [|sheet sheets IH]; intros j; cbn [indexSheets map fst].
  - constructor.
  - constructor; [|apply IH].
    intros Hin. apply indexSheets_place in Hin. simpl in Hin. lia.
Qed.

Lemma indexFiles_place (files : list Workbook) :
  forall k sid, In sid (map fst (indexFiles k files)) -> (k <= fst sid)%nat.
Proof.
  induction files as [|wb files IH]; intros k sid Hin; [contradiction|].
  cbn [indexFiles] in Hin. rewrite map_app, in_app_iff in Hin.
  destruct Hin as [Hin | Hin].
  - apply indexSheets_place in Hin. lia.
  - apply IH in Hin. lia.
Qed.

Lemma NoDup_indexFiles (files : list Workbook) :
  forall k, NoDup (map fst (indexFiles k files)).
Proof.
  induction files as [|wb files IH]; intros k; cbn [indexFiles].
  - constructor.
  - rewrite map_app. apply NoDup_app.
    + apply NoDup_indexSheets.
    + apply IH.
    + intros sid H1 H2. apply indexSheets_place in H1. apply indexFiles_place in H2. lia.
Qed.

Lemma In_indexSheets (i : nat) (sheets : list Worksheet) (sheet : Worksheet) :
  forall j k, nth_error sheets j = Some sheet ->
              In ((i, (k + j)%nat), sheet) (indexSheets i k sheets).
Proof.
  induction sheets as [|sheet0 sheets IH]; intros j k Hnth.
  - destruct j; discriminate.
  - destruct j as [|j]; cbn [indexSheets].
    + injection Hnth as ->. left. f_equal. f_equal. lia.
    + right. replace (k + S j)%nat with (S k + j)%nat by lia. now apply IH.
Qed.

Lemma In_indexFiles (files : list Workbook) (wb : Workbook) (sheet : Worksheet) :
  forall i j k,
    nth_error files i = Some wb -> nth_error wb j = Some sheet ->
    In (((k + i)%nat, j), sheet) (indexFiles k files).
Proof.
  induction files as [|wb0 files IH]; intros i j k Hfile Hsheet.
  - destruct i; discriminate.
  - cbn [indexFiles]. apply in_app_iff. destruct i as [|i].
    + injection Hfile as ->. left.
      replace (k + 0)%nat with k by lia.
      exact (In_indexSheets k wb sheet j 0 Hsheet).
    + right. replace (k + S i)%nat with (S k + i)%nat by lia. now apply IH.
Qed.

End EventReadings.

Section SheetReadings.

Variable config : MergeConfig.

Lemma zrange_cons (a b : Z) : a <= b -> zrange a b = a :: zrange (a + 1) b.
Proof.
  intros H. unfold zrange.
  replace (Z.to_nat (b - a + 1)) with (S (Z.to_nat (b - (a + 1) + 1))) by lia.
  cbn [seq map]. f_equal; [lia|].
  rewrite <- seq_shift, map_map. apply map_ext. intros k. lia.
Qed.

Lemma mergeTrace_of_state (files : list Workbook) (st : MergeState) :
  mergeExcelFiles files config = Some st -> mergeTrace files config = trace st.
Proof. intros H. unfold mergeTrace. now rewrite H. Qed.

Lemma mergeTrace_shape (files : list Workbook) (st : MergeState) :
  mergeExcelFiles files config = Some st ->
  trace st
  = allEvents config (indexFiles 0 files) true true
    ++ map (Copied Signature)
         (if includeSignature config
          then firstSignatureBlock config (indexFiles 0 files) else []).
Proof.
  intros Hm. now destruct (merge_effect config files st Hm) as [Ht _].
Qed.

Lemma scannedRows_copies (sid : SheetId) (kind : RowKind) (srcs : list SourceRow) :
  scannedRows sid (map (Copied kind) srcs) = [].
Proof. induction srcs; [reflexivity | assumption]. Qed.

Lemma scannedRows_captures (sid : SheetId) (srcs : list SourceRow) :
  scannedRows sid (map Captured srcs) = [].
Proof. induction srcs; [reflexivity | assumption]. Qed.

Lemma scannedRows_cons_scanned (sid : SheetId) (n : Z) (events : list Event) :
  scannedRows sid (Scanned sid n :: events) = n :: scannedRows sid events.
Proof.
  unfold scannedRows. cbn [flat_map]. now rewrite SheetId_eqb_refl.
Qed.

Lemma scannedRows_cons_copied (sid : SheetId) (k : RowKind) (src : SourceRow)
  (events : list Event) :
  scannedRows sid (Copied k src :: events) = scannedRows sid events.
Proof. reflexivity. Qed.

(** The rows that the data loop visits: the rows of its range up to the
    row where it stops. *)
Lemma scannedRows_walk (sid : SheetId) (sheet : Worksheet) (t s : option Z)
  (lastRow : Z) (rowNums : list Z) (sigEmpty : bool) :
  scannedRows sid (walkEvents config sid sheet t s lastRow rowNums sigEmpty)
  = takeThrough (fun r => isSignatureAction (rowAction config sheet t s r)) rowNums.
Proof.
  induction rowNums as [|n rowNums IH]; [reflexivity|].
  cbn [walkEvents takeThrough]. rewrite scannedRows_cons_scanned.
  destruct (rowAction config sheet t s n); cbn [isSignatureAction].
  - destruct (includeTotal config); rewrite ?scannedRows_cons_copied; now rewrite IH.
  - destruct (_ && _); [now rewrite scannedRows_captures | reflexivity].
  - now rewrite IH.
  - rewrite scannedRows_cons_copied. now rewrite IH.
Qed.

Lemma scannedRows_sheet (sid : SheetId) (sheet : Worksheet) (first sigEmpty : bool) :
  scannedRows sid (sheetEvents config sid sheet first sigEmpty)
  = takeThrough (stopsAt config sheet)
      (zrange (startRow config) (lastRowNumber sheet)).
Proof.
  unfold sheetEvents. rewrite scannedRows_app, scannedRows_walk.
  destruct first; [unfold headerEvents|]; reflexivity || idtac.
  rewrite <- (map_map (sourceRow sid sheet) (Copied Header)).
  now rewrite scannedRows_copies.
Qed.

Lemma copiedFrom_cons_scanned (sid sid' : SheetId) (n : Z) (events : list Event) :
  copiedFrom sid (Scanned sid' n :: events) = copiedFrom sid events.
Proof. reflexivity. Qed.

Lemma copiedFrom_cons_own (sid : SheetId) (sheet : Worksheet) (k : RowKind) (n : Z)
  (events : list Event) :
  copiedFrom sid (Copied k (sourceRow sid sheet n) :: events)
  = (k, n) :: copiedFrom sid events.
Proof.
  unfold copiedFrom. cbn [flat_map sourceRow src_sheet src_number].
  now rewrite SheetId_eqb_refl.
Qed.

Lemma copiedFrom_captures (sid : SheetId) (srcs : list SourceRow) :
  copiedFrom sid (map Captured srcs) = [].
Proof. induction srcs; [reflexivity | assumption]. Qed.

(** The rows that the data loop copies are rows it visits, copied as the
    total row or as data rows according to their branch. *)
Lemma copiedFrom_walk (sid : SheetId) (sheet : Worksheet) (t s : option Z)
  (lastRow : Z) (rowNums : list Z) (sigEmpty : bool) (k : RowKind) (r : Z) :
  In (k, r) (copiedFrom sid (walkEvents config sid sheet t s lastRow rowNums sigEmpty)) ->
  In r (takeThrough (fun r => isSignatureAction (rowAction config sheet t s r)) rowNums)
  /\ ((k = Total /\ rowAction config sheet t s r = ActTotal
       /\ includeTotal config = true)
      \/ (k = Data /\ rowAction config sheet t s r = ActData)).
Proof.
  induction rowNums as [|n rowNums IH]; [contradiction|].
  cbn [walkEvents takeThrough]. rewrite copiedFrom_cons_scanned.
  destruct (rowAction config sheet t s n) eqn:Hact; cbn [isSignatureAction].
  - destruct (includeTotal config) eqn:Hinc.
    + rewrite copiedFrom_cons_own. intros [Heq | Hin].
      * injection Heq as <- <-. split; [now left | left; auto].
      * destruct (IH Hin) as [H1 H2]. split; [now right | exact H2].
    + intros Hin. destruct (IH Hin) as [H1 H2]. split; [now right | exact H2].
  - destruct (_ && _); [|contradiction].
    rewrite copiedFrom_captures. contradiction.
  - intros Hin. destruct (IH Hin) as [H1 H2]. split; [now right | exact H2].
  - rewrite copiedFrom_cons_own. intros [Heq | Hin].
    + injection Heq as <- <-. split; [now left | right; auto].
    + destruct (IH Hin) as [H1 H2]. split; [now right | exact H2].
Qed.

Lemma copiedFrom_copies (sid : SheetId) (kind : RowKind) (srcs : list SourceRow)
  (k : RowKind) (r : Z) :
  In (k, r) (copiedFrom sid (map (Copied kind) srcs)) ->
  k = kind /\ exists src, In src srcs /\ src_sheet src = sid /\ src_number src = r.
Proof.
  induction srcs as [|src srcs IH]; [contradiction|].
  cbn [map]. unfold copiedFrom at 1. cbn [flat_map]. fold (copiedFrom sid).
  rewrite in_app_iff. intros [Hin | Hin].
  - destruct (SheetId_eqb (src_sheet src) sid) eqn:He; [|contradiction].
    destruct Hin as [Heq | []]. injection Heq as <- <-.
    apply SheetId_eqb_eq in He. split; [reflexivity|].
    exists src. split; [now left | auto].
  - destruct (IH Hin) as [Hk [src' [Hsrc H]]]. split; [assumption|].
    exists src'. split; [now right | assumption].
Qed.

(** What is copied from a sheet during its own turn. *)
Lemma copiedFrom_sheet (sid : SheetId) (sheet : Worksheet) (first sigEmpty : bool)
  (k : RowKind) (r : Z) :
  In (k, r) (copiedFrom sid (sheetEvents config sid sheet first sigEmpty)) ->
  (k = Header /\ 1 <= r < startRow config)
  \/ (In r (takeThrough (stopsAt config sheet)
              (zrange (startRow config) (lastRowNumber sheet)))
      /\ ((k = Total /\ sheetRowAction config sheet r = ActTotal
           /\ includeTotal config = true)
          \/ (k = Data /\ sheetRowAction config sheet r = ActData))).
Proof.
  unfold sheetEvents. rewrite copiedFrom_app, in_app_iff. intros [Hin | Hin].
  - left. destruct first; [|contradiction]. unfold headerEvents in Hin.
    rewrite <- (map_map (sourceRow sid sheet) (Copied Header)) in Hin.
    apply copiedFrom_copies in Hin. destruct Hin as [-> [src [Hsrc [_ <-]]]].
    split; [reflexivity|].
    apply in_map_iff in Hsrc. destruct Hsrc as [n [<- Hn]].
    apply in_zrange in Hn. simpl. lia.
  - right. now apply copiedFrom_walk in Hin.
Qed.

End SheetReadings.

(** ** The data loop of each sheet *)

Section DataLoop.

Variable config : MergeConfig.

Lemma takeThrough_In {A : Type} (p : A -> bool) (l : list A) (x : A) :
  In x (takeThrough p l) -> In x l.
Proof.
  induction l as [|a l IH]; [auto|]. cbn [takeThrough].
  destruct (p a).
  - intros [<- | []]. now left.
  - intros [<- | H]; [now left | right; auto].
Qed.

Lemma takeThrough_never {A : Type} (p : A -> bool) (l : list A) :
  (forall x, In x l -> p x = false) -> takeThrough p l = l.
Proof.
  induction l as [|a l IH]; intros H; [reflexivity|]. cbn [takeThrough].
  rewrite (H a (or_introl eq_refl)). f_equal. apply IH.
  intros x Hx. apply H. now right.
Qed.

Lemma files_nonempty (files : list Workbook) (i : nat) (wb : Workbook) :
  nth_error files i = Some wb -> files <> [].
Proof. intros H ->. destruct i; discriminate. Qed.

(** The events of a sheet of the input, in the record of the merge, are
    the events of its turn. *)
Lemma merge_sheet_events (files : list Workbook) (i j : nat) (wb : Workbook)
  (sheet : Worksheet) :
  nth_error files i = Some wb -> nth_error wb j = Some sheet ->
  exists first sigEmpty,
    eventsOf (i, j) (allEvents config (indexFiles 0 files) true true)
    = sheetEvents config (i, j) sheet first sigEmpty.
Proof.
  intros Hfile Hsheet. apply eventsOf_allEvents.
  - apply NoDup_indexFiles.
  - exact (In_indexFiles files wb sheet i j 0 Hfile Hsheet).
Qed.

Lemma merge_scannedRows (files : list Workbook) (st : MergeState) (i j : nat)
  (wb : Workbook) (sheet : Worksheet) :
  mergeExcelFiles files config = Some st ->
  nth_error files i = Some wb -> nth_error wb j = Some sheet ->
  scannedRows (i, j) (trace st)
  = takeThrough (stopsAt config sheet)
      (zrange (startRow config) (lastRowNumber sheet)).
Proof.
  intros Hmerge Hfile Hsheet.
  rewrite (mergeTrace_shape config files st Hmerge).
  rewrite scannedRows_app, scannedRows_copies, app_nil_r.
  rewrite <- scannedRows_eventsOf.
  destruct (merge_sheet_events files i j wb sheet Hfile Hsheet) as [first [e He]].
  rewrite He. apply scannedRows_sheet.
Qed.

Lemma merge_copiedFrom (files : list Workbook) (st : MergeState) (i j : nat)
  (wb : Workbook) (sheet : Worksheet) (k : RowKind) (r : Z) :
  mergeExcelFiles files config = Some st ->
  nth_error files i = Some wb -> nth_error wb j = Some sheet ->
  In (k, r) (copiedFrom (i, j) (trace st)) ->
  k = Signature
  \/ (k = Header /\ 1 <= r < startRow config)
  \/ (In r (takeThrough (stopsAt config sheet)
              (zrange (startRow config) (lastRowNumber sheet)))
      /\ ((k = Total /\ sheetRowAction config sheet r = ActTotal
           /\ includeTotal config = true)
          \/ (k = Data /\ sheetRowAction config sheet r = ActData))).
Proof.
  intros Hmerge Hfile Hsheet.
  rewrite (mergeTrace_shape config files st Hmerge).
  rewrite copiedFrom_app, in_app_iff. intros [Hin | Hin].
  - right. rewrite <- copiedFrom_eventsOf in Hin.
    destruct (merge_sheet_events files i j wb sheet Hfile Hsheet) as [first [e He]].
    rewrite He in Hin. now apply copiedFrom_sheet in Hin.
  - left. apply copiedFrom_copies in Hin. tauto.
Qed.

Lemma isTotalRowNum_true (t : option Z) (r : Z) :
  isTotalRowNum t r = true -> t = Some r.
Proof.
  unfold isTotalRowNum. destruct t as [t0|]; [|discriminate].
  rewrite andb_true_iff, Z.eqb_eq. intros [_ ->]. reflexivity.
Qed.

Lemma sheetRowAction_total (sheet : Worksheet) (r : Z) :
  sheetRowAction config sheet r = ActTotal -> findTotalRow sheet = Some r.
Proof.
  unfold sheetRowAction. intros H. apply rowAction_total in H.
  now apply isTotalRowNum_true.
Qed.

(** From the signature row on, a row is the total row or belongs to the
    signature section. *)
Lemma action_below_signature (sheet : Worksheet) (s r : Z) :
  findSignatureRow sheet = Some s -> s <= r ->
  sheetRowAction config sheet r
  = if isTotalRowNum (findTotalRow sheet) r then ActTotal else ActSignature.
Proof.
  intros Hs Hr. unfold sheetRowAction, rowAction.
  destruct (isTotalRowNum (findTotalRow sheet) r); [reflexivity|].
  rewrite Hs. unfold inSignature.
  apply findSignatureRow_some in Hs. destruct Hs as [[H1 _] _].
  assert (E1 : (s =? 0) = false) by (apply Z.eqb_neq; lia).
  assert (E2 : (s <=? r) = true) by (apply Z.leb_le; lia).
  now rewrite E1, E2.
Qed.

(** With a signature row whose number is at most [startRow], the loop visits the
    first row of its range, and one more row when the first is the total
    row. *)
Lemma scan_with_signature_above (sheet : Worksheet) (s r : Z) :
  findSignatureRow sheet = Some s -> s <= startRow config ->
  In r (takeThrough (stopsAt config sheet)
          (zrange (startRow config) (lastRowNumber sheet))) ->
  r = startRow config
  \/ (r = startRow config + 1 /\ findTotalRow sheet = Some (startRow config)).
Proof.
  intros Hs Hle.
  destruct (Z.lt_ge_cases (lastRowNumber sheet) (startRow config)) as [Hshort | Hlong].
  - rewrite zrange_empty by assumption. contradiction.
  - rewrite zrange_cons by lia. cbn [takeThrough].
    unfold stopsAt at 1.
    rewrite (action_below_signature sheet s (startRow config) Hs Hle).
    destruct (isTotalRowNum (findTotalRow sheet) (startRow config)) eqn:Htot;
      cbn [isSignatureAction].
    + apply isTotalRowNum_true in Htot.
      intros [<- | Hin]; [now left|]. right.
      destruct (Z.lt_ge_cases (lastRowNumber sheet) (startRow config + 1))
        as [Hend | Hmore].
      * rewrite zrange_empty in Hin by assumption. contradiction.
      * rewrite zrange_cons in Hin by lia. cbn [takeThrough] in Hin.
        unfold stopsAt at 1 in Hin.
        rewrite (action_below_signature sheet s (startRow config + 1) Hs) in Hin by lia.
        assert (Hnot : isTotalRowNum (findTotalRow sheet) (startRow config + 1) = false).
        { rewrite Htot. unfold isTotalRowNum.
          assert (E : (startRow config + 1 =? startRow config) = false)
            by (apply Z.eqb_neq; lia).
          rewrite E. apply andb_false_r. }
        rewrite Hnot in Hin. cbn [isSignatureAction] in Hin.
        destruct Hin as [<- | []]. auto.
    + intros [<- | []]. now left.
Qed.

Lemma sheet_at_place_unique (sheets : list (SheetId * Worksheet)) (sid : SheetId)
  (sheet sheet' : Worksheet) :
  NoDup (map fst sheets) ->
  In (sid, sheet) sheets -> In (sid, sheet') sheets -> sheet = sheet'.
Proof.
  induction sheets as [|[sid0 sheet0] sheets IH]; intros Hnd H1 H2; [contradiction|].
  cbn [map fst] in Hnd. inversion Hnd as [|? ? Hnotin Hnd']; subst.
  destruct H1 as [E1 | H1], H2 as [E2 | H2].
  - congruence.
  - injection E1 as -> ->. exfalso. apply Hnotin.
    apply in_map_iff. now exists (sid, sheet').
  - injection E2 as -> ->. exfalso. apply Hnotin.
    apply in_map_iff. now exists (sid, sheet).
  - now apply IH.
Qed.

(** A row of a sheet is copied at the end, as a signature row, only when
    signatures are asked for, and it is then a row from the signature row
    of the sheet to its last row. *)
Lemma merge_signature_copies (files : list Workbook) (st : MergeState)
  (i j : nat) (wb : Workbook) (sheet : Worksheet) (s r : Z) :
  mergeExcelFiles files config = Some st ->
  nth_error files i = Some wb -> nth_error wb j = Some sheet ->
  findSignatureRow sheet = Some s ->
  In (Signature, r) (copiedFrom (i, j) (trace st)) ->
  includeSignature config = true /\ s <= r <= lastRowNumber sheet.
Proof.
  intros Hmerge Hfile Hsheet Hs.
  rewrite (mergeTrace_shape config files st Hmerge).
  rewrite copiedFrom_app, in_app_iff. intros [Hin | Hin].
  - exfalso. rewrite <- copiedFrom_eventsOf in Hin.
    destruct (merge_sheet_events files i j wb sheet Hfile Hsheet) as [first [e He]].
    rewrite He in Hin. apply copiedFrom_sheet in Hin.
    destruct Hin as [[H _] | [_ [[H _] | [H _]]]]; discriminate.
  - apply copiedFrom_copies in Hin. destruct Hin as [_ [src [Hsrc [Hsid Hnum]]]].
    destruct (includeSignature config); [|contradiction].
    split; [reflexivity|].
    unfold firstSignatureBlock in Hsrc.
    destruct (find (fun p => reachesSignature config (snd p)) (indexFiles 0 files))
      as [[sid' sheet']|] eqn:Hfind; [|contradiction].
    apply find_some in Hfind. destruct Hfind as [Hin' _].
    unfold signatureBlock in Hsrc. apply in_map_iff in Hsrc.
    destruct Hsrc as [n [<- Hn]]. cbn [sourceRow src_sheet src_number] in Hsid, Hnum.
    subst sid' n.
    assert (Heq : sheet' = sheet).
    { apply (sheet_at_place_unique (indexFiles 0 files) (i, j)).
      - apply NoDup_indexFiles.
      - exact Hin'.
      - exact (In_indexFiles files wb sheet i j 0 Hfile Hsheet). }
    subst sheet'. rewrite Hs in Hn. now apply in_zrange in Hn.
Qed.

End DataLoop.

(** With two files of one sheet each and [startRow = 2], the data loop of
    the second sheet visits row 2 and copies it: its range does not begin
    at [startRow + 1]. *)
Lemma second_sheet_scanned_from_startRow :
  mergeExcelFiles [[deliverySheet]; [deliverySheet]] defaultConfig <> None
  /\ scannedRows (1%nat, 0%nat)
       (mergeTrace [[deliverySheet]; [deliverySheet]] defaultConfig)
     = [2; 3; 4; 5]
  /\ copiedFrom (1%nat, 0%nat)
       (mergeTrace [[deliverySheet]; [deliverySheet]] defaultConfig)
     = [(Data, 2); (Data, 3); (Total, 4)]
  /\ scannedRows (1%nat, 0%nat)
       (mergeTrace [[deliverySheet]; [deliverySheet]] defaultConfig)
     <> takeThrough (stopsAt defaultConfig deliverySheet)
          (zrange (startRow defaultConfig + 1) (lastRowNumber deliverySheet)).
Proof.
  split; [vm_compute; discriminate|].
  split; [vm_compute; reflexivity|].
  split; [vm_compute; reflexivity|].
  vm_compute. discriminate.
Qed.

(** C1, as the code has it.  In a merge that returns, in every sheet of
    the input, the first sheet of the first file and every later sheet
    alike, the data loop visits the rows [startRow], [startRow + 1], ...
    in order, up to the last row or up to the row where the signature
    section stops it; without a signature row it visits exactly
    [[startRow, lastRow]].  Every row copied as a data row or as the total
    row lies in [[startRow, lastRow]]. *)
Theorem data_loop_range_of_every_sheet (files : list Workbook) (config : MergeConfig)
  (st : MergeState) (i j : nat) (wb : Workbook) (sheet : Worksheet) :
  mergeExcelFiles files config = Some st ->
  nth_error files i = Some wb ->
  nth_error wb j = Some sheet ->
  scannedRows (i, j) (trace st)
  = takeThrough (stopsAt config sheet)
      (zrange (startRow config) (lastRowNumber sheet))
  /\ (findSignatureRow sheet = None ->
      scannedRows (i, j) (trace st)
      = zrange (startRow config) (lastRowNumber sheet))
  /\ (forall k r,
         In (k, r) (copiedFrom (i, j) (trace st)) ->
         k = Total \/ k = Data ->
         startRow config <= r <= lastRowNumber sheet).
Proof.
  intros Hmerge Hfile Hsheet.
  pose proof (merge_scannedRows config files st i j wb sheet Hmerge Hfile Hsheet)
    as Hscan.
  split; [exact Hscan|]. split.
  - intros Hnone. rewrite Hscan. apply takeThrough_never.
    intros r _. unfold stopsAt, sheetRowAction, rowAction.
    rewrite Hnone. cbn [inSignature].
    destruct (isTotalRowNum _ r); [reflexivity|].
    destruct (_ && _); reflexivity.
  - intros k r Hin Hk.
    apply (merge_copiedFrom config files st i j wb sheet k r Hmerge Hfile Hsheet)
      in Hin.
    destruct Hin as [-> | [[-> _] | [Hin _]]].
    + destruct Hk; discriminate.
    + destruct Hk; discriminate.
    + apply takeThrough_In in Hin. now apply in_zrange in Hin.
Qed.

Lemma data_loop_range_of_every_sheet_witness :
  scannedRows (1%nat, 0%nat)
    (mergeTrace [[deliverySheet]; [deliverySheet]] defaultConfig)
  = takeThrough (stopsAt defaultConfig deliverySheet)
      (zrange (startRow defaultConfig) (lastRowNumber deliverySheet)).
Proof.
  apply (data_loop_range_of_every_sheet
           [[deliverySheet]; [deliverySheet]] defaultConfig _ 1 0
           [deliverySheet] deliverySheet eq_refl eq_refl eq_refl).
Defined.

(** The signature row of [totalFirstSheet] is row 1 and its total row is
    row 2, the first row of the data loop: the loop copies the total row,
    goes on, and stops at row 3, not at the first row it visits.  Rows 3
    and 4, the data rows, are copied to the output all the same, at the
    end, with the rows kept for the signature. *)
Lemma walk_goes_past_total_row_at_startRow :
  mergeExcelFiles [[totalFirstSheet]] defaultConfig <> None
  /\ findSignatureRow totalFirstSheet = Some 1
  /\ 1 <= startRow defaultConfig
  /\ scannedRows (0%nat, 0%nat) (mergeTrace [[totalFirstSheet]] defaultConfig)
     = [2; 3]
  /\ copiedFrom (0%nat, 0%nat) (mergeTrace [[totalFirstSheet]] defaultConfig)
     = [(Header, 1); (Total, 2); (Signature, 1); (Signature, 2);
        (Signature, 3); (Signature, 4)].
Proof.
  split; [vm_compute; discriminate|].
  split; [reflexivity|].
  split; [vm_compute; discriminate|].
  split; vm_compute; reflexivity.
Qed.

(** C10, as the code has it.  In a merge that returns, when the number of
    the signature row of a sheet is at most [startRow], the data loop
    copies no row of the sheet as a data row.  It stops at the first row
    it visits that is not the total row: row [startRow], or the next row
    when row [startRow] is the total row.  The only row it can copy is the
    total row, when the total row is row [startRow].  Apart from header
    rows, the other rows of the sheet reach the output only as signature
    rows, at the end, when signatures are asked for: they are rows from
    the signature row to the last row. *)
Theorem signature_above_startRow_stops_the_walk (files : list Workbook)
  (config : MergeConfig) (st : MergeState) (i j : nat) (wb : Workbook)
  (sheet : Worksheet) (s : Z) :
  mergeExcelFiles files config = Some st ->
  nth_error files i = Some wb ->
  nth_error wb j = Some sheet ->
  findSignatureRow sheet = Some s ->
  s <= startRow config ->
  (forall r, ~ In (Data, r) (copiedFrom (i, j) (trace st)))
  /\ (forall r, In (Total, r) (copiedFrom (i, j) (trace st)) ->
                r = startRow config /\ findTotalRow sheet = Some (startRow config))
  /\ (forall r, In (Signature, r) (copiedFrom (i, j) (trace st)) ->
                includeSignature config = true /\ s <= r <= lastRowNumber sheet)
  /\ (forall r, In (Header, r) (copiedFrom (i, j) (trace st)) ->
                1 <= r < startRow config)
  /\ (forall r, In r (scannedRows (i, j) (trace st)) ->
                r = startRow config
                \/ (r = startRow config + 1
                    /\ findTotalRow sheet = Some (startRow config)))
  /\ (findTotalRow sheet <> Some (startRow config) ->
      startRow config <= lastRowNumber sheet ->
      scannedRows (i, j) (trace st) = [startRow config]).
Proof.
  intros Hmerge Hfile Hsheet Hs Hle.
  assert (Hscan := merge_scannedRows config files st i j wb sheet Hmerge Hfile Hsheet).
  assert (Hcopy := fun k r =>
                     merge_copiedFrom config files st i j wb sheet k r
                       Hmerge Hfile Hsheet).
  split; [|split; [|split; [|split; [|split]]]].
  - intros r Hin. apply Hcopy in Hin.
    destruct Hin as [H | [[H _] | [Hin [[H _] | [_ Hact]]]]]; try discriminate.
    assert (Hr : s <= r).
    { apply takeThrough_In, in_zrange in Hin. lia. }
    rewrite (action_below_signature config sheet s r Hs Hr) in Hact.
    destruct (isTotalRowNum _ r); discriminate.
  - intros r Hin. apply Hcopy in Hin.
    destruct Hin as [H | [[H _] | [Hin [[_ [Hact _]] | [H _]]]]]; try discriminate.
    apply sheetRowAction_total in Hact.
    destruct (scan_with_signature_above config sheet s r Hs Hle Hin) as [-> | [-> Htot]].
    + auto.
    + rewrite Htot in Hact. injection Hact. lia.
  - intros r Hin.
    exact (merge_signature_copies config files st i j wb sheet s r
             Hmerge Hfile Hsheet Hs Hin).
  - intros r Hin. apply Hcopy in Hin.
    destruct Hin as [H | [[_ H] | [_ [[H _] | [H _]]]]]; try discriminate.
    exact H.
  - intros r Hin. rewrite Hscan in Hin.
    exact (scan_with_signature_above config sheet s r Hs Hle Hin).
  - intros Hnot Hlong. rewrite Hscan, zrange_cons by assumption.
    cbn [takeThrough]. unfold stopsAt at 1.
    rewrite (action_below_signature config sheet s (startRow config) Hs Hle).
    destruct (isTotalRowNum (findTotalRow sheet) (startRow config)) eqn:Htot.
    + apply isTotalRowNum_true in Htot. contradiction.
    + reflexivity.
Qed.

Lemma signature_above_startRow_stops_the_walk_witness :
  (forall r, ~ In (Data, r)
               (copiedFrom (0%nat, 0%nat) (mergeTrace [[titledSheet]] defaultConfig)))
  /\ scannedRows (0%nat, 0%nat) (mergeTrace [[titledSheet]] defaultConfig) = [2].
Proof.
  destruct (signature_above_startRow_stops_the_walk
              [[titledSheet]] defaultConfig _ 0 0 [titledSheet] titledSheet 1
              eq_refl eq_refl eq_refl eq_refl ltac:(vm_compute; discriminate))
    as [Hdata [_ [_ [_ [_ Hone]]]]].
  split; [exact Hdata|].
  apply Hone; [vm_compute; discriminate | vm_compute; discriminate].
Defined.

(** ** The signature section *)

Section SignatureOnce.

Variable config : MergeConfig.

Lemma capturedRows_captures (srcs : list SourceRow) :
  capturedRows (map Captured srcs) = srcs.
Proof.
  induction srcs as [|src srcs IH]; [reflexivity|].
  cbn [map]. unfold capturedRows in *. cbn [flat_map app]. now rewrite IH.
Qed.

Lemma capturedRows_copies (kind : RowKind) (srcs : list SourceRow) :
  capturedRows (map (Copied kind) srcs) = [].
Proof. induction srcs; [reflexivity | assumption]. Qed.

Lemma copiedSources_copies (kind : RowKind) (srcs : list SourceRow) :
  copiedSources (map (Copied kind) srcs) = srcs.
Proof.
  induction srcs as [|src srcs IH]; [reflexivity|].
  cbn [map]. unfold copiedSources in *. cbn [flat_map app]. now rewrite IH.
Qed.

Lemma copiedSources_captures (srcs : list SourceRow) :
  copiedSources (map Captured srcs) = [].
Proof. induction srcs; [reflexivity | assumption]. Qed.

(** The data loop keeps signature rows when signatures are asked for, none
    is kept yet and the loop meets the signature section. *)
Lemma capturedRows_walk (sid : SheetId) (sheet : Worksheet) (t s : option Z)
  (lastRow : Z) (rowNums : list Z) (sigEmpty : bool) :
  capturedRows (walkEvents config sid sheet t s lastRow rowNums sigEmpty)
  = if includeSignature config && sigEmpty
       && existsb (fun r => isSignatureAction (rowAction config sheet t s r)) rowNums
    then map (sourceRow sid sheet)
             (zrange (match s with Some k => k | None => 0 end) lastRow)
    else [].
Proof.
  induction rowNums as [|n rowNums IH]; cbn [walkEvents existsb].
  - now rewrite andb_false_r.
  - change (capturedRows (Scanned sid n :: ?l)) with (capturedRows l).
    destruct (rowAction config sheet t s n); cbn [isSignatureAction orb].
    + destruct (includeTotal config); exact IH.
    + rewrite andb_true_r.
      destruct (includeSignature config && sigEmpty);
        [apply capturedRows_captures | reflexivity].
    + exact IH.
    + exact IH.
Qed.

Lemma capturedRows_sheet (sid : SheetId) (sheet : Worksheet) (first sigEmpty : bool) :
  capturedRows (sheetEvents config sid sheet first sigEmpty)
  = if captures config sheet sigEmpty then signatureBlock sid sheet else [].
Proof.
  unfold sheetEvents. rewrite capturedRows_app, capturedRows_walk.
  assert (H : capturedRows (if first then headerEvents config sid sheet else []) = []).
  { destruct first; [|reflexivity]. unfold headerEvents.
    rewrite <- (map_map (sourceRow sid sheet) (Copied Header)).
    apply capturedRows_copies. }
  rewrite H. reflexivity.
Qed.

(** Over all sheets the signature rows are kept once: the block of the
    first sheet whose loop meets its signature section. *)
Lemma capturedRows_all (sheets : list (SheetId * Worksheet)) :
  forall first sigEmpty,
    capturedRows (allEvents config sheets first sigEmpty)
    = if includeSignature config && sigEmpty
      then firstSignatureBlock config sheets else [].
Proof.
  induction sheets as [|[sid sheet] sheets IH]; intros first sigEmpty; cbn [allEvents].
  - unfold firstSignatureBlock. simpl. now destruct (_ && _).
  - rewrite capturedRows_app, capturedRows_sheet, IH.
    unfold firstSignatureBlock at 2. cbn [find snd]. unfold captures.
    destruct (includeSignature config); cbn [andb]; [|reflexivity].
    destruct sigEmpty; cbn [andb]; [|reflexivity].
    destruct (reachesSignature config sheet); cbn [negb andb app].
    + now rewrite app_nil_r.
    + reflexivity.
Qed.

(** No signature row is copied before the end. *)
Lemma walkEvents_no_signature_copy (sid : SheetId) (sheet : Worksheet)
  (t s : option Z) (lastRow : Z) (rowNums : list Z) (sigEmpty : bool) :
  forallb (fun e => negb (isSignatureCopy e))
          (walkEvents config sid sheet t s lastRow rowNums sigEmpty) = true.
Proof.
  induction rowNums as [|n rowNums IH]; [reflexivity|].
  cbn [walkEvents forallb isSignatureCopy negb andb].
  destruct (rowAction config sheet t s n).
  - destruct (includeTotal config); exact IH.
  - destruct (_ && _); [|reflexivity].
    rewrite forallb_forall. intros e He.
    apply in_map_iff in He. destruct He as [src [<- _]]. reflexivity.
  - exact IH.
  - exact IH.
Qed.

Lemma allEvents_no_signature_copy (sheets : list (SheetId * Worksheet)) :
  forall first sigEmpty,
    forallb (fun e => negb (isSignatureCopy e))
            (allEvents config sheets first sigEmpty) = true.
Proof.
  induction sheets as [|[sid sheet] sheets IH]; intros first sigEmpty;
    cbn [allEvents]; [reflexivity|].
  rewrite forallb_app, IH, andb_true_r. unfold sheetEvents.
  rewrite forallb_app, walkEvents_no_signature_copy, andb_true_r.
  destruct first; [|reflexivity]. unfold headerEvents.
  rewrite forallb_forall. intros e He.
  apply in_map_iff in He. destruct He as [r [<- _]]. reflexivity.
Qed.

Lemma setNth_length {A : Type} (d x : A) (l : list A) :
  setNth d (length l) x l = l ++ [x].
Proof.
  induction l as [|a l IH]; [reflexivity|]. cbn [length setNth app]. now rewrite IH.
Qed.

(** Each copy writes the next row of the output sheet. *)
Lemma outputFollowsTrace_copy (kind : RowKind) (src : SourceRow) (st : MergeState) :
  outputFollowsTrace config st ->
  outputFollowsTrace config (copyToTarget config kind src st).
Proof.
  intros [Hrows Hcursor]. unfold outputFollowsTrace, copyToTarget.
  cbn [worksheet targetRowNum trace].
  assert (Hfresh : getRow (worksheet st) (targetRowNum st) = []).
  { apply getRow_high. lia. }
  assert (Hset : setRow (worksheet st) (targetRowNum st) (render config src)
                 = worksheet st ++ [render config src]).
  { unfold setRow.
    assert (E : (targetRowNum st <? 1) = false) by (apply Z.ltb_ge; lia).
    rewrite E.
    replace (Z.to_nat (targetRowNum st - 1)) with (length (worksheet st)) by lia.
    apply setNth_length. }
  rewrite Hfresh. fold (render config src). rewrite Hset. split.
  - rewrite copiedSources_app, map_app, <- Hrows. reflexivity.
  - rewrite length_app. simpl length. lia.
Qed.

Lemma outputFollowsTrace_merge (files : list Workbook) (st : MergeState) :
  mergeExcelFiles files config = Some st -> outputFollowsTrace config st.
Proof.
  apply (P_merge config (outputFollowsTrace config)).
  - apply outputFollowsTrace_copy.
  - intros sid rowNum st0 [H1 H2]. split; [|exact H2].
    cbn [scanned worksheet trace]. rewrite copiedSources_app. simpl.
    now rewrite app_nil_r.
  - intros sid sheet s lastRow st0 [H1 H2]. split; [|exact H2].
    cbn [captureSignature worksheet trace].
    rewrite copiedSources_app, copiedSources_captures. now rewrite app_nil_r.
  - intros st0 H. exact H.
  - split; reflexivity.
Qed.

(** A sheet whose signature row lies in the range of the data loop and is
    not its total row is a sheet whose loop meets the signature section. *)
Lemma reachesSignature_usual (sheet : Worksheet) (s : Z) :
  findSignatureRow sheet = Some s ->
  startRow config <= s ->
  findTotalRow sheet <> Some s ->
  reachesSignature config sheet = true.
Proof.
  intros Hs Hstart Htotal.
  destruct (findSignatureRow_some sheet s Hs) as [[H1 Hlast] _].
  unfold reachesSignature. apply existsb_exists. exists s. split.
  - apply in_zrange. lia.
  - rewrite (action_below_signature config sheet s s Hs (Z.le_refl s)).
    destruct (isTotalRowNum (findTotalRow sheet) s) eqn:E; [|reflexivity].
    apply isTotalRowNum_true in E. contradiction.
Qed.

End SignatureOnce.

(** ** Sheets named "Consolidated" *)

Section SheetName.

Variable config : MergeConfig.

(** The data loop reads the rows of a sheet and never its name. *)
Lemma walkRows_name (sid : SheetId) (n n' : jsstring) (rs : list Row)
  (t s : option Z) (lastRow : Z) (rowNums : list Z) :
  forall st,
    walkRows config sid (mkWorksheet n rs) t s lastRow rowNums st
    = walkRows config sid (mkWorksheet n' rs) t s lastRow rowNums st.
Proof.
  induction rowNums as [|r rowNums IH]; intros st; cbn [walkRows]; [reflexivity|].
  cbv zeta.
  change (rowAction config (mkWorksheet n rs) t s r)
    with (rowAction config (mkWorksheet n' rs) t s r).
  destruct (rowAction config (mkWorksheet n' rs) t s r).
  - destruct (includeTotal config); apply IH.
  - reflexivity.
  - apply IH.
  - apply IH.
Qed.

Lemma processSheet_name (sid : SheetId) (n n' : jsstring) (rs : list Row)
  (st : MergeState) :
  processSheet config sid (mkWorksheet n rs) st
  = processSheet config sid (mkWorksheet n' rs) st.
Proof.
  unfold processSheet. cbv zeta.
  rewrite (walkRows_name sid n n'). reflexivity.
Qed.

End SheetName.

(** C2, on the code.  [processSheet] treats a sheet named "Consolidated"
    as it treats the same rows under any other name; in a merge whose
    second file is the result of an earlier merge, the rows of its sheet
    "Consolidated" are visited and copied to the output. *)
Theorem consolidated_sheet_is_merged :
  (forall config sid n rs st,
      processSheet config sid (mkWorksheet (js "Consolidated") rs) st
      = processSheet config sid (mkWorksheet n rs) st)
  /\ name consolidatedSheet = js "Consolidated"
  /\ scannedRows (1%nat, 1%nat)
       (mergeTrace [[deliverySheet]; earlierResult] defaultConfig)
     = [2; 3; 4]
  /\ copiedFrom (1%nat, 1%nat)
       (mergeTrace [[deliverySheet]; earlierResult] defaultConfig)
     = [(Data, 2); (Data, 3); (Total, 4)].
Proof.
  split; [|split; [|split]].
  - intros config sid n rs st. apply processSheet_name.
  - reflexivity.
  - vm_compute. reflexivity.
  - vm_compute. reflexivity.
Qed.

(** * Further properties *)

(** ** The column codec as a bijection *)

Section ColumnLetters.

(** With enough turns the loop writes back the letters a number was read
    from. *)
Lemma columnNumberToLetter_loop_letters (letter : jsstring) :
  forallb isCapital letter = true ->
  lettersValue letter <= two53 ->
  forall fuel,
    lettersValue letter < 2 ^ Z.of_nat fuel ->
    columnNumberToLetter_loop fuel (lettersValue letter) [] = letter.
Proof.
  induction letter as [|c letter IH] using rev_ind; intros H Hbound fuel Hfuel.
  - destruct fuel; reflexivity.
  - apply forallb_snoc in H. destruct H as [Hl Hc].
    apply capital_code in Hc.
    pose proof (lettersValue_nonneg letter Hl) as Hpos.
    rewrite lettersValue_snoc in *.
    set (n := lettersValue letter) in *.
    destruct fuel as [|fuel]; [change (2 ^ Z.of_nat 0) with 1 in Hfuel; lia|].
    cbn [columnNumberToLetter_loop].
    assert (Hgt : (0 <? n * 26 + c - 64) = true) by (apply Z.ltb_lt; lia).
    rewrite Hgt. cbv zeta.
    rewrite toDouble_exact by (unfold two53 in *; lia).
    rewrite floorQuotient26_exact by lia.
    replace (n * 26 + c - 64 - 1) with (n * 26 + (c - 65)) by lia.
    rewrite Z.rem_mod_nonneg by lia.
    assert (Hmod : (n * 26 + (c - 65)) mod 26 = c - 65).
    { rewrite Z.add_comm, Z.mod_add by lia. apply Z.mod_small. lia. }
    assert (Hdiv : (n * 26 + (c - 65)) / 26 = n).
    { rewrite Z.add_comm, Z.div_add by lia. rewrite Z.div_small by lia. lia. }
    rewrite Hmod, Hdiv, letter_code by lia.
    replace (65 + (c - 65)) with c by lia.
    rewrite columnNumberToLetter_loop_acc. f_equal.
    apply IH; [assumption | lia |].
    rewrite Nat2Z.inj_succ, Z.pow_succ_r in Hfuel by lia. lia.
Qed.

(** The largest number that strings of capital letters of a length
    denote. *)
Lemma lettersValue_bound (letter : jsstring) :
  forallb isCapital letter = true ->
  25 * lettersValue letter + 26 <= 26 * 26 ^ Z.of_nat (length letter).
Proof.
  induction letter as [|c letter IH] using rev_ind; intros H.
  - cbn. lia.
  - apply forallb_snoc in H. destruct H as [Hl Hc].
    apply capital_code in Hc. specialize (IH Hl).
    rewrite lettersValue_snoc, length_app. cbn [length].
    replace (Z.of_nat (length letter + 1)) with (Z.succ (Z.of_nat (length letter)))
      by lia.
    rewrite Z.pow_succ_r by lia. lia.
Qed.

Lemma lettersValue_eleven (letter : jsstring) :
  forallb isCapital letter = true ->
  (length letter <= 11)%nat ->
  lettersValue letter + 64 <= two53.
Proof.
  intros H Hlen. pose proof (lettersValue_bound letter H) as Hbound.
  assert (Hpow : 26 ^ Z.of_nat (length letter) <= 26 ^ 11)
    by (apply Z.pow_le_mono_r; lia).
  change (26 ^ 11) with 3670344486987776 in Hpow. unfold two53. lia.
Qed.

End ColumnLetters.

(** X1. Reading a string of at most eleven capital letters as a column
    number and writing the number back in letters gives the string: on
    these strings [columnNumberToLetter] undoes [columnLetterToNumber].
    The bound is needed: twelve letters K are read as a number above
    2^53, rounded in the reading, and written back with another last
    letter. *)
Theorem column_letters_round_trip (letter : jsstring) :
  forallb isCapital letter = true ->
  (length letter <= 11)%nat ->
  columnNumberToLetter (columnLetterToNumber letter) = letter
  /\ columnLetterToNumber (js "KKKKKKKKKKKK") = 41988740931140152
  /\ columnNumberToLetter (columnLetterToNumber (js "KKKKKKKKKKKK"))
     = js "KKKKKKKKKKKG".
Proof.
  intros H Hlen. split; [|split; vm_compute; reflexivity].
  pose proof (lettersValue_eleven letter H Hlen) as Hbound.
  rewrite (columnLetterToNumber_exact letter H Hbound).
  unfold columnNumberToLetter.
  apply columnNumberToLetter_loop_letters;
    [assumption | lia | apply enough_turns].
Qed.

Lemma column_letters_round_trip_witness :
  columnNumberToLetter (columnLetterToNumber (js "XFD")) = js "XFD".
Proof.
  apply (column_letters_round_trip (js "XFD")); [reflexivity | cbn; lia].
Defined.


(** ** The rows of the output sheet *)

Section OutputRows.

Variable config : MergeConfig.

Lemma In_indexSheets_inv (i : nat) (sheets : list Worksheet) :
  forall k sid sheet,
    In (sid, sheet) (indexSheets i k sheets) ->
    fst sid = i
    /\ exists j, snd sid = (k + j)%nat /\ nth_error sheets j = Some sheet.
Proof.
  induction sheets as [|sheet0 sheets IH]; intros k sid sheet Hin; [contradiction|].
  cbn [indexSheets] in Hin. destruct Hin as [Heq | Hin].
  - injection Heq as <- <-. split; [reflexivity|].
    exists 0%nat. split; [simpl; lia | reflexivity].
  - destruct (IH (S k) sid sheet Hin) as [Hi [j [Hj Hnth]]].
    split; [assumption|]. exists (S j). split; [lia | exact Hnth].
Qed.

Lemma In_indexFiles_inv (files : list Workbook) :
  forall k sid sheet,
    In (sid, sheet) (indexFiles k files) ->
    exists i wb,
      fst sid = (k + i)%nat
      /\ nth_error files i = Some wb /\ nth_error wb (snd sid) = Some sheet.
Proof.
  induction files as [|wb0 files IH]; intros k sid sheet Hin; [contradiction|].
  cbn [indexFiles] in Hin. apply in_app_iff in Hin. destruct Hin as [Hin | Hin].
  - apply In_indexSheets_inv in Hin. destruct Hin as [Hi [j [Hj Hnth]]].
    exists 0%nat, wb0. repeat split; [lia | now rewrite Hj].
  - destruct (IH (S k) sid sheet Hin) as [i [wb [Hi [Hf Hs]]]].
    exists (S i), wb. repeat split; [lia | exact Hf | exact Hs].
Qed.

(** Every source row in the events of a sheet is a row of that sheet. *)
Lemma walkEvents_sources (sid : SheetId) (sheet : Worksheet) (t s : option Z)
  (lastRow : Z) (rowNums : list Z) (sigEmpty : bool) (src : SourceRow) :
  In src (copiedSources (walkEvents config sid sheet t s lastRow rowNums sigEmpty)) ->
  exists r, src = sourceRow sid sheet r.
Proof.
  induction rowNums as [|n rowNums IH]; [contradiction|].
  cbn [walkEvents].
  change (copiedSources (Scanned sid n :: ?l)) with (copiedSources l).
  destruct (rowAction config sheet t s n).
  - destruct (includeTotal config); [|exact IH].
    intros [<- | Hin]; [now exists n | now apply IH].
  - destruct (_ && _); [|contradiction].
    rewrite copiedSources_captures. contradiction.
  - exact IH.
  - intros [<- | Hin]; [now exists n | now apply IH].
Qed.

Lemma sheetEvents_sources (sid : SheetId) (sheet : Worksheet) (first sigEmpty : bool)
  (src : SourceRow) :
  In src (copiedSources (sheetEvents config sid sheet first sigEmpty)) ->
  exists r, src = sourceRow sid sheet r.
Proof.
  unfold sheetEvents. rewrite copiedSources_app, in_app_iff. intros [Hin | Hin].
  - destruct first; [|contradiction]. unfold headerEvents in Hin.
    rewrite <- (map_map (sourceRow sid sheet) (Copied Header)) in Hin.
    rewrite copiedSources_copies in Hin.
    apply in_map_iff in Hin. destruct Hin as [r [<- _]]. now exists r.
  - now apply walkEvents_sources in Hin.
Qed.

Lemma allEvents_sources (sheets : list (SheetId * Worksheet)) (src : SourceRow) :
  forall first sigEmpty,
    In src (copiedSources (allEvents config sheets first sigEmpty)) ->
    exists sid sheet r, In (sid, sheet) sheets /\ src = sourceRow sid sheet r.
Proof.
  induction sheets as [|[sid sheet] sheets IH]; intros first sigEmpty Hin;
    [contradiction|].
  cbn [allEvents] in Hin. rewrite copiedSources_app, in_app_iff in Hin.
  destruct Hin as [Hin | Hin].
  - apply sheetEvents_sources in Hin. destruct Hin as [r ->].
    exists sid, sheet, r. split; [now left | reflexivity].
  - destruct (IH _ _ Hin) as [sid' [sheet' [r [Hin' ->]]]].
    exists sid', sheet', r. split; [now right | reflexivity].
Qed.

Lemma firstSignatureBlock_sources (sheets : list (SheetId * Worksheet))
  (src : SourceRow) :
  In src (firstSignatureBlock config sheets) ->
  exists sid sheet r, In (sid, sheet) sheets /\ src = sourceRow sid sheet r.
Proof.
  unfold firstSignatureBlock.
  destruct (find (fun p => reachesSignature config (snd p)) sheets)
    as [[sid sheet]|] eqn:Hfind; [|contradiction].
  apply find_some in Hfind. destruct Hfind as [Hin _].
  unfold signatureBlock. intros Hsrc. apply in_map_iff in Hsrc.
  destruct Hsrc as [r [<- _]]. now exists sid, sheet, r.
Qed.

End OutputRows.

Lemma getCell_nil (c : Z) : getCell [] c = emptyCell.
Proof.
  unfold getCell. destruct (c <? 1); [reflexivity|].
  now destruct (Z.to_nat (c - 1)).
Qed.

Lemma getRow_map_nth_error {A : Type} (f : A -> Row) (l : list A) (k : nat) (x : A) :
  nth_error l k = Some x -> getRow (map f l) (Z.of_nat k + 1) = f x.
Proof.
  intros Hk. unfold getRow.
  replace (Z.of_nat k + 1 <? 1) with false by (symmetry; apply Z.ltb_ge; lia).
  replace (Z.to_nat (Z.of_nat k + 1 - 1)) with k by lia.
  apply nth_error_nth. now rewrite nth_error_map, Hk.
Qed.

(** X3. The output sheet of a merge has one row for each copy the merge
    makes, in the order of the copies, at the row numbers 1, 2, ... with
    the cursor one past the last.  The row of the [k]-th copy is the copy
    of its source row into a new row; for a header row this holds when
    the header of the first sheet has no merged range, which the merge
    would reproduce in the output.  Every source row copied is a row of a
    sheet of the input. *)
Theorem output_rows_are_copies_of_input_rows (files : list Workbook)
  (config : MergeConfig) (st : MergeState) :
  mergeExcelFiles files config = Some st ->
  targetRowNum st = 1 + Z.of_nat (length (worksheet st))
  /\ length (worksheet st) = length (copiedSources (trace st))
  /\ (forall k src,
         nth_error (copiedSources (trace st)) k = Some src ->
         rowAsCopied config files (Z.of_nat k + 1) ->
         getRow (worksheet st) (Z.of_nat k + 1) = render config src)
  /\ Forall (fun src =>
               exists i j wb sheet r,
                 nth_error files i = Some wb /\ nth_error wb j = Some sheet
                 /\ src = sourceRow (i, j) sheet r)
            (copiedSources (trace st)).
Proof.
  intros Hmerge.
  destruct (outputFollowsTrace_merge config files st Hmerge) as [Hrows Hcursor].
  split; [exact Hcursor|].
  split; [now rewrite Hrows, length_map|].
  split; [intros k src Hk _; rewrite Hrows; now apply getRow_map_nth_error|].
  destruct (merge_effect config files st Hmerge) as [Htrace _]. cbv zeta in Htrace.
  rewrite Htrace, copiedSources_app, copiedSources_copies.
  assert (Hplace : forall src,
             (exists sid sheet r,
                 In (sid, sheet) (indexFiles 0 files) /\ src = sourceRow sid sheet r) ->
             exists i j wb sheet r,
               nth_error files i = Some wb /\ nth_error wb j = Some sheet
               /\ src = sourceRow (i, j) sheet r).
  { intros src [[i j] [sheet [r [Hin ->]]]].
    apply In_indexFiles_inv in Hin. destruct Hin as [i' [wb [Hi [Hf Hs]]]].
    cbn [fst snd] in Hi, Hs. subst i.
    exists i', j, wb, sheet, r. auto. }
  apply Forall_forall. intros src Hin. apply Hplace.
  apply in_app_iff in Hin. destruct Hin as [Hin | Hin].
  - now apply (allEvents_sources config) in Hin.
  - destruct (includeSignature config); [|contradiction].
    now apply firstSignatureBlock_sources in Hin.
Qed.

Lemma output_rows_are_copies_of_input_rows_witness :
  let st := appendSignature defaultConfig
              (processFiles defaultConfig 0 [[deliverySheet]] initialState) in
  targetRowNum st = 7
  /\ getRow (worksheet st) 2
     = render defaultConfig (sourceRow (0%nat, 0%nat) deliverySheet 2).
Proof.
  destruct (output_rows_are_copies_of_input_rows
              [[deliverySheet]] defaultConfig _ eq_refl)
    as [Hcursor [_ [Hrow _]]].
  split; [exact Hcursor|].
  apply (Hrow 1%nat (sourceRow (0%nat, 0%nat) deliverySheet 2) eq_refl).
  left. vm_compute. discriminate.
Defined.

(** ** Header rows *)

Section HeaderRows.

Variable config : MergeConfig.

Lemma walkEvents_no_header_copy (sid : SheetId) (sheet : Worksheet)
  (t s : option Z) (lastRow : Z) (rowNums : list Z) (sigEmpty : bool) :
  forallb (fun e => negb (isHeaderCopy e))
          (walkEvents config sid sheet t s lastRow rowNums sigEmpty) = true.
Proof.
  induction rowNums as [|n rowNums IH]; [reflexivity|].
  cbn [walkEvents forallb isHeaderCopy negb andb].
  destruct (rowAction config sheet t s n).
  - destruct (includeTotal config); exact IH.
  - destruct (_ && _); [|reflexivity].
    rewrite forallb_forall. intros e He.
    apply in_map_iff in He. destruct He as [src [<- _]]. reflexivity.
  - exact IH.
  - exact IH.
Qed.

(** After the first sheet no header row is copied. *)
Lemma allEvents_no_header_copy (sheets : list (SheetId * Worksheet)) :
  forall sigEmpty,
    forallb (fun e => negb (isHeaderCopy e))
            (allEvents config sheets false sigEmpty) = true.
Proof.
  induction sheets as [|[sid sheet] sheets IH]; intros sigEmpty;
    cbn [allEvents]; [reflexivity|].
  rewrite forallb_app, IH, andb_true_r. unfold sheetEvents. cbn [app].
  apply walkEvents_no_header_copy.
Qed.

Lemma nth_zrange (a b : Z) (k : nat) (d : Z) :
  (k < Z.to_nat (b - a + 1))%nat -> nth k (zrange a b) d = a + Z.of_nat k.
Proof.
  intros Hk. unfold zrange.
  rewrite (nth_indep _ d (a + Z.of_nat 0)) by (now rewrite length_map, length_seq).
  rewrite (map_nth (fun k => a + Z.of_nat k)), seq_nth by assumption.
  reflexivity.
Qed.

Lemma length_zrange (a b : Z) : length (zrange a b) = Z.to_nat (b - a + 1).
Proof. unfold zrange. now rewrite length_map, length_seq. Qed.

Lemma getRow_app_left (l1 l2 : list Row) (r : Z) :
  1 <= r <= Z.of_nat (length l1) -> getRow (l1 ++ l2) r = getRow l1 r.
Proof.
  intros Hr. unfold getRow. destruct (r <? 1); [reflexivity|].
  apply app_nth1. lia.
Qed.

End HeaderRows.

(** X4. The first copies of a merge are those of the rows 1 to
    [startRow - 1] of the first sheet of the first file, in order, also
    when that sheet is shorter, and no other row is copied as a header
    row.  When the header of that sheet has no merged range, the rows 1
    to [startRow - 1] of the output sheet are these copies, row for
    row. *)
Theorem header_rows_come_from_first_sheet (files : list Workbook)
  (config : MergeConfig) (st : MergeState) (wb : Workbook) (sheet : Worksheet) :
  mergeExcelFiles files config = Some st ->
  nth_error files 0 = Some wb ->
  nth_error wb 0 = Some sheet ->
  (headerUnmerged config sheet = true ->
   forall r, 1 <= r < startRow config ->
             getRow (worksheet st) r
             = render config (sourceRow (0%nat, 0%nat) sheet r))
  /\ exists rest,
      trace st = headerEvents config (0%nat, 0%nat) sheet ++ rest
      /\ forallb (fun e => negb (isHeaderCopy e)) rest = true.
Proof.
  intros Hmerge Hfile Hsheet.
  destruct files as [|wb0 files]; [discriminate|]. injection Hfile as ->.
  destruct wb as [|sheet0 wb]; [discriminate|]. injection Hsheet as ->.
  destruct (merge_effect config _ st Hmerge) as [Htrace _]. cbv zeta in Htrace.
  cbn [indexFiles indexSheets app allEvents] in Htrace.
  unfold sheetEvents in Htrace. rewrite <- !app_assoc in Htrace.
  match type of Htrace with
  | _ = _ ++ ?tail => set (rest := tail) in *
  end.
  assert (Hrest : forallb (fun e => negb (isHeaderCopy e)) rest = true).
  { unfold rest. rewrite !forallb_app.
    rewrite walkEvents_no_header_copy, allEvents_no_header_copy. cbn [andb].
    rewrite forallb_forall. intros e He.
    apply in_map_iff in He. destruct He as [src [<- _]]. reflexivity. }
  split; [|exists rest; auto].
  intros _ r Hr.
  destruct (outputFollowsTrace_merge config _ st Hmerge) as [Hrows _].
  rewrite Hrows, Htrace, copiedSources_app, map_app.
  unfold headerEvents.
  rewrite <- (map_map (sourceRow (0%nat, 0%nat) sheet) (Copied Header)).
  rewrite copiedSources_copies.
  rewrite getRow_app_left by (rewrite !length_map, length_zrange; lia).
  unfold getRow. assert (E : (r <? 1) = false) by (apply Z.ltb_ge; lia). rewrite E.
  rewrite (nth_indep _ [] (render config (sourceRow (0%nat, 0%nat) sheet 0)))
    by (rewrite !length_map, length_zrange; lia).
  rewrite (map_nth (render config)).
  rewrite (map_nth (sourceRow (0%nat, 0%nat) sheet)).
  rewrite nth_zrange by lia. f_equal. f_equal. lia.
Qed.

Lemma header_rows_come_from_first_sheet_witness :
  getRow (worksheet (appendSignature defaultConfig
                       (processFiles defaultConfig 0
                          [[deliverySheet]; [titledSheet]] initialState))) 1
  = render defaultConfig (sourceRow (0%nat, 0%nat) deliverySheet 1).
Proof.
  apply (proj1 (header_rows_come_from_first_sheet
                  [[deliverySheet]; [titledSheet]] defaultConfig _
                  [deliverySheet] deliverySheet eq_refl eq_refl eq_refl)).
  - reflexivity.
  - vm_compute. split; [discriminate | reflexivity].
Defined.

(** ** Which rows of a sheet are copied *)

Section CopiedRows.

Variable config : MergeConfig.

(** The rows visited by a loop over [[a, b]] that stops at the first row
    passing [p]: the rows with no such row before them. *)
Lemma takeThrough_zrange_In (p : Z -> bool) (b r : Z) :
  forall a,
    In r (takeThrough p (zrange a b))
    <-> (a <= r <= b /\ forall q, a <= q < r -> p q = false).
Proof.
  intros a. remember (Z.to_nat (b - a + 1)) as n eqn:Hn.
  revert a Hn. induction n as [|n IH]; intros a Hn.
  - rewrite zrange_empty by lia. simpl. split; [contradiction | lia].
  - rewrite zrange_cons by lia. cbn [takeThrough].
    destruct (p a) eqn:Hpa.
    + split.
      * intros [<- | []]. split; [lia|]. intros q Hq. lia.
      * intros [Hr Hbefore]. left.
        destruct (Z.eq_dec a r) as [E | E]; [exact E|].
        rewrite (Hbefore a ltac:(lia)) in Hpa. discriminate.
    + cbn [In]. rewrite (IH (a + 1)) by lia. split.
      * intros [<- | [Hr Hbefore]].
        -- split; [lia|]. intros q Hq. lia.
        -- split; [lia|]. intros q Hq.
           destruct (Z.eq_dec q a) as [-> | E]; [exact Hpa | apply Hbefore; lia].
      * intros [Hr Hbefore].
        destruct (Z.eq_dec a r) as [E | E]; [now left | right].
        split; [lia|]. intros q Hq. apply Hbefore. lia.
Qed.

(** A visited row that takes the data branch is copied, and a visited total
    row is copied when totals are asked for. *)
Lemma copiedFrom_walk_data (sid : SheetId) (sheet : Worksheet) (t s : option Z)
  (lastRow : Z) (rowNums : list Z) (sigEmpty : bool) (r : Z) :
  In r (takeThrough (fun r => isSignatureAction (rowAction config sheet t s r)) rowNums) ->
  rowAction config sheet t s r = ActData ->
  In (Data, r) (copiedFrom sid (walkEvents config sid sheet t s lastRow rowNums sigEmpty)).
Proof.
  intros Hin Hact. induction rowNums as [|n rowNums IH]; [contradiction|].
  cbn [walkEvents takeThrough] in *. rewrite copiedFrom_cons_scanned.
  destruct (rowAction config sheet t s n) eqn:Hn; cbn [isSignatureAction] in Hin.
  - destruct Hin as [<- | Hin]; [congruence|].
    destruct (includeTotal config); [rewrite copiedFrom_cons_own; right|]; now apply IH.
  - destruct Hin as [<- | []]. congruence.
  - destruct Hin as [<- | Hin]; [congruence | now apply IH].
  - rewrite copiedFrom_cons_own. destruct Hin as [<- | Hin]; [now left | right; now apply IH].
Qed.

Lemma copiedFrom_walk_total (sid : SheetId) (sheet : Worksheet) (t s : option Z)
  (lastRow : Z) (rowNums : list Z) (sigEmpty : bool) (r : Z) :
  In r (takeThrough (fun r => isSignatureAction (rowAction config sheet t s r)) rowNums) ->
  rowAction config sheet t s r = ActTotal ->
  includeTotal config = true ->
  In (Total, r) (copiedFrom sid (walkEvents config sid sheet t s lastRow rowNums sigEmpty)).
Proof.
  intros Hin Hact Hinc. induction rowNums as [|n rowNums IH]; [contradiction|].
  cbn [walkEvents takeThrough] in *. rewrite copiedFrom_cons_scanned.
  destruct (rowAction config sheet t s n) eqn:Hn; cbn [isSignatureAction] in Hin.
  - rewrite Hinc, copiedFrom_cons_own.
    destruct Hin as [<- | Hin]; [now left | right; now apply IH].
  - destruct Hin as [<- | []]. congruence.
  - destruct Hin as [<- | Hin]; [congruence | now apply IH].
  - rewrite copiedFrom_cons_own.
    destruct Hin as [<- | Hin]; [congruence | right; now apply IH].
Qed.

(** What the loop copies from a sheet does not depend on the two flags of
    its turn, and is in the record of the merge. *)
Lemma merge_copiedFrom_walk (files : list Workbook) (st : MergeState)
  (i j : nat) (wb : Workbook) (sheet : Worksheet) (k : RowKind) (r : Z) :
  mergeExcelFiles files config = Some st ->
  nth_error files i = Some wb -> nth_error wb j = Some sheet ->
  (forall sigEmpty,
      In (k, r)
         (copiedFrom (i, j)
            (walkEvents config (i, j) sheet (findTotalRow sheet) (findSignatureRow sheet)
               (lastRowNumber sheet) (zrange (startRow config) (lastRowNumber sheet))
               sigEmpty))) ->
  In (k, r) (copiedFrom (i, j) (trace st)).
Proof.
  intros Hmerge Hfile Hsheet Hin.
  rewrite (mergeTrace_shape config files st Hmerge).
  rewrite copiedFrom_app, in_app_iff. left.
  rewrite <- copiedFrom_eventsOf.
  destruct (merge_sheet_events config files i j wb sheet Hfile Hsheet) as [first [e He]].
  rewrite He. unfold sheetEvents. rewrite copiedFrom_app, in_app_iff. right. apply Hin.
Qed.

Lemma isTotalRowNum_found (sheet : Worksheet) (r : Z) :
  isTotalRowNum (findTotalRow sheet) r = true <-> findTotalRow sheet = Some r.
Proof.
  split; [apply isTotalRowNum_true|].
  intros H. rewrite H. unfold isTotalRowNum.
  apply findTotalRow_some in H. destruct H as [[H1 _] _].
  rewrite Z.eqb_refl, andb_true_r. apply negb_true_iff, Z.eqb_neq. lia.
Qed.

Lemma inSignature_found (sheet : Worksheet) (r : Z) :
  inSignature (findSignatureRow sheet) r = true
  <-> exists s, findSignatureRow sheet = Some s /\ s <= r.
Proof.
  unfold inSignature. destruct (findSignatureRow sheet) as [s|] eqn:Hs.
  - apply findSignatureRow_some in Hs. destruct Hs as [[H1 _] _].
    rewrite andb_true_iff, negb_true_iff, Z.eqb_neq, Z.leb_le. split.
    + intros [_ H]. now exists s.
    + intros [s' [[= <-] H]]. split; [lia | exact H].
  - split; [discriminate | intros [s [H _]]; discriminate].
Qed.

Lemma stopsAt_false (sheet : Worksheet) (q : Z) :
  inSignature (findSignatureRow sheet) q = false -> stopsAt config sheet q = false.
Proof.
  intros H. unfold stopsAt, sheetRowAction, rowAction. rewrite H.
  destruct (isTotalRowNum _ q); [reflexivity|].
  destruct (_ && _); reflexivity.
Qed.

Lemma stopsAt_true (sheet : Worksheet) (q : Z) :
  isTotalRowNum (findTotalRow sheet) q = false ->
  inSignature (findSignatureRow sheet) q = true ->
  stopsAt config sheet q = true.
Proof.
  intros Ht Hs. unfold stopsAt, sheetRowAction, rowAction. now rewrite Ht, Hs.
Qed.

Lemma sheetRowAction_data (sheet : Worksheet) (r : Z) :
  sheetRowAction config sheet r = ActData
  <-> (isTotalRowNum (findTotalRow sheet) r = false
       /\ inSignature (findSignatureRow sheet) r = false
       /\ (includeTotal config = true
           \/ isSubtotalRow (getRow (rows sheet) r)
                (startColNum config) (endColNum config) = false)).
Proof.
  unfold sheetRowAction, rowAction.
  destruct (isTotalRowNum _ r); [split; [discriminate | intros [H _]; discriminate]|].
  destruct (inSignature _ r); [split; [discriminate | intros [_ [H _]]; discriminate]|].
  destruct (includeTotal config); cbn [negb andb].
  - split; auto.
  - destruct (isSubtotalRow _ _ _).
    + split; [discriminate | intros [_ [_ [H | H]]]; discriminate].
    + split; auto.
Qed.

End CopiedRows.

(** X5. In a merge that returns, a row [r] of an input sheet is copied as
    a data row exactly when it lies in [[startRow, lastRow]], is not the
    total row, comes before the signature row of the sheet if there is
    one, and is not a subtotal row unless totals are included.  The total
    row [r] is copied exactly when totals are included, [startRow <= r],
    and [r] is not past the signature row, or is row [startRow] itself. *)
Theorem copied_rows_of_a_sheet (files : list Workbook) (config : MergeConfig)
  (st : MergeState) (i j : nat) (wb : Workbook) (sheet : Worksheet) :
  mergeExcelFiles files config = Some st ->
  nth_error files i = Some wb ->
  nth_error wb j = Some sheet ->
  (forall r,
      In (Data, r) (copiedFrom (i, j) (trace st))
      <-> (startRow config <= r <= lastRowNumber sheet
           /\ findTotalRow sheet <> Some r
           /\ (forall s, findSignatureRow sheet = Some s -> r < s)
           /\ (includeTotal config = true
               \/ isSubtotalRow (getRow (rows sheet) r)
                    (startColNum config) (endColNum config) = false)))
  /\ (forall r,
         In (Total, r) (copiedFrom (i, j) (trace st))
         <-> (includeTotal config = true
              /\ findTotalRow sheet = Some r
              /\ startRow config <= r
              /\ (forall s, findSignatureRow sheet = Some s ->
                            r <= s \/ r = startRow config))).
Proof.
  intros Hmerge Hfile Hsheet.
  assert (Hcopy := fun k r =>
                     merge_copiedFrom config files st i j wb sheet k r
                       Hmerge Hfile Hsheet).
  split; intros r; split.
  - (* a copied data row *)
    intros Hin. apply Hcopy in Hin.
    destruct Hin as [H | [[H _] | [Hin [[H _] | [_ Hact]]]]]; try discriminate.
    apply takeThrough_In, in_zrange in Hin.
    apply sheetRowAction_data in Hact. destruct Hact as [Ht [Hs Hsub]].
    split; [exact Hin|]. split; [|split; [|exact Hsub]].
    + intros Hfound. apply (isTotalRowNum_found sheet r) in Hfound. congruence.
    + intros s Hfs. destruct (Z.lt_ge_cases r s) as [Hlt | Hge]; [exact Hlt|].
      assert (Htrue : inSignature (findSignatureRow sheet) r = true)
        by (apply inSignature_found; now exists s).
      congruence.
  - (* a data row that is copied *)
    intros [Hr [Ht [Hs Hsub]]].
    apply (merge_copiedFrom_walk config files st i j wb sheet Data r
             Hmerge Hfile Hsheet).
    intros sigEmpty.
    assert (Hnosig : forall q, q <= r -> inSignature (findSignatureRow sheet) q = false).
    { intros q Hq. destruct (inSignature (findSignatureRow sheet) q) eqn:E; [|reflexivity].
      apply inSignature_found in E. destruct E as [s [Hfs Hsq]].
      specialize (Hs s Hfs). lia. }
    apply copiedFrom_walk_data.
    + apply takeThrough_zrange_In. split; [exact Hr|].
      intros q Hq. apply (stopsAt_false config sheet q). apply Hnosig. lia.
    + apply sheetRowAction_data. split; [|split; [|exact Hsub]].
      * destruct (isTotalRowNum (findTotalRow sheet) r) eqn:E; [|reflexivity].
        apply isTotalRowNum_found in E. contradiction.
      * apply Hnosig. lia.
  - (* a copied total row *)
    intros Hin. apply Hcopy in Hin.
    destruct Hin as [H | [[H _] | [Hin [[_ [Hact Hinc]] | [H _]]]]]; try discriminate.
    apply sheetRowAction_total in Hact.
    apply (takeThrough_zrange_In (stopsAt config sheet)) in Hin.
    destruct Hin as [Hr Hbefore].
    split; [exact Hinc|]. split; [exact Hact|]. split; [lia|].
    intros s Hfs.
    destruct (Z.le_gt_cases r s) as [Hle | Hgt]; [now left | right].
    destruct (Z.eq_dec r (startRow config)) as [E | E]; [exact E | exfalso].
    assert (Hq : startRow config <= Z.max s (startRow config) < r) by lia.
    specialize (Hbefore _ Hq).
    rewrite stopsAt_true in Hbefore; [discriminate | |].
    + destruct (isTotalRowNum (findTotalRow sheet) (Z.max s (startRow config))) eqn:E1;
        [|reflexivity].
      apply isTotalRowNum_found in E1. rewrite Hact in E1. injection E1. lia.
    + apply inSignature_found. exists s. split; [exact Hfs | lia].
  - (* a total row that is copied *)
    intros [Hinc [Ht [Hstart Hs]]].
    apply (merge_copiedFrom_walk config files st i j wb sheet Total r
             Hmerge Hfile Hsheet).
    intros sigEmpty.
    destruct (findTotalRow_some sheet r Ht) as [[_ Hlast] _].
    apply copiedFrom_walk_total; [|apply rowAction_total; now apply isTotalRowNum_found
                                 |exact Hinc].
    apply takeThrough_zrange_In. split; [lia|].
    intros q Hq. apply (stopsAt_false config sheet q).
    destruct (inSignature (findSignatureRow sheet) q) eqn:E; [|reflexivity].
    apply inSignature_found in E. destruct E as [s [Hfs Hsq]].
    destruct (Hs s Hfs); lia.
Qed.

Lemma copied_rows_of_a_sheet_witness :
  In (Data, 3) (copiedFrom (1%nat, 0%nat)
                  (mergeTrace [[deliverySheet]; [deliverySheet]] defaultConfig)).
Proof.
  apply (proj1 (copied_rows_of_a_sheet
                  [[deliverySheet]; [deliverySheet]] defaultConfig _ 1 0
                  [deliverySheet] deliverySheet eq_refl eq_refl eq_refl) 3).
  split; [vm_compute; split; discriminate|].
  split; [vm_compute; discriminate|].
  split; [|left; reflexivity].
  intros s Hs. vm_compute in Hs. injection Hs as <-. reflexivity.
Defined.

(** ** A merge without the signature section *)

(** The kinds under which a row of a sheet can be copied. *)
Lemma merge_signature_copies_or_other (config : MergeConfig) (files : list Workbook)
  (st : MergeState) (i j : nat) (wb : Workbook) (sheet : Worksheet)
  (k : RowKind) (r : Z) :
  mergeExcelFiles files config = Some st ->
  nth_error files i = Some wb -> nth_error wb j = Some sheet ->
  In (k, r) (copiedFrom (i, j) (trace st)) ->
  k = Signature
  \/ (k = Header /\ 1 <= r < startRow config)
  \/ k = Total
  \/ (k = Data /\ sheetRowAction config sheet r = ActData).
Proof.
  intros Hmerge Hfile Hsheet Hin.
  apply (merge_copiedFrom config files st i j wb sheet k r Hmerge Hfile Hsheet) in Hin.
  destruct Hin as [H | [H | [_ [[H _] | H]]]]; auto.
Qed.

(** X6. Without [includeSignature] no row is kept for the signature and no
    row is copied as a signature row; a row of a sheet whose number is at
    least that of the signature row of the sheet reaches the output only
    as the total row, or as a header row of the first sheet. *)
Theorem signature_section_is_dropped (files : list Workbook)
  (config : MergeConfig) (st : MergeState) :
  includeSignature config = false ->
  mergeExcelFiles files config = Some st ->
  signatureRowsToAdd st = []
  /\ capturedRows (trace st) = []
  /\ forallb (fun e => negb (isSignatureCopy e)) (trace st) = true
  /\ (forall i j wb sheet s k r,
         nth_error files i = Some wb -> nth_error wb j = Some sheet ->
         findSignatureRow sheet = Some s ->
         In (k, r) (copiedFrom (i, j) (trace st)) ->
         s <= r ->
         k = Total \/ (k = Header /\ r < startRow config)).
Proof.
  intros Hoff Hmerge.
  destruct (merge_effect config files st Hmerge) as [Htrace Hsigs].
  cbv zeta in Htrace, Hsigs. rewrite Hoff in Htrace, Hsigs.
  cbn [map] in Htrace. rewrite app_nil_r in Htrace.
  split; [exact Hsigs|]. split; [|split].
  - rewrite Htrace, capturedRows_all, Hoff. reflexivity.
  - rewrite Htrace. apply allEvents_no_signature_copy.
  - intros i j wb sheet s k r Hfile Hsheet Hs Hin Hsr.
    destruct (merge_signature_copies_or_other config files st i j wb sheet k r
                Hmerge Hfile Hsheet Hin) as [-> | [[-> Hr] | [-> | [-> Hact]]]].
    + exfalso.
      destruct (merge_signature_copies config files st i j wb sheet s r
                  Hmerge Hfile Hsheet Hs Hin) as [Hon _].
      congruence.
    + right. split; [reflexivity | lia].
    + now left.
    + exfalso. apply sheetRowAction_data in Hact. destruct Hact as [_ [Hnosig _]].
      assert (Hyes : inSignature (findSignatureRow sheet) r = true)
        by (apply inSignature_found; now exists s).
      congruence.
Qed.

Lemma signature_section_is_dropped_witness :
  copiedLog (mergeTrace [[deliverySheet]]
               (mkConfig true 2 (js "A") (js "Z") false))
  = [ (Header, (0%nat, 0%nat), 1); (Data, (0%nat, 0%nat), 2);
      (Data, (0%nat, 0%nat), 3); (Total, (0%nat, 0%nat), 4) ]
  /\ signatureRowsToAdd
       (appendSignature (mkConfig true 2 (js "A") (js "Z") false)
          (processFiles (mkConfig true 2 (js "A") (js "Z") false) 0
             [[deliverySheet]] initialState)) = [].
Proof.
  split; [vm_compute; reflexivity|].
  exact (proj1 (signature_section_is_dropped
                  [[deliverySheet]] (mkConfig true 2 (js "A") (js "Z") false) _
                  eq_refl eq_refl)).
Defined.

(** ** The order of the output rows *)

Section OutputOrder.

Variable config : MergeConfig.

Lemma StronglySorted_app {A : Type} (R : A -> A -> Prop) (l1 l2 : list A) :
  StronglySorted R l1 -> StronglySorted R l2 ->
  (forall x y, In x l1 -> In y l2 -> R x y) ->
  StronglySorted R (l1 ++ l2).
Proof.
  induction l1 as [|a l1 IH]; intros H1 H2 H12; [exact H2|].
  inversion H1 as [|? ? Hs Hf]; subst. cbn [app]. constructor.
  - apply IH; [assumption | assumption |].
    intros x y Hx Hy. apply H12; [now right | assumption].
  - apply Forall_app. split; [assumption|].
    apply Forall_forall. intros y Hy. apply H12; [now left | assumption].
Qed.

Lemma StronglySorted_map_lt {A : Type} (R : A -> A -> Prop) (f : Z -> A) (l : list Z) :
  (forall x y, x < y -> R (f x) (f y)) ->
  StronglySorted Z.lt l -> StronglySorted R (map f l).
Proof.
  intros Hmono. induction 1 as [|a l Hs IH Hf]; cbn [map]; constructor.
  - exact IH.
  - apply Forall_forall. intros y Hy. apply in_map_iff in Hy.
    destruct Hy as [x [<- Hx]]. apply Hmono.
    rewrite Forall_forall in Hf. now apply Hf.
Qed.

Lemma zrange_sorted (b : Z) : forall a, StronglySorted Z.lt (zrange a b).
Proof.
  intros a. remember (Z.to_nat (b - a + 1)) as n eqn:Hn.
  revert a Hn. induction n as [|n IH]; intros a Hn.
  - rewrite zrange_empty by lia. constructor.
  - rewrite zrange_cons by lia. constructor.
    + apply IH. lia.
    + apply Forall_forall. intros y Hy. apply in_zrange in Hy. lia.
Qed.

Lemma copyKeys_app (a b : list Event) :
  copyKeys (a ++ b) = copyKeys a ++ copyKeys b.
Proof. apply flat_map_app. Qed.

Lemma copyKeys_copies (kind : RowKind) (srcs : list SourceRow) :
  copyKeys (map (Copied kind) srcs)
  = map (fun src => (src_sheet src, src_number src)) srcs.
Proof.
  induction srcs as [|src srcs IH]; [reflexivity|].
  cbn [map]. unfold copyKeys in *. cbn [flat_map app]. now rewrite IH.
Qed.

Lemma copyKeys_captures (srcs : list SourceRow) :
  copyKeys (map Captured srcs) = [].
Proof. induction srcs; [reflexivity | assumption]. Qed.

(** The rows copied by the data loop, in the order of the copies, have
    increasing numbers, taken from the rows of the loop. *)
Lemma walk_keys_sorted (sid : SheetId) (sheet : Worksheet) (t s : option Z)
  (lastRow : Z) (rowNums : list Z) (sigEmpty : bool) :
  StronglySorted Z.lt rowNums ->
  StronglySorted keyLt
    (copyKeys (walkEvents config sid sheet t s lastRow rowNums sigEmpty))
  /\ Forall (fun key => fst key = sid /\ In (snd key) rowNums)
       (copyKeys (walkEvents config sid sheet t s lastRow rowNums sigEmpty)).
Proof.
  induction 1 as [|n rowNums Hs IH Hf]; [split; constructor|].
  destruct IH as [IHs IHf].
  assert (Hweak : Forall (fun key : SheetId * Z => fst key = sid /\ In (snd key) (n :: rowNums))
                    (copyKeys (walkEvents config sid sheet t s lastRow rowNums sigEmpty))).
  { eapply Forall_impl; [|exact IHf]. intros key [H1 H2]. split; [exact H1 | now right]. }
  assert (Hcons : StronglySorted keyLt
                    ((sid, n) :: copyKeys (walkEvents config sid sheet t s lastRow
                                             rowNums sigEmpty))).
  { constructor; [exact IHs|].
    rewrite Forall_forall in IHf, Hf |- *. intros key Hkey.
    destruct (IHf key Hkey) as [H1 H2]. right. cbn [fst snd].
    split; [now rewrite H1 | now apply Hf]. }
  cbn [walkEvents].
  change (copyKeys (Scanned sid n :: ?l)) with (copyKeys l).
  destruct (rowAction config sheet t s n).
  - destruct (includeTotal config); [|split; assumption].
    split; [exact Hcons|]. constructor; [split; [reflexivity | now left] | exact Hweak].
  - destruct (_ && _); [rewrite copyKeys_captures|]; split; constructor.
  - split; assumption.
  - split; [exact Hcons|]. constructor; [split; [reflexivity | now left] | exact Hweak].
Qed.

Lemma sheet_keys_sorted (sid : SheetId) (sheet : Worksheet) (first sigEmpty : bool) :
  StronglySorted keyLt (copyKeys (sheetEvents config sid sheet first sigEmpty))
  /\ Forall (fun key => fst key = sid)
       (copyKeys (sheetEvents config sid sheet first sigEmpty)).
Proof.
  unfold sheetEvents. rewrite copyKeys_app.
  destruct (walk_keys_sorted sid sheet (findTotalRow sheet) (findSignatureRow sheet)
              (lastRowNumber sheet) (zrange (startRow config) (lastRowNumber sheet))
              sigEmpty (zrange_sorted _ _)) as [Hws Hwf].
  assert (Hh : copyKeys (if first then headerEvents config sid sheet else [])
               = map (fun r => (sid, r))
                   (if first then zrange 1 (startRow config - 1) else [])).
  { destruct first; [|reflexivity]. unfold headerEvents.
    rewrite <- (map_map (sourceRow sid sheet) (Copied Header)).
    rewrite copyKeys_copies, map_map. reflexivity. }
  rewrite Hh. split.
  - apply StronglySorted_app.
    + apply StronglySorted_map_lt.
      * intros x y Hxy. right. auto.
      * destruct first; [apply zrange_sorted | constructor].
    + exact Hws.
    + intros x y Hx Hy. apply in_map_iff in Hx. destruct Hx as [r [<- Hr]].
      rewrite Forall_forall in Hwf. destruct (Hwf y Hy) as [H1 H2].
      right. cbn [fst snd]. split; [now rewrite H1|].
      apply in_zrange in H2.
      destruct first; [apply in_zrange in Hr; lia | contradiction].
  - apply Forall_app. split.
    + apply Forall_forall. intros x Hx. apply in_map_iff in Hx.
      destruct Hx as [r [<- _]]. reflexivity.
    + eapply Forall_impl; [|exact Hwf]. intros key [H _]. exact H.
Qed.

Lemma all_keys_sorted (sheets : list (SheetId * Worksheet)) :
  StronglySorted sidLt (map fst sheets) ->
  forall first sigEmpty,
    StronglySorted keyLt (copyKeys (allEvents config sheets first sigEmpty))
    /\ Forall (fun key => In (fst key) (map fst sheets))
         (copyKeys (allEvents config sheets first sigEmpty)).
Proof.
  induction sheets as [|[sid sheet] sheets IH]; intros Hsorted first sigEmpty;
    [split; constructor|].
  cbn [map fst] in Hsorted. inversion Hsorted as [|? ? Hs Hf]; subst.
  cbn [allEvents]. rewrite copyKeys_app.
  destruct (sheet_keys_sorted sid sheet first sigEmpty) as [Hss Hsf].
  destruct (IH Hs false (sigEmpty && negb (captures config sheet sigEmpty)))
    as [Hrs Hrf].
  split.
  - apply StronglySorted_app; [exact Hss | exact Hrs |].
    intros x y Hx Hy. rewrite Forall_forall in Hsf, Hrf, Hf.
    left. rewrite (Hsf x Hx). apply Hf. now apply Hrf.
  - apply Forall_app. split.
    + eapply Forall_impl; [|exact Hsf]. intros key H. left. now rewrite H.
    + eapply Forall_impl; [|exact Hrf]. intros key H. now right.
Qed.

Lemma indexSheets_sorted (i : nat) (sheets : list Worksheet) :
  forall j, StronglySorted sidLt (map fst (indexSheets i j sheets)).
Proof.
  induction sheets as [|sheet sheets IH]; intros j; cbn [indexSheets map fst];
    constructor.
  - apply IH.
  - apply Forall_forall. intros sid Hsid. apply indexSheets_place in Hsid.
    right. cbn [fst snd]. lia.
Qed.

Lemma indexFiles_sorted (files : list Workbook) :
  forall k, StronglySorted sidLt (map fst (indexFiles k files)).
Proof.
  induction files as [|wb files IH]; intros k; cbn [indexFiles]; [constructor|].
  rewrite map_app. apply StronglySorted_app.
  - apply indexSheets_sorted.
  - apply IH.
  - intros x y Hx Hy. apply indexSheets_place in Hx. apply indexFiles_place in Hy.
    left. lia.
Qed.

End OutputOrder.

(** X7. Before the signature section the rows of the output come in the
    order of the input: by file, then by sheet, then by row number, with
    strictly increasing positions, so that no row is copied twice there.
    The signature rows that follow are in the order of their row numbers. *)
Theorem output_follows_input_order (files : list Workbook) (config : MergeConfig)
  (st : MergeState) :
  mergeExcelFiles files config = Some st ->
  exists body,
    trace st = body ++ map (Copied Signature) (signatureRowsToAdd st)
    /\ StronglySorted keyLt (copyKeys body)
    /\ StronglySorted keyLt
         (map (fun src => (src_sheet src, src_number src)) (signatureRowsToAdd st)).
Proof.
  intros Hmerge.
  destruct (merge_effect config files st Hmerge) as [Htrace Hsigs].
  cbv zeta in Htrace, Hsigs.
  exists (allEvents config (indexFiles 0 files) true true).
  split; [now rewrite Hsigs|]. split.
  - apply all_keys_sorted. apply indexFiles_sorted.
  - rewrite Hsigs. destruct (includeSignature config); [|constructor].
    unfold firstSignatureBlock.
    destruct (find _ _) as [[sid sheet]|]; [|constructor].
    unfold signatureBlock. rewrite map_map. cbn [sourceRow src_sheet src_number].
    apply StronglySorted_map_lt; [|apply zrange_sorted].
    intros x y Hxy. right. auto.
Qed.

Lemma output_follows_input_order_witness :
  exists body,
    mergeTrace [[deliverySheet]; [deliverySheet]] defaultConfig
    = body ++ map (Copied Signature) (signatureBlock (0%nat, 0%nat) deliverySheet)
    /\ StronglySorted keyLt (copyKeys body).
Proof.
  destruct (output_follows_input_order
              [[deliverySheet]; [deliverySheet]] defaultConfig _ eq_refl)
    as [body [Htrace [Hsorted _]]].
  exists body. split; [exact Htrace | exact Hsorted].
Defined.

(** ** The width of the window and the subtotal test *)

Lemma countClass_partition (cells : list Cell) :
  countClass EmptyClass cells + countClass NumericClass cells
  + countClass TextClass cells = Z.of_nat (length cells).
Proof.
  induction cells as [|c cells IH]; [reflexivity|].
  rewrite !countClass_cons. cbn [length].
  destruct (cellClass c); cbn [CellClass_eqb]; lia.
Qed.

Lemma length_windowCells (row : Row) (startCol endCol : Z) :
  Z.of_nat (length (windowCells row startCol endCol))
  = Z.max 0 (endCol - startCol + 1).
Proof. unfold windowCells. rewrite length_map, length_zrange. lia. Qed.

(** X8. A row passes the subtotal test only in a window of at least four
    columns; its numeric cells are then at most three tenths of the
    window and every other cell of the window is empty.  In a window of
    fewer than four columns no row is a subtotal row. *)
Theorem subtotal_needs_four_columns (row : Row) (startCol endCol : Z) :
  (isSubtotalRow row startCol endCol = true ->
   let cells := windowCells row startCol endCol in
   4 <= endCol - startCol + 1
   /\ 10 * countClass NumericClass cells <= 3 * (endCol - startCol + 1)
   /\ countClass EmptyClass cells + countClass NumericClass cells
      = endCol - startCol + 1)
  /\ (endCol - startCol + 1 < 4 -> isSubtotalRow row startCol endCol = false).
Proof.
  assert (Hmain : isSubtotalRow row startCol endCol = true ->
                  4 <= endCol - startCol + 1
                  /\ 10 * countClass NumericClass (windowCells row startCol endCol)
                     <= 3 * (endCol - startCol + 1)
                  /\ countClass EmptyClass (windowCells row startCol endCol)
                     + countClass NumericClass (windowCells row startCol endCol)
                     = endCol - startCol + 1).
  { unfold isSubtotalRow. cbv zeta. rewrite subtotalCounts_classes.
    cbn [emptyCellCount numericCellCount textCellCount].
    rewrite !andb_true_iff, !Z.leb_le, Z.eqb_eq.
    intros [[[Hratio Hone] Hthree] Htext].
    pose proof (countClass_partition (windowCells row startCol endCol)) as Hsum.
    rewrite length_windowCells in Hsum.
    pose proof (countClass_nonneg EmptyClass (windowCells row startCol endCol)) as He.
    unfold ratioAtLeast07 in Hratio.
    destruct (0 <? endCol - startCol + 1) eqn:Hpos.
    - apply Z.ltb_lt in Hpos. apply Z.leb_le in Hratio. lia.
    - apply Z.ltb_ge in Hpos. lia. }
  split; [exact Hmain|].
  intros Hnarrow. destruct (isSubtotalRow row startCol endCol) eqn:Hsub; [|reflexivity].
  destruct (Hmain eq_refl) as [Hwide _]. lia.
Qed.

Lemma subtotal_needs_four_columns_witness :
  10 * countClass NumericClass
         (windowCells [ emptyCell; emptyCell; emptyCell; numCell "12" ] 1 4)
  <= 3 * (4 - 1 + 1)
  /\ isSubtotalRow [ emptyCell; emptyCell; numCell "12" ] 1 3 = false.
Proof.
  split.
  - apply (proj1 (subtotal_needs_four_columns
                    [ emptyCell; emptyCell; emptyCell; numCell "12" ] 1 4)).
    reflexivity.
  - apply (proj2 (subtotal_needs_four_columns
                    [ emptyCell; emptyCell; numCell "12" ] 1 3)).
    lia.
Defined.

(** ** The signature row *)

Lemma startsWith_iff (k s : jsstring) :
  startsWith k s = true <-> exists b, s = k ++ b.
Proof.
  revert s. induction k as [|a k IH]; intros s.
  - split; [intros _; now exists s | reflexivity].
  - destruct s as [|c s]; cbn [startsWith].
    + split; [discriminate | intros [b Hb]; discriminate].
    + rewrite andb_true_iff, Z.eqb_eq, IH. split.
      * intros [-> [b ->]]. now exists b.
      * intros [b Hb]. cbn [app] in Hb. injection Hb as -> ->.
        split; [reflexivity | now exists b].
Qed.

Lemma includes_iff (s k : jsstring) :
  includes s k = true <-> exists a b, s = a ++ k ++ b.
Proof.
  induction s as [|c s IH].
  - cbn [includes]. rewrite orb_false_r, startsWith_iff. split.
    + intros [b Hb]. now exists [], b.
    + intros [a [b Hab]]. destruct a; [now exists b | discriminate].
  - cbn [includes]. rewrite orb_true_iff, startsWith_iff, IH. split.
    + intros [[b Hb] | [a [b Hab]]].
      * now exists [], b.
      * exists (c :: a), b. now rewrite Hab.
    + intros [[|a0 a] [b Hab]].
      * left. now exists b.
      * right. cbn [app] in Hab. injection Hab as -> ->. now exists a, b.
Qed.

Lemma includes_trans (s k1 k2 : jsstring) :
  includes s k1 = true -> includes k1 k2 = true -> includes s k2 = true.
Proof.
  rewrite !includes_iff. intros [a [b ->]] [a' [b' ->]].
  exists (a ++ a'), (b' ++ b). now rewrite <- !app_assoc.
Qed.

Lemma includes_nil_left (k : jsstring) : k <> [] -> includes [] k = false.
Proof. destruct k; [congruence | reflexivity]. Qed.

(** Every keyword of the list contains one of the four short ones, which
    are keywords themselves. *)
Lemma signatureKeywords_short (text : jsstring) :
  existsb (includes text) signatureKeywords
  = existsb (includes text) shortSignatureKeywords.
Proof.
  apply eq_true_iff_eq. rewrite !existsb_exists. split.
  - intros [k [Hk Hin]].
    assert (Hshort : exists k', In k' shortSignatureKeywords /\ includes k k' = true).
    { unfold signatureKeywords in Hk. cbn [In] in Hk.
      destruct Hk as [<-|[<-|[<-|[<-|[<-|[<-|[]]]]]]].
      - exists (js "người lập phiếu"). split; [cbn; tauto | reflexivity].
      - exists (js "người nhận"). split; [cbn; tauto | reflexivity].
      - exists (js "signature"). split; [cbn; tauto | reflexivity].
      - exists (js "chữ ký"). split; [cbn; tauto | reflexivity].
      - exists (js "signature"). split; [cbn; tauto | reflexivity].
      - exists (js "chữ ký"). split; [cbn; tauto | reflexivity]. }
    destruct Hshort as [k' [Hk' Hinc]]. exists k'.
    split; [exact Hk' | exact (includes_trans _ _ _ Hin Hinc)].
  - intros [k [Hk Hin]]. exists k. split; [|exact Hin].
    unfold shortSignatureKeywords in Hk. cbn [In] in Hk.
    unfold signatureKeywords. cbn [In]. tauto.
Qed.

(** X9. [findSignatureRow] returns the smallest row number whose row holds
    a cell with a signature keyword in its trimmed, lower-cased text, a
    number between 1 and the last row, and nothing when no row has such a
    cell.  Two of the six keywords are redundant: a cell counts exactly
    when its text contains one of the four short keywords.  The text is
    lower-cased as a whole: a keyword written with the Kelvin sign U+212A
    for its letter k is found. *)
Theorem findSignatureRow_smallest_match (ws : Worksheet) :
  (forall r,
      findSignatureRow ws = Some r
      <-> (rowHasSignature (getRow (rows ws) r) = true
           /\ forall r', r' < r -> rowHasSignature (getRow (rows ws) r') = false))
  /\ (findSignatureRow ws = None
      <-> forall r, rowHasSignature (getRow (rows ws) r) = false)
  /\ (forall r, findSignatureRow ws = Some r -> 1 <= r <= lastRowNumber ws)
  /\ (forall c,
         isSignatureCell c = true
         <-> exists t, cellText c = Some t
                       /\ existsb (includes (toLowerCase t)) shortSignatureKeywords
                          = true)
  /\ findSignatureRow
       (mkWorksheet (js "Sheet1")
          [ [textCell "a"];
            [plain (VString (js "chữ " ++ [8490] ++ js "ý"))] ]) = Some 2.
Proof.
  split; [|split; [|split; [|split]]]; [| | | |vm_compute; reflexivity].
  - intros r. apply findSignatureRow_iff.
  - apply (first_match_none_iff _ _ findSignatureRow_step_none
             findSignatureRow_step_found).
    reflexivity.
  - intros r Hr. now apply findSignatureRow_some in Hr.
  - intros c. unfold isSignatureCell. destruct (cellText c) as [t|].
    + cbv zeta. rewrite signatureKeywords_short. split.
      * intros H. apply andb_true_iff in H. exists t. now split.
      * intros [t' [[= <-] Hk]]. rewrite Hk, andb_true_r.
        destruct (toLowerCase t) as [|u l]; [|reflexivity].
        apply existsb_exists in Hk. destruct Hk as [k [Hk Hin]].
        rewrite includes_nil_left in Hin; [discriminate|].
        unfold shortSignatureKeywords in Hk. cbn [In] in Hk.
        destruct Hk as [<-|[<-|[<-|[<-|[]]]]]; discriminate.
    + split; [discriminate | intros [t [Ht _]]; discriminate].
Qed.

(** ** The cells of the output *)

(** X10. The cell of the output at a column of the window holds the
    extracted value of the source cell of the same column of the row it
    was copied from, with the font, fill, alignment and border of that
    cell and with its number format unless that is the empty string; it
    is not part of a merged range.  For a header row this holds when the
    header of the first sheet has no merged range. *)
Theorem output_cells_keep_value_and_style (files : list Workbook)
  (config : MergeConfig) (st : MergeState) (k : nat) (src : SourceRow) (c : Z) :
  mergeExcelFiles files config = Some st ->
  nth_error (copiedSources (trace st)) k = Some src ->
  rowAsCopied config files (Z.of_nat k + 1) ->
  startColNum config <= c <= endColNum config ->
  1 <= c ->
  let source := getCell (src_cells src) c in
  let target := getCell (getRow (worksheet st) (Z.of_nat k + 1)) c in
  value target = extractSafeCellValue source
  /\ merged target = false
  /\ font target = font source
  /\ fill target = fill source
  /\ alignment target = alignment source
  /\ border target = border source
  /\ numFmt target = (if truthyString (numFmt source) then numFmt source else None).
Proof.
  intros Hmerge Hk _ Hc H1. cbv zeta.
  destruct (outputFollowsTrace_merge config files st Hmerge) as [Hrows _].
  rewrite Hrows, (getRow_map_nth_error (render config) _ k src Hk).
  unfold render. rewrite (copyRow_inside _ _ _ _ c Hc H1), getCell_nil.
  unfold copyCell.
  destruct (extractSafeCellValue (getCell (src_cells src) c));
    cbn [merged value font fill alignment border numFmt emptyCell];
    repeat split;
    try (now destruct (font (getCell (src_cells src) c)));
    try (now destruct (fill (getCell (src_cells src) c)));
    try (now destruct (alignment (getCell (src_cells src) c)));
    try (now destruct (border (getCell (src_cells src) c))).
Qed.

Lemma output_cells_keep_value_and_style_witness :
  let target :=
    getCell (getRow (worksheet (appendSignature defaultConfig
                                  (processFiles defaultConfig 0 [[styledSheet]]
                                     initialState))) 1) 2 in
  value target = VNumber (mkNumber (js "10")) /\ numFmt target = Some (js "0.00").
Proof.
  destruct (output_cells_keep_value_and_style [[styledSheet]] defaultConfig _ 0
              (sourceRow (0%nat, 0%nat) styledSheet 1) 2 eq_refl eq_refl)
    as [Hvalue [_ [_ [_ [_ [_ Hfmt]]]]]].
  - right. reflexivity.
  - vm_compute. split; discriminate.
  - lia.
  - split; [exact Hvalue | exact Hfmt].
Defined.

(** ** Merging more files *)

Section MoreFiles.

Variable config : MergeConfig.

Lemma indexFiles_app (files more : list Workbook) :
  forall k,
    indexFiles k (files ++ more)
    = indexFiles k files ++ indexFiles (k + length files) more.
Proof.
  induction files as [|wb files IH]; intros k; cbn [app indexFiles length].
  - now rewrite Nat.add_0_r.
  - rewrite IH, app_assoc. do 2 f_equal. lia.
Qed.

(** The events of the first sheets of a list do not depend on the sheets
    that follow. *)
Lemma allEvents_app (l1 l2 : list (SheetId * Worksheet)) :
  forall first sigEmpty,
  exists first' sigEmpty',
    allEvents config (l1 ++ l2) first sigEmpty
    = allEvents config l1 first sigEmpty ++ allEvents config l2 first' sigEmpty'.
Proof.
  induction l1 as [|[sid sheet] l1 IH]; intros first sigEmpty.
  - now exists first, sigEmpty.
  - cbn [app allEvents].
    destruct (IH false (sigEmpty && negb (captures config sheet sigEmpty)))
      as [first' [sigEmpty' Heq]].
    exists first', sigEmpty'. now rewrite Heq, app_assoc.
Qed.

Lemma firstSignatureBlock_app (l1 l2 : list (SheetId * Worksheet)) :
  firstSignatureBlock config l1 <> [] ->
  firstSignatureBlock config (l1 ++ l2) = firstSignatureBlock config l1.
Proof.
  unfold firstSignatureBlock. intros Hblock.
  induction l1 as [|[sid sheet] l1 IH]; [now contradiction Hblock|].
  cbn [app find snd] in *.
  destruct (reachesSignature config sheet); [reflexivity | now apply IH].
Qed.

Lemma merge_copied_split (files : list Workbook) (st : MergeState) :
  mergeExcelFiles files config = Some st ->
  copiedSources (trace st)
  = copiedSources (allEvents config (indexFiles 0 files) true true)
    ++ signatureRowsToAdd st.
Proof.
  intros Hmerge. destruct (merge_effect config files st Hmerge) as [Htrace Hsigs].
  cbv zeta in Htrace, Hsigs.
  now rewrite Htrace, copiedSources_app, copiedSources_copies, Hsigs.
Qed.

End MoreFiles.

(** X11. Files added at the end of the list leave the rows of the earlier
    files where they are: the merge of [files ++ more] copies, first, the
    rows that the merge of [files] copies before its signature section,
    then rows of the added files, then its signature section, which is
    that of the merge of [files] when that has one. *)
Theorem earlier_files_keep_their_rows (files more : list Workbook)
  (config : MergeConfig) (st st' : MergeState) :
  mergeExcelFiles files config = Some st ->
  mergeExcelFiles (files ++ more) config = Some st' ->
  exists body later,
    copiedSources (trace st) = body ++ signatureRowsToAdd st
    /\ copiedSources (trace st') = body ++ later ++ signatureRowsToAdd st'
    /\ Forall (fun src => (length files <= fst (src_sheet src))%nat) later
    /\ firstn (length body) (worksheet st') = firstn (length body) (worksheet st)
    /\ (signatureRowsToAdd st <> [] ->
        signatureRowsToAdd st' = signatureRowsToAdd st).
Proof.
  intros Hmerge Hmerge'.
  pose proof (merge_copied_split config files st Hmerge) as Hsplit.
  pose proof (merge_copied_split config _ st' Hmerge') as Hsplit'.
  rewrite indexFiles_app in Hsplit'. cbn [Nat.add] in Hsplit'.
  destruct (allEvents_app config (indexFiles 0 files)
              (indexFiles (length files) more) true true)
    as [first' [sigEmpty' Happ]].
  rewrite Happ, copiedSources_app, <- app_assoc in Hsplit'.
  exists (copiedSources (allEvents config (indexFiles 0 files) true true)),
         (copiedSources (allEvents config (indexFiles (length files) more)
                           first' sigEmpty')).
  split; [exact Hsplit|]. split; [exact Hsplit'|]. split; [|split].
  - apply Forall_forall. intros src Hsrc.
    apply (allEvents_sources config) in Hsrc.
    destruct Hsrc as [sid [sheet [r [Hin ->]]]]. cbn [sourceRow src_sheet].
    apply (indexFiles_place more (length files) sid).
    apply in_map_iff. now exists (sid, sheet).
  - destruct (outputFollowsTrace_merge config files st Hmerge) as [Hrows _].
    destruct (outputFollowsTrace_merge config _ st' Hmerge') as [Hrows' _].
    rewrite Hrows, Hrows', Hsplit, Hsplit', !map_app.
    rewrite <- (length_map (render config)
                  (copiedSources (allEvents config (indexFiles 0 files) true true))).
    now rewrite !firstn_app, !Nat.sub_diag, !firstn_all, !firstn_O, !app_nil_r.
  - destruct (merge_effect config files st Hmerge) as [_ Hsigs].
    destruct (merge_effect config _ st' Hmerge') as [_ Hsigs'].
    cbv zeta in Hsigs, Hsigs'. rewrite Hsigs, Hsigs'.
    destruct (includeSignature config); [|reflexivity].
    rewrite indexFiles_app. apply firstSignatureBlock_app.
Qed.

Lemma earlier_files_keep_their_rows_witness :
  firstn 4 (worksheet (appendSignature defaultConfig
                         (processFiles defaultConfig 0
                            ([[deliverySheet]] ++ [[titledSheet]]) initialState)))
  = firstn 4 (worksheet (appendSignature defaultConfig
                           (processFiles defaultConfig 0 [[deliverySheet]]
                              initialState))).
Proof.
  destruct (earlier_files_keep_their_rows [[deliverySheet]] [[titledSheet]]
              defaultConfig _ _ eq_refl eq_refl)
    as [body [later [Hbody [_ [_ [Hrows _]]]]]].
  assert (Hlen : length body = 4%nat).
  { apply (f_equal (@length SourceRow)) in Hbody.
    rewrite length_app in Hbody.
    match type of Hbody with
    | ?a = (_ + ?b)%nat =>
        let a' := eval vm_compute in a in
        let b' := eval vm_compute in b in
        change a with a' in Hbody; change b with b' in Hbody
    end.
    lia. }
  rewrite Hlen in Hrows. exact Hrows.
Defined.

(** ** The clean rebuild *)

Section CleanRebuild.

Lemma eachCellAt_cells (row : Row) :
  forall k acc,
    1 <= k ->
    (forall c, k <= c -> getCell acc c = emptyCell) ->
    forall c, 1 <= c ->
      getCell (eachCellAt cleanCell row k acc) c
      = if c <? k then getCell acc c
        else let cell := nth (Z.to_nat (c - k)) row emptyCell in
             if isNullType cell then emptyCell else copyCell cell emptyCell.
Proof.
  induction row as [|cell rest IH]; intros k acc Hk Hacc c Hc.
  - cbn [eachCellAt]. destruct (c <? k) eqn:Hck; [reflexivity|].
    apply Z.ltb_ge in Hck. rewrite Hacc by assumption.
    now destruct (Z.to_nat (c - k)).
  - cbn [eachCellAt].
    set (acc' := if isNullType cell then acc else cleanCell cell k acc).
    assert (Hother : forall c', c' <> k -> getCell acc' c' = getCell acc c').
    { intros c' Hc'. unfold acc', cleanCell.
      destruct (isNullType cell); [reflexivity|].
      apply getCell_setCell_other. congruence. }
    assert (Hsame : getCell acc' k
                    = if isNullType cell then emptyCell else copyCell cell emptyCell).
    { unfold acc', cleanCell. destruct (isNullType cell).
      - apply Hacc. lia.
      - rewrite getCell_setCell_same by assumption. now rewrite Hacc by lia. }
    rewrite (IH (k + 1) acc') by
      (try lia; try assumption; intros c' Hc'; rewrite Hother by lia; apply Hacc; lia).
    destruct (c <? k + 1) eqn:Hck1.
    + apply Z.ltb_lt in Hck1. destruct (c <? k) eqn:Hck.
      * apply Z.ltb_lt in Hck. apply Hother. lia.
      * apply Z.ltb_ge in Hck. assert (c = k) by lia. subst c.
        rewrite Z.sub_diag. exact Hsame.
    + apply Z.ltb_ge in Hck1.
      replace (c <? k) with false by (symmetry; apply Z.ltb_ge; lia).
      replace (Z.to_nat (c - k)) with (S (Z.to_nat (c - (k + 1)))) by lia.
      reflexivity.
Qed.

Lemma cleanRow_cells (row : Row) (c : Z) :
  1 <= c ->
  getCell (cleanRow row) c
  = if isNullType (getCell row c) then emptyCell
    else copyCell (getCell row c) emptyCell.
Proof.
  intros Hc. unfold cleanRow.
  rewrite eachCellAt_cells by (try lia; intros; apply getCell_nil).
  replace (c <? 1) with false by (symmetry; apply Z.ltb_ge; lia).
  cbv zeta. unfold getCell.
  now replace (c <? 1) with false by (symmetry; apply Z.ltb_ge; lia).
Qed.

Lemma eachRow_cleanSheet (sheetRows : list Row) :
  forall k acc,
    eachRow cleanSheet_step sheetRows k acc
    = acc ++ map cleanRow (filter hasValues sheetRows).
Proof.
  induction sheetRows as [|row sheetRows IH]; intros k acc; cbn [eachRow filter].
  - now rewrite app_nil_r.
  - rewrite IH. destruct (hasValues row); [|reflexivity].
    unfold cleanSheet_step. now rewrite <- app_assoc.
Qed.

Lemma cleanSheet_rows (sheetRows : list Row) :
  cleanSheet sheetRows = map cleanRow (filter hasValues sheetRows).
Proof. unfold cleanSheet. now rewrite eachRow_cleanSheet. Qed.

(** The value that [extractSafeCellValue] finds in a cell that holds, as
    its own value, a value that is no formula, rich text or hyperlink. *)
Lemma extract_resolved (cell : Cell) :
  merged cell = false ->
  isUnresolved (value cell) = false ->
  extractSafeCellValue cell = primitiveOrNull (value cell).
Proof.
  destruct cell as [m v f fi a b nf]. cbn [merged value]. intros -> Hv.
  unfold extractSafeCellValue, cellType. cbn [merged value].
  destruct v; try discriminate; reflexivity.
Qed.

Lemma extract_not_unresolved (cell : Cell) :
  isUnresolved (extractSafeCellValue cell) = false.
Proof.
  destruct cell as [m v f fi a b nf].
  unfold extractSafeCellValue, cellType, cell_result. cbn [value merged].
  destruct v as [ | n | s | bo | d | e | runs | t h | fo [r|] | fo [r|] ];
    destruct m; try reflexivity; destruct r; reflexivity.
Qed.

Lemma copyCell_merged_empty (source : Cell) :
  merged (copyCell source emptyCell) = false.
Proof. unfold copyCell. now destruct (extractSafeCellValue source). Qed.

Lemma copyCell_value_empty (source : Cell) :
  value (copyCell source emptyCell) = extractSafeCellValue source.
Proof. rewrite copyCell_value. now destruct (extractSafeCellValue source). Qed.

End CleanRebuild.

(** X12. The rebuilt workbook holds the sheets of the first file under
    their names and then the sheet "Consolidated", each rebuilt in the
    same way: one row for each row of the sheet that has values, in the
    same order and numbered from 1 without gaps, so that a row without
    values leaves no row and the rows after it move up.  In a rebuilt row
    the cell of a column is the copy, into a new cell, of the cell of the
    same column of the row, when that cell is not empty. *)
Theorem clean_rebuild_keeps_rows_with_values (sheetRows : list Row) :
  cleanSheet sheetRows = map cleanRow (filter hasValues sheetRows)
  /\ (forall firstWb j sheet,
         nth_error firstWb j = Some sheet ->
         nth_error (cleanWorkbook firstWb sheetRows) j
         = Some (mkWorksheet (name sheet)
                   (map cleanRow (filter hasValues (rows sheet)))))
  /\ (forall firstWb,
         nth_error (cleanWorkbook firstWb sheetRows) (length firstWb)
         = Some (mkWorksheet (js "Consolidated")
                   (map cleanRow (filter hasValues sheetRows))))
  /\ (length (cleanSheet sheetRows) <= length sheetRows)%nat
  /\ (forall before row after,
         sheetRows = before ++ row :: after ->
         hasValues row = false ->
         cleanSheet sheetRows = cleanSheet before ++ cleanSheet after)
  /\ (forall k row,
         nth_error (filter hasValues sheetRows) k = Some row ->
         forall c, 1 <= c ->
           getCell (getRow (cleanSheet sheetRows) (Z.of_nat k + 1)) c
           = if isNullType (getCell row c) then emptyCell
             else copyCell (getCell row c) emptyCell).
Proof.
  split; [apply cleanSheet_rows|]. split; [|split; [|split; [|split]]].
  - intros firstWb j sheet Hj. unfold cleanWorkbook.
    rewrite nth_error_app1
      by (rewrite length_map; apply nth_error_Some; congruence).
    rewrite nth_error_map, Hj. cbn [option_map].
    now rewrite cleanSheet_rows.
  - intros firstWb. unfold cleanWorkbook.
    rewrite nth_error_app2 by (rewrite length_map; lia).
    rewrite length_map, Nat.sub_diag. cbn [nth_error].
    now rewrite cleanSheet_rows.
  - rewrite cleanSheet_rows, length_map. apply filter_length_le.
  - intros before row after -> Hrow.
    rewrite !cleanSheet_rows, filter_app. cbn [filter]. rewrite Hrow.
    apply map_app.
  - intros k row Hk c Hc.
    rewrite cleanSheet_rows, (getRow_map_nth_error cleanRow _ k row Hk).
    now apply cleanRow_cells.
Qed.

(** X13. A cell of a rebuilt row never holds a formula, a rich text or a
    hyperlink.  When the row is itself the copy of a source row, as the
    rows of the output sheet are, the rebuilt cell of a column of the
    window holds the extracted value of the source cell if that is a
    number, a string or a boolean, and nothing otherwise: the date or the
    error that a formula gave is lost in the rebuild. *)
Theorem clean_rebuild_keeps_primitive_values (sourceRow row : Row)
  (startCol endCol c : Z) :
  startCol <= c <= endCol ->
  1 <= c ->
  isUnresolved (value (getCell (cleanRow row) c)) = false
  /\ value (getCell (cleanRow (copyRowWithFormatting sourceRow [] startCol endCol)) c)
     = primitiveOrNull (extractSafeCellValue (getCell sourceRow c)).
Proof.
  intros Hc H1. split.
  - rewrite cleanRow_cells by assumption.
    destruct (isNullType (getCell row c)); [reflexivity|].
    rewrite copyCell_value_empty. apply extract_not_unresolved.
  - rewrite cleanRow_cells by assumption.
    rewrite (copyRow_inside _ _ _ _ c Hc H1), getCell_nil.
    set (copied := copyCell (getCell sourceRow c) emptyCell).
    assert (Hvalue : value copied = extractSafeCellValue (getCell sourceRow c))
      by apply copyCell_value_empty.
    assert (Hmerged : merged copied = false) by apply copyCell_merged_empty.
    assert (Hres : isUnresolved (value copied) = false)
      by (rewrite Hvalue; apply extract_not_unresolved).
    rewrite <- Hvalue. unfold isNullType, cellType. rewrite Hmerged.
    destruct (ValueType_eqb (typeOfValue (value copied)) TNull) eqn:Hnull.
    + destruct (value copied); try discriminate Hnull; reflexivity.
    + now rewrite copyCell_value_empty, (extract_resolved copied Hmerged Hres).
Qed.

Lemma clean_rebuild_keeps_primitive_values_witness :
  value (getCell (copyRowWithFormatting datedRow [] 1 26) 2)
  = VDate (mkDate (js "Tue Nov 03 2026"))
  /\ value (getCell (cleanRow (copyRowWithFormatting datedRow [] 1 26)) 2) = VNull.
Proof.
  split; [reflexivity|].
  apply (proj2 (clean_rebuild_keeps_primitive_values datedRow [] 1 26 2
                  ltac:(lia) ltac:(lia))).
Defined.

(** ** Column widths *)

Section ColumnWidths.

Variable sourceColumns : Columns.

Lemma copyColumnWidths_raised (cols : list Z) :
  fold_left (copyColumnWidths_step sourceColumns) cols None = None.
Proof. induction cols as [|c cols IH]; [reflexivity | exact IH]. Qed.

Lemma columnWidth_set_same (columns : Columns) (c : Z) (w : number) :
  columnWidth (setColumnWidth columns c w) c = Some w.
Proof. unfold columnWidth, setColumnWidth. apply nth_setNth_same. Qed.

Lemma columnWidth_set_other (columns : Columns) (c c' : Z) (w : number) :
  1 <= c -> 1 <= c' -> c <> c' ->
  columnWidth (setColumnWidth columns c w) c' = columnWidth columns c'.
Proof.
  intros Hc Hc' Hne. unfold columnWidth, setColumnWidth.
  apply nth_setNth_other. lia.
Qed.

Lemma copiedWidth_twice (source target : option number) :
  copiedWidth source (copiedWidth source target) = copiedWidth source target.
Proof.
  unfold copiedWidth. destruct source as [w|]; [|reflexivity].
  now destruct (truthyNumber w).
Qed.

Lemma copyColumnWidths_fold (cols : list Z) :
  forall target,
    Forall (fun c => 1 <= c) cols ->
    exists target',
      fold_left (copyColumnWidths_step sourceColumns) cols (Some target)
      = Some target'
      /\ forall c, 1 <= c ->
           columnWidth target' c
           = if existsb (Z.eqb c) cols
             then copiedWidth (columnWidth sourceColumns c) (columnWidth target c)
             else columnWidth target c.
Proof.
  induction cols as [|a cols IH]; intros target Hcols.
  - exists target. split; [reflexivity | intros; reflexivity].
  - inversion Hcols as [|? ? Ha Hrest]; subst.
    cbn [fold_left copyColumnWidths_step].
    replace (a <? 1) with false by (symmetry; apply Z.ltb_ge; lia).
    set (target1 := match columnWidth sourceColumns a with
                    | Some width =>
                        if truthyNumber width
                        then Some (setColumnWidth target a width)
                        else Some target
                    | None => Some target
                    end).
    assert (Hstep : exists t1,
               target1 = Some t1
               /\ forall c, 1 <= c ->
                    columnWidth t1 c
                    = if c =? a
                      then copiedWidth (columnWidth sourceColumns a) (columnWidth target a)
                      else columnWidth target c).
    { unfold target1, copiedWidth.
      destruct (columnWidth sourceColumns a) as [w|].
      - destruct (truthyNumber w).
        + eexists. split; [reflexivity|]. intros c Hc.
          destruct (c =? a) eqn:Hca.
          * apply Z.eqb_eq in Hca. subst c. apply columnWidth_set_same.
          * apply Z.eqb_neq in Hca. apply columnWidth_set_other; lia.
        + exists target. split; [reflexivity|]. intros c Hc.
          destruct (c =? a) eqn:Hca; [apply Z.eqb_eq in Hca; now subst c | reflexivity].
      - exists target. split; [reflexivity|]. intros c Hc.
        destruct (c =? a) eqn:Hca; [apply Z.eqb_eq in Hca; now subst c | reflexivity]. }
    destruct Hstep as [t1 [-> Ht1]].
    destruct (IH t1 Hrest) as [target' [Hfold Hwidth]].
    exists target'. split; [exact Hfold|].
    intros c Hc. rewrite (Hwidth c Hc), (Ht1 c Hc). cbn [existsb].
    destruct (c =? a) eqn:Hca; cbn [orb].
    + apply Z.eqb_eq in Hca. subst c.
      destruct (existsb (Z.eqb a) cols); [apply copiedWidth_twice | reflexivity].
    + reflexivity.
Qed.

Lemma copyColumnWidths_raises (cols : list Z) :
  forall target,
    Exists (fun c => c < 1) cols ->
    fold_left (copyColumnWidths_step sourceColumns) cols target = None.
Proof.
  induction cols as [|a cols IH]; intros target Hex;
    inversion Hex as [? ? Ha | ? ? Hrest]; subst; cbn [fold_left].
  - destruct target as [t|]; cbn [copyColumnWidths_step];
      [|apply copyColumnWidths_raised].
    replace (a <? 1) with true by (symmetry; apply Z.ltb_lt; lia).
    apply copyColumnWidths_raised.
  - now apply IH.
Qed.

End ColumnWidths.

(** X14. [copyColumnWidths] raises an exception exactly when the window is
    not empty and starts below column 1.  Otherwise it leaves the width
    of every column outside [[startCol, endCol]] as it was, and a column
    of the window takes the width of the source column when that is a
    number other than 0 and keeps its own otherwise. *)
Theorem copyColumnWidths_window (sourceColumns targetColumns : Columns)
  (startCol endCol : Z) :
  (copyColumnWidths sourceColumns targetColumns startCol endCol = None
   <-> startCol <= endCol /\ startCol < 1)
  /\ (forall target' c,
         copyColumnWidths sourceColumns targetColumns startCol endCol = Some target' ->
         1 <= c ->
         columnWidth target' c
         = if (startCol <=? c) && (c <=? endCol)
           then copiedWidth (columnWidth sourceColumns c) (columnWidth targetColumns c)
           else columnWidth targetColumns c).
Proof.
  unfold copyColumnWidths.
  destruct (Z_lt_dec startCol 1) as [Hlow | Hhigh].
  - destruct (Z_le_dec startCol endCol) as [Hrun | Hrun].
    + rewrite copyColumnWidths_raises.
      * split; [tauto | intros; discriminate].
      * rewrite zrange_cons by assumption. now constructor.
    + rewrite zrange_empty by lia. cbn [fold_left]. split.
      * split; [discriminate | lia].
      * intros target' c [= <-] Hc.
        replace ((startCol <=? c) && (c <=? endCol)) with false; [reflexivity|].
        symmetry. apply andb_false_iff.
        destruct (Z_le_dec startCol c);
          [right; apply Z.leb_gt; lia | left; apply Z.leb_gt; lia].
  - destruct (copyColumnWidths_fold sourceColumns (zrange startCol endCol)
                targetColumns) as [t [Hfold Hwidth]].
    { apply Forall_forall. intros c Hc. apply in_zrange in Hc. lia. }
    rewrite Hfold. split.
    + split; [discriminate | lia].
    + intros target' c [= <-] Hc. rewrite (Hwidth c Hc).
      replace (existsb (Z.eqb c) (zrange startCol endCol))
        with ((startCol <=? c) && (c <=? endCol)); [reflexivity|].
      apply eq_true_iff_eq.
      rewrite andb_true_iff, !Z.leb_le, existsb_exists. split.
      * intros Hin. exists c. split; [now apply in_zrange | apply Z.eqb_refl].
      * intros [x [Hx Hcx]]. apply Z.eqb_eq in Hcx. subst x.
        now apply in_zrange in Hx.
Qed.

Lemma copyColumnWidths_window_witness :
  columnWidth
    (match copyColumnWidths [Some (mkNumber (js "12.5")); Some (mkNumber (js "0"))]
             [None; Some (mkNumber (js "8.43"))] 1 2 with
     | Some target' => target'
     | None => []
     end) 2
  = Some (mkNumber (js "8.43")).
Proof.
  apply (proj2 (copyColumnWidths_window
                  [Some (mkNumber (js "12.5")); Some (mkNumber (js "0"))]
                  [None; Some (mkNumber (js "8.43"))] 1 2)
           _ 2 eq_refl).
  lia.
Defined.

(** ** Merged ranges *)

Section MergedRanges.

Lemma span_app (p : Z -> bool) (a b : jsstring) :
  forallb p a = true -> headFails p b = true -> span p (a ++ b) = (a, b).
Proof.
  intros Ha Hb. induction a as [|c a IH]; cbn [app].
  - destruct b as [|c b]; [reflexivity|]. cbn [span headFails] in *.
    now destruct (p c).
  - cbn [forallb] in Ha. apply andb_true_iff in Ha. destruct Ha as [Hc Ha].
    cbn [span]. now rewrite Hc, (IH Ha).
Qed.

Lemma parseInt_snoc (digits : jsstring) (c : Z) :
  parseInt (digits ++ [c]) = parseInt digits * 10 + (c - 48).
Proof. unfold parseInt. now rewrite fold_left_app. Qed.

Lemma decimal_loop_digits (fuel : nat) :
  forall n text,
    0 <= n -> (Z.to_nat n < fuel)%nat ->
    exists digits,
      decimal_loop fuel n text = digits ++ text
      /\ digits <> []
      /\ forallb isDigit digits = true
      /\ parseInt digits = n.
Proof.
  induction fuel as [|fuel IH]; intros n text Hn Hfuel; [lia|].
  cbn [decimal_loop].
  assert (Hmod : 0 <= n mod 10 < 10) by (apply Z.mod_pos_bound; lia).
  assert (Hdigit : isDigit (48 + n mod 10) = true).
  { unfold isDigit. apply andb_true_iff. split; apply Z.leb_le; lia. }
  destruct (n <? 10) eqn:Hsmall.
  - apply Z.ltb_lt in Hsmall. exists [48 + n mod 10].
    split; [reflexivity|]. split; [discriminate|].
    split; [cbn [forallb]; now rewrite Hdigit|].
    unfold parseInt. cbn [fold_left]. rewrite Z.mod_small by lia. lia.
  - apply Z.ltb_ge in Hsmall.
    assert (Hdiv : 0 <= n / 10 < n).
    { split; [apply Z.div_pos; lia | apply Z.div_lt; lia]. }
    destruct (IH (n / 10) ((48 + n mod 10) :: text)) as [digits [Heq [Hne [Hall Hval]]]];
      [lia | lia |].
    exists (digits ++ [48 + n mod 10]).
    split; [now rewrite Heq, <- app_assoc|].
    split; [intros Hnil; now apply app_eq_nil in Hnil as [_ Hnil]|].
    split.
    + rewrite forallb_app, Hall. cbn [forallb]. now rewrite Hdigit.
    + rewrite parseInt_snoc, Hval.
      pose proof (Z.div_mod n 10 ltac:(lia)). lia.
Qed.

Lemma decimal_digits (n : Z) :
  0 <= n ->
  decimal n <> [] /\ forallb isDigit (decimal n) = true /\ parseInt (decimal n) = n.
Proof.
  intros Hn. unfold decimal.
  destruct (decimal_loop_digits (S (Z.to_nat n)) n [] Hn ltac:(lia))
    as [digits [Heq [Hne [Hall Hval]]]].
  rewrite Heq, app_nil_r. auto.
Qed.

Lemma column_letters (c : Z) :
  1 <= c <= 16384 ->
  columnNumberToLetter c <> []
  /\ forallb isCapital (columnNumberToLetter c) = true
  /\ columnLetterToNumber (columnNumberToLetter c) = c.
Proof.
  intros Hc.
  pose proof (column_codec_round_trip_core c ltac:(unfold two53; lia)) as Hrt.
  split; [|split; [|exact Hrt]].
  - intros Hnil. rewrite Hnil in Hrt. cbn in Hrt. lia.
  - unfold columnNumberToLetter. now apply columnNumberToLetter_loop_capital.
Qed.

Lemma headFails_digits_capital (digits rest : jsstring) :
  digits <> [] -> forallb isDigit digits = true ->
  headFails isCapital (digits ++ rest) = true.
Proof.
  destruct digits as [|c digits]; [congruence|]. intros _ Hall.
  cbn [forallb] in Hall. apply andb_true_iff in Hall. destruct Hall as [Hc _].
  cbn [app headFails]. unfold isDigit in Hc. unfold isCapital.
  apply andb_true_iff in Hc. destruct Hc as [H1 H2].
  apply Z.leb_le in H1, H2. apply negb_true_iff, andb_false_iff.
  left. apply Z.leb_gt. lia.
Qed.

(** The pattern matches the text of a range at its first code unit, with
    the letters and the digits of the two corners as groups. *)
Lemma matchHere_range (l1 d1 l2 d2 : jsstring) :
  l1 <> [] -> forallb isCapital l1 = true ->
  d1 <> [] -> forallb isDigit d1 = true ->
  l2 <> [] -> forallb isCapital l2 = true ->
  d2 <> [] -> forallb isDigit d2 = true ->
  matchHere (l1 ++ d1 ++ [58] ++ l2 ++ d2) = Some (l1, d1, l2, d2).
Proof.
  intros Hl1 Hc1 Hd1 Hn1 Hl2 Hc2 Hd2 Hn2. unfold matchHere.
  rewrite (span_app isCapital l1) by
    (try assumption; now apply headFails_digits_capital).
  rewrite (span_app isDigit d1) by (try assumption; reflexivity).
  destruct l1 as [|a1 l1]; [congruence|].
  destruct d1 as [|b1 d1]; [congruence|].
  cbn [app].
  rewrite (span_app isCapital l2) by
    (try assumption; rewrite <- (app_nil_r d2); now apply headFails_digits_capital).
  rewrite <- (app_nil_r d2) at 1.
  rewrite (span_app isDigit d2) by (try assumption; reflexivity).
  destruct l2 as [|a2 l2]; [congruence|].
  destruct d2 as [|b2 d2]; [congruence|].
  reflexivity.
Qed.

Lemma matchMerge_here (merge : jsstring) groups :
  matchHere merge = Some groups -> matchMerge merge = Some groups.
Proof. intros H. destruct merge; cbn [matchMerge]; now rewrite H. Qed.

Lemma validRange_bounds (d : Dimensions) :
  validRange d = true ->
  1 <= dim_top d <= dim_bottom d /\ 1 <= dim_left d <= dim_right d
  /\ dim_right d <= 16384.
Proof.
  unfold validRange. rewrite !andb_true_iff, !Z.leb_le. lia.
Qed.

Lemma readMerge_rangeText (d : Dimensions) :
  validRange d = true -> readMerge (rangeText d) = Some d.
Proof.
  intros Hvalid. apply validRange_bounds in Hvalid.
  destruct (column_letters (dim_left d) ltac:(lia)) as [Hl1 [Hc1 Hv1]].
  destruct (column_letters (dim_right d) ltac:(lia)) as [Hl2 [Hc2 Hv2]].
  destruct (decimal_digits (dim_top d) ltac:(lia)) as [Hd1 [Hn1 Hp1]].
  destruct (decimal_digits (dim_bottom d) ltac:(lia)) as [Hd2 [Hn2 Hp2]].
  unfold readMerge, rangeText.
  rewrite (matchMerge_here _ _ (matchHere_range _ _ _ _ Hl1 Hc1 Hd1 Hn1 Hl2 Hc2 Hd2 Hn2)).
  rewrite Hv1, Hv2, Hp1, Hp2. now destruct d.
Qed.






End MergedRanges.

(** X15. [copyMergedCells] reads back the ranges that the library writes
    in [model.merges]: for a range of a sheet, the pattern matches its
    text and the row and column numbers computed from the groups are
    those of the range. *)
Theorem merged_range_is_read_back (d : Dimensions) :
  validRange d = true ->
  matchMerge (rangeText d)
  = Some (columnNumberToLetter (dim_left d), decimal (dim_top d),
          columnNumberToLetter (dim_right d), decimal (dim_bottom d))
  /\ parseInt (decimal (dim_top d)) = dim_top d
  /\ parseInt (decimal (dim_bottom d)) = dim_bottom d
  /\ columnLetterToNumber (columnNumberToLetter (dim_left d)) = dim_left d
  /\ columnLetterToNumber (columnNumberToLetter (dim_right d)) = dim_right d
  /\ readMerge (rangeText d) = Some d.
Proof.
  intros Hvalid. pose proof (readMerge_rangeText d Hvalid) as Hread.
  apply validRange_bounds in Hvalid.
  destruct (column_letters (dim_left d) ltac:(lia)) as [Hl1 [Hc1 Hv1]].
  destruct (column_letters (dim_right d) ltac:(lia)) as [Hl2 [Hc2 Hv2]].
  destruct (decimal_digits (dim_top d) ltac:(lia)) as [Hd1 [Hn1 Hp1]].
  destruct (decimal_digits (dim_bottom d) ltac:(lia)) as [Hd2 [Hn2 Hp2]].
  repeat split; try assumption.
  apply matchMerge_here. unfold rangeText. now apply matchHere_range.
Qed.

Lemma merged_range_is_read_back_witness :
  readMerge (js "AB12:XFD1048576") = Some (mkDimensions 12 28 1048576 16384).
Proof.
  apply (merged_range_is_read_back (mkDimensions 12 28 1048576 16384)).
  reflexivity.
Defined.



(** ** A window without columns *)

(** X17. When the end column comes before the start column, the merge
    copies the same rows as with any other window but no cell: the
    output sheet has one row for each copy and every row is empty.  No
    row is then taken for a subtotal row. *)
Theorem empty_window_gives_empty_rows (files : list Workbook)
  (config : MergeConfig) (st : MergeState) :
  endColNum config < startColNum config ->
  mergeExcelFiles files config = Some st ->
  length (worksheet st) = length (copiedSources (trace st))
  /\ Forall (fun row => row = []) (worksheet st)
  /\ (forall row, isSubtotalRow row (startColNum config) (endColNum config) = false).
Proof.
  intros Hwindow Hmerge.
  destruct (outputFollowsTrace_merge config files st Hmerge) as [Hrows _].
  split; [now rewrite Hrows, length_map|]. split.
  - rewrite Hrows. apply Forall_forall. intros row Hrow.
    apply in_map_iff in Hrow. destruct Hrow as [src [<- _]].
    unfold render, copyRowWithFormatting. now rewrite zrange_empty by lia.
  - intros row. unfold isSubtotalRow, subtotalCounts.
    rewrite zrange_empty by lia. cbn [fold_left numericCellCount].
    now rewrite andb_false_r.
Qed.

Lemma empty_window_gives_empty_rows_witness :
  Forall (fun row => row = [])
    (worksheet (appendSignature (mkConfig true 2 (js "Z") (js "A") true)
                  (processFiles (mkConfig true 2 (js "Z") (js "A") true) 0
                     [[deliverySheet]] initialState))).
Proof.
  apply (proj1 (proj2 (empty_window_gives_empty_rows [[deliverySheet]]
                         (mkConfig true 2 (js "Z") (js "A") true) _
                         ltac:(vm_compute; reflexivity) eq_refl))).
Defined.

(** ** The route *)

Section RouteName.

Lemma startsWith_app (k s t : jsstring) :
  startsWith k s = true -> startsWith k (s ++ t) = true.
Proof.
  rewrite !startsWith_iff. intros [b ->]. exists (b ++ t). now rewrite app_assoc.
Qed.

Lemma endsWith_prefixed (a s k : jsstring) :
  endsWith s k = true -> endsWith (a ++ s) k = true.
Proof. unfold endsWith. rewrite rev_app_distr. apply startsWith_app. Qed.

Lemma endsWith_suffix (s k : jsstring) : endsWith (s ++ k) k = true.
Proof.
  unfold endsWith. rewrite rev_app_distr. apply startsWith_iff. now exists (rev s).
Qed.

Lemma toLowerCase_app (a b : jsstring) :
  toLowerCase (a ++ b) = toLowerCase a ++ toLowerCase b.
Proof. apply flat_map_app. Qed.

Lemma isHeaderValue_high (s : jsstring) (c : Z) :
  In c s -> 255 < c -> isHeaderValue s = false.
Proof.
  intros Hin Hhigh. destruct (isHeaderValue s) eqn:Hvalue; [|reflexivity].
  unfold isHeaderValue in Hvalue. rewrite forallb_forall in Hvalue.
  specialize (Hvalue c Hin). apply andb_true_iff in Hvalue.
  destruct Hvalue as [Hlow _]. apply Z.leb_le in Hlow. lia.
Qed.

(** The name of the download holds the name of the first file. *)
Lemma fileName_not_header_value (firstFileName timestamp : jsstring) (c : Z) :
  In c firstFileName -> 255 < c ->
  isHeaderValue (fileName firstFileName timestamp) = false.
Proof.
  intros Hin Hhigh. apply (isHeaderValue_high _ c); [|assumption].
  unfold fileName. destruct firstFileName as [|c0 name]; [contradiction|].
  cbn [isNil]. cbv zeta.
  destruct (endsWith _ _); rewrite !in_app_iff; tauto.
Qed.

End RouteName.

(** X18. The route answers with an attachment only when the request has
    at least one file, after [mergeExcelFiles] has returned for the files
    of the request, and names it after the first of them; without a file
    it answers 400 or 500 and does not call [mergeExcelFiles], and it
    answers 500 when the name of the first file has a code unit above
    255, which no header of a response can hold.  The name
    is ["merged_"] followed by the name of the file, and by [".xlsx"]
    unless the name ends with it already, in any letter case: it always
    ends with [".xlsx"] and the extension is never doubled. *)
Theorem route_names_the_download_after_the_first_file :
  (forall (File Config Body : Type) (file_name : File -> jsstring)
          (JSON_parse : jsstring -> option Config) (initialConfig : Config)
          (mergeFiles : list File -> Config -> option Body)
          entries configData timestamp,
      let response :=
        POST File Config Body file_name JSON_parse initialConfig mergeFiles
             (Some (entries, configData)) timestamp in
      (forall body name,
          response = Attachment body name ->
          exists firstFile rest config,
            fileEntries File entries = firstFile :: rest
            /\ mergeFiles (firstFile :: rest) config = Some body
            /\ name = fileName (file_name firstFile) timestamp)
      /\ (fileEntries File entries = [] ->
          response = JsonError 400 (js "No files provided")
          \/ response = JsonError 500 (js "Failed to merge files"))
      /\ (forall firstFile rest c,
          fileEntries File entries = firstFile :: rest ->
          In c (file_name firstFile) -> 255 < c ->
          response = JsonError 500 (js "Failed to merge files")))
  /\ (forall firstFileName timestamp,
         startsWith (js "merged_") (fileName firstFileName timestamp) = true
         /\ endsWith (toLowerCase (fileName firstFileName timestamp)) (js ".xlsx") = true)
  /\ (forall firstFileName timestamp,
         endsWith (toLowerCase firstFileName) (js ".xlsx") = true ->
         fileName firstFileName timestamp = js "merged_" ++ firstFileName)
  /\ (forall firstFileName timestamp,
         firstFileName <> [] ->
         endsWith (toLowerCase firstFileName) (js ".xlsx") = false ->
         fileName firstFileName timestamp
         = js "merged_" ++ firstFileName ++ js ".xlsx")
  /\ fileName (js "Report.XLSX") (js "2026-11-03") = js "merged_Report.XLSX"
  /\ fileName (js "") (js "2026-11-03") = js "merged_2026-11-03.xlsx".
Proof.
  split; [|split; [|split; [|split; [|split]]]].
  - intros File Config Body file_name JSON_parse initialConfig mergeFiles
      entries configData timestamp. cbv zeta. unfold POST.
    destruct (parseConfig File Config JSON_parse initialConfig configData)
      as [config|]; [|split; [discriminate | split; [now right | reflexivity]]].
    destruct (fileEntries File entries) as [|firstFile rest] eqn:Hfiles;
      [split; [discriminate | split; [now left | discriminate]]|].
    split; [|split; [discriminate|]].
    + destruct (mergeFiles (firstFile :: rest) config) as [buffer|] eqn:Hmerge;
        [|discriminate].
      cbv zeta.
      destruct (isHeaderValue (fileName (file_name firstFile) timestamp));
        [|discriminate].
      intros body name [= <- <-]. now exists firstFile, rest, config.
    + intros firstFile' rest' c [= <- <-] Hc Hhigh.
      destruct (mergeFiles (firstFile :: rest) config) as [buffer|]; [|reflexivity].
      cbv zeta.
      now rewrite (fileName_not_header_value (file_name firstFile) timestamp c Hc Hhigh).
  - intros firstFileName timestamp. unfold fileName. cbv zeta.
    set (originalName := if isNil firstFileName then timestamp ++ js ".xlsx"
                         else firstFileName).
    destruct (endsWith (toLowerCase originalName) (js ".xlsx")) eqn:Hext.
    + split; [apply startsWith_iff; now exists originalName|].
      rewrite toLowerCase_app. now apply endsWith_prefixed.
    + split; [apply startsWith_iff; now exists (originalName ++ js ".xlsx")|].
      rewrite app_assoc, toLowerCase_app. apply endsWith_suffix.
  - intros firstFileName timestamp Hext. unfold fileName. cbv zeta.
    destruct firstFileName as [|c name]; [discriminate Hext|].
    cbn [isNil]. now rewrite Hext.
  - intros firstFileName timestamp Hname Hext. unfold fileName. cbv zeta.
    destruct firstFileName as [|c name]; [congruence|].
    cbn [isNil]. now rewrite Hext.
  - reflexivity.
  - reflexivity.
Qed.

(** ** The signature section in the output *)

Section SignatureRows.

Variable config : MergeConfig.

(** In a merge that returns, the columns of the window are columns of a
    sheet. *)
Lemma merge_window_columns (files : list Workbook) (st : MergeState) (c : Z) :
  mergeExcelFiles files config = Some st ->
  startColNum config <= c <= endColNum config ->
  1 <= c <= 16384.
Proof.
  unfold mergeExcelFiles. destruct files as [|wb files]; [discriminate|].
  destruct (hasConsolidated wb); [discriminate|].
  destruct (windowRaises config wb) eqn:Hwindow; [discriminate|].
  intros _ Hc. unfold windowRaises in Hwindow.
  replace (startColNum config <=? endColNum config) with true in Hwindow
    by (symmetry; apply Z.leb_le; lia).
  cbn [andb] in Hwindow. apply orb_false_iff in Hwindow.
  destruct Hwindow as [Hwindow Hend]. apply orb_false_iff in Hwindow.
  destruct Hwindow as [Hstart _].
  apply Z.ltb_ge in Hstart. apply Z.ltb_ge in Hend. lia.
Qed.

(** The header rows of the first sheet are copied before anything else:
    a merge of at least one sheet copies at least [startRow - 1] rows
    before the signature section. *)
Lemma header_rows_counted (sheets : list (SheetId * Worksheet)) (sigEmpty : bool) :
  sheets <> [] ->
  (Z.to_nat (startRow config - 1)
   <= length (copiedSources (allEvents config sheets true sigEmpty)))%nat.
Proof.
  destruct sheets as [|[sid sheet] sheets]; [congruence|]. intros _.
  cbn [allEvents]. unfold sheetEvents, headerEvents.
  rewrite !copiedSources_app, !length_app.
  rewrite <- (map_map (sourceRow sid sheet) (Copied Header)).
  rewrite copiedSources_copies, length_map, length_zrange.
  replace (startRow config - 1 - 1 + 1) with (startRow config - 1) by lia. lia.
Qed.

(** The rows kept for the signature are the rows of one sheet of the
    input, from its signature row on. *)
Lemma firstSignatureBlock_rows (sheets : list (SheetId * Worksheet)) (k : nat)
  (src : SourceRow) :
  nth_error (firstSignatureBlock config sheets) k = Some src ->
  exists sid sheet s,
    In (sid, sheet) sheets
    /\ findSignatureRow sheet = Some s
    /\ s + Z.of_nat k <= lastRowNumber sheet
    /\ src = sourceRow sid sheet (s + Z.of_nat k).
Proof.
  unfold firstSignatureBlock.
  destruct (find (fun p => reachesSignature config (snd p)) sheets)
    as [[sid sheet]|] eqn:Hfind; [|now destruct k].
  apply find_some in Hfind. destruct Hfind as [Hin Hreach]. cbn [snd] in Hreach.
  unfold reachesSignature in Hreach. apply existsb_exists in Hreach.
  destruct Hreach as [r [_ Hact]].
  destruct (sheetRowAction config sheet r) eqn:Haction; try discriminate.
  apply rowAction_signature in Haction. destruct Haction as [_ Hsig].
  destruct (findSignatureRow sheet) as [s|] eqn:Hs; [|discriminate].
  unfold signatureBlock. rewrite Hs. intros Hk.
  rewrite nth_error_map in Hk.
  destruct (nth_error (zrange s (lastRowNumber sheet)) k) as [n|] eqn:Hn;
    [|discriminate].
  injection Hk as <-.
  assert (Hlen : (k < length (zrange s (lastRowNumber sheet)))%nat)
    by (apply nth_error_Some; congruence).
  rewrite length_zrange in Hlen.
  apply (nth_error_nth _ _ 0) in Hn. rewrite nth_zrange in Hn by assumption.
  subst n. exists sid, sheet, s.
  split; [assumption|]. split; [exact Hs|]. split; [lia | reflexivity].
Qed.

End SignatureRows.

(** C4. With [includeSignature], in a merge that returns, the signature
    rows are kept once, from the first sheet whose data loop meets its
    signature section (as it does in every sheet whose signature row has
    a number of at least [startRow] and is not the total row): the rows
    from its signature row to its last row, in order.  Their copies are
    the last events of the merge and no signature row is copied before.
    They are the last rows of the output sheet, after every header, data
    and total row of every file, past the header rows: the [k]-th of them
    is the copy of row [s + k] of that sheet, and its cells in the window
    hold the extracted values of the cells of that row.  Three files that
    each contain a signature section give one signature section, at the
    very end of the output sheet. *)
Theorem signature_kept_once_and_appended_last (files : list Workbook)
  (config : MergeConfig) (st : MergeState) :
  includeSignature config = true ->
  mergeExcelFiles files config = Some st ->
  let block := firstSignatureBlock config (indexFiles 0 files) in
  let body := allEvents config (indexFiles 0 files) true true in
  let n := length (copiedSources body) in
  signatureRowsToAdd st = block
  /\ capturedRows (trace st) = block
  /\ trace st = body ++ map (Copied Signature) block
  /\ forallb (fun e => negb (isSignatureCopy e)) body = true
  /\ length (worksheet st) = (n + length block)%nat
  /\ (forall k src,
         nth_error block k = Some src ->
         startRow config <= Z.of_nat (n + k) + 1
         /\ getRow (worksheet st) (Z.of_nat (n + k) + 1) = render config src
         /\ exists sid sheet s,
             In (sid, sheet) (indexFiles 0 files)
             /\ findSignatureRow sheet = Some s
             /\ s + Z.of_nat k <= lastRowNumber sheet
             /\ src = sourceRow sid sheet (s + Z.of_nat k)
             /\ forall c,
                 startColNum config <= c <= endColNum config ->
                 value (getCell (getRow (worksheet st) (Z.of_nat (n + k) + 1)) c)
                 = extractSafeCellValue
                     (getCell (getRow (rows sheet) (s + Z.of_nat k)) c))
  /\ (match firstSourceSheet files with
      | Some sheet => headerUnmerged config sheet = true
      | None => True
      end ->
      worksheet st
      = map (render config) (copiedSources body) ++ map (render config) block)
  /\ (forall sheet s,
         findSignatureRow sheet = Some s ->
         startRow config <= s ->
         findTotalRow sheet <> Some s ->
         reachesSignature config sheet = true)
  /\ copiedLog (mergeTrace [[deliverySheet]; [deliverySheet]; [deliverySheet]]
                  defaultConfig)
     = [ (Header, (0%nat, 0%nat), 1);
         (Data, (0%nat, 0%nat), 2); (Data, (0%nat, 0%nat), 3);
         (Total, (0%nat, 0%nat), 4);
         (Data, (1%nat, 0%nat), 2); (Data, (1%nat, 0%nat), 3);
         (Total, (1%nat, 0%nat), 4);
         (Data, (2%nat, 0%nat), 2); (Data, (2%nat, 0%nat), 3);
         (Total, (2%nat, 0%nat), 4);
         (Signature, (0%nat, 0%nat), 5); (Signature, (0%nat, 0%nat), 6) ]
  /\ map rowHasSignature
       (mergeOutput [[deliverySheet]; [deliverySheet]; [deliverySheet]] defaultConfig)
     = [ false; false; false; false; false; false; false; false; false; false;
         true; false ]
  /\ map (fun row => (value (getCell row 1), value (getCell row 2)))
       (skipn 10 (mergeOutput [[deliverySheet]; [deliverySheet]; [deliverySheet]]
                    defaultConfig))
     = [ (VString (js "Người lập phiếu"), VString (js "Người nhận"));
         (VString (js "An"), VString (js "Binh")) ].
Proof.
  intros Hinc Hmerge. cbv zeta.
  destruct (merge_effect config files st Hmerge) as [Htrace Hsigs].
  cbv zeta in Htrace, Hsigs. rewrite Hinc in Htrace, Hsigs.
  destruct (outputFollowsTrace_merge config files st Hmerge) as [Hrows _].
  assert (Hsources : copiedSources (trace st)
                     = copiedSources (allEvents config (indexFiles 0 files) true true)
                       ++ firstSignatureBlock config (indexFiles 0 files))
    by (now rewrite Htrace, copiedSources_app, copiedSources_copies).
  split; [exact Hsigs|].
  split.
  { rewrite Htrace, capturedRows_app, capturedRows_all, capturedRows_copies.
    rewrite Hinc. cbn [andb]. apply app_nil_r. }
  split; [exact Htrace|].
  split; [apply allEvents_no_signature_copy|].
  split; [now rewrite Hrows, Hsources, length_map, length_app|].
  split.
  { intros k src Hk.
    assert (Hrow : getRow (worksheet st)
                     (Z.of_nat (length (copiedSources
                                          (allEvents config (indexFiles 0 files) true true))
                                + k) + 1)
                   = render config src).
    { rewrite Hrows. apply getRow_map_nth_error.
      rewrite Hsources, nth_error_app2 by lia.
      now replace (length _ + k - length _)%nat with k by lia. }
    destruct (firstSignatureBlock_rows config (indexFiles 0 files) k src Hk)
      as [sid [sheet [s [Hin [Hs [Hlast Hsrc]]]]]].
    split; [|split; [exact Hrow|]].
    - assert (Hsheets : indexFiles 0 files <> [])
        by (intros Hnil; rewrite Hnil in Hin; contradiction).
      pose proof (header_rows_counted config (indexFiles 0 files) true Hsheets). lia.
    - exists sid, sheet, s. repeat split; try assumption.
      intros c Hc. rewrite Hrow. unfold render.
      destruct (merge_window_columns config files st c Hmerge Hc) as [Hc1 _].
      rewrite (copyRow_inside _ _ _ _ c Hc Hc1), getCell_nil, copyCell_value_empty.
      now rewrite Hsrc. }
  split.
  { intros _. rewrite Hrows, Hsources. apply map_app. }
  split; [apply reachesSignature_usual|].
  split; [vm_compute; reflexivity|].
  split; vm_compute; reflexivity.
Qed.

Lemma signature_kept_once_and_appended_last_witness :
  capturedRows (mergeTrace [[deliverySheet]; [deliverySheet]; [deliverySheet]]
                  defaultConfig)
  = signatureBlock (0%nat, 0%nat) deliverySheet.
Proof.
  exact (proj1 (proj2 (signature_kept_once_and_appended_last
                         [[deliverySheet]; [deliverySheet]; [deliverySheet]]
                         defaultConfig _ eq_refl eq_refl))).
Defined.
